(** * Verification of the quantitative-trading backtester

    A shallow embedding of the Python sources [data.py], [process.py],
    [indicators.py] and [strategy.py], followed by the properties stated
    about them.

    Modelling conventions.
    - A NumPy [float64] is a value of [float]: either a number, kept exactly
      as a rational ([Fin q]), or the not-a-number sentinel [NaN].  The
      sentinel obeys the IEEE rules the code relies on: every arithmetic
      operation with a [NaN] operand is [NaN] and every ordered comparison
      with a [NaN] operand is false.  Rounding, overflow, infinities and the
      sign of zero are outside the model.
    - Days, stock numbers and windows are natural numbers.  A window is at
      least 1: with a window of 0 Python's [range(n-1, N)] would start at
      -1, which [range] does not model.
    - Python exceptions are the [Raise] results of the [result] monad.
    - A Python list or one-dimensional array is a [list], read with [index]
      ([IndexError] out of range) and updated in place with stdpp's insert.
    - The random generators are replaced by explicit draws passed as
      arguments, so that every statement quantifies over all outcomes.
    - The ledger file is the list of the records written to it; [entry_text]
      is the line of text of one record. *)

From Stdlib Require Import QArith Qround Qabs ZArith Lia Lqa.
From stdpp Require Import base list strings pretty relations.

Local Open Scope Z_scope.
Local Open Scope nat_scope.

(** ** The Python and NumPy runtime *)

Inductive exn : Set :=
| IndexError
| ValueError
| TypeError
| ZeroDivisionError
| UnboundLocalError.

Inductive result (A : Type) : Type :=
| Ok (a : A)
| Raise (e : exn).
Arguments Ok {A} a.
Arguments Raise {A} e.

Definition bind {A B : Type} (c : result A) (k : A -> result B) : result B :=
  match c with
  | Ok a => k a
  | Raise e => Raise e
  end.

Notation "x <- c1 ; c2" := (bind c1 (fun x => c2))
  (at level 20, c1 at level 100, c2 at level 200, only parsing).
Notation "' pat <- c1 ; c2" :=
  (bind c1 (fun x => match x with pat => c2 end))
  (at level 20, pat pattern, c1 at level 100, c2 at level 200, only parsing).

(** [for x in xs: st = body(st, x)], stopping at the first exception. *)
Fixpoint for_each {A S : Type} (xs : list A) (body : S -> A -> result S)
    (st : S) : result S :=
  match xs with
  | [] => Ok st
  | x :: xs' => st' <- body st x ; for_each xs' body st'
  end.

(** [[f(x) for x in xs]]. *)
Fixpoint map_each {A B : Type} (f : A -> result B) (xs : list A)
    : result (list B) :=
  match xs with
  | [] => Ok []
  | x :: xs' => y <- f x ; ys <- map_each f xs' ; Ok (y :: ys)
  end.

(** [range(start, stop)] for natural bounds. *)
Definition range (start stop : nat) : list nat := seq start (stop - start).

(** [range(start, stop, step)]; Python rejects a zero step. *)
Fixpoint range_from (fuel start stop step : nat) : list nat :=
  match fuel with
  | O => []
  | S fuel' =>
      if start <? stop then start :: range_from fuel' (start + step) stop step
      else []
  end.

Definition range_step (start stop step : nat) : result (list nat) :=
  if step =? 0 then Raise ValueError else Ok (range_from stop start stop step).

(** [l[i]] for an index known to be non-negative. *)
Definition index {A : Type} (l : list A) (i : nat) : result A :=
  match l !! i with
  | Some x => Ok x
  | None => Raise IndexError
  end.

(** [l[i]] for a signed index: Python counts a negative index from the end. *)
Definition index_Z {A : Type} (l : list A) (i : Z) : result A :=
  if (0 <=? i)%Z then index l (Z.to_nat i)
  else if (- Z.of_nat (length l) <=? i)%Z
       then index l (Z.to_nat (Z.of_nat (length l) + i))
       else Raise IndexError.

(** [l[start:stop]] for [start <= stop]. *)
Definition slice {A : Type} (l : list A) (start stop : nat) : list A :=
  take (stop - start) (drop start l).

(** [a[i] = x]. *)
Definition setitem {A : Type} (l : list A) (i : nat) (x : A)
    : result (list A) :=
  if i <? length l then Ok (<[i:=x]> l) else Raise IndexError.

(** *** Floating-point values *)

Inductive float : Type :=
| Fin (q : Q)
| NaN.

Definition isnan (x : float) : bool :=
  match x with NaN => true | Fin _ => false end.

Definition of_Z (z : Z) : float := Fin (inject_Z z).
Definition of_nat (n : nat) : float := of_Z (Z.of_nat n).

Definition fneg (x : float) : float :=
  match x with Fin a => Fin (- a) | NaN => NaN end.

Definition fabs (x : float) : float :=
  match x with Fin a => Fin (Qabs a) | NaN => NaN end.

Definition fadd (x y : float) : float :=
  match x, y with Fin a, Fin b => Fin (a + b) | _, _ => NaN end.

Definition fsub (x y : float) : float :=
  match x, y with Fin a, Fin b => Fin (a - b) | _, _ => NaN end.

Definition fmul (x y : float) : float :=
  match x, y with Fin a, Fin b => Fin (a * b) | _, _ => NaN end.

(** NumPy answers a division by zero with an infinity (or with [nan] for
    0/0) and a warning.  The model has no infinities: the quotient by zero
    is [NaN].  The only unguarded division of the sources is the one in
    [buy], whose result goes straight to [int()], and [int()] raises on an
    infinity as it does on [nan]. *)
Definition fdiv (x y : float) : float :=
  match x, y with
  | Fin a, Fin b => if Qeq_bool b 0 then NaN else Fin (a / b)
  | _, _ => NaN
  end.

Definition Qlt_bool (a b : Q) : bool := negb (Qle_bool b a).

Definition feq (x y : float) : bool :=
  match x, y with Fin a, Fin b => Qeq_bool a b | _, _ => false end.
Definition flt (x y : float) : bool :=
  match x, y with Fin a, Fin b => Qlt_bool a b | _, _ => false end.
Definition fle (x y : float) : bool :=
  match x, y with Fin a, Fin b => Qle_bool a b | _, _ => false end.
Definition fgt (x y : float) : bool := flt y x.
Definition fge (x y : float) : bool := fle y x.

(** [int(x)]: truncation toward zero; [ValueError] on [nan]. *)
Definition py_int (x : float) : result Z :=
  match x with
  | Fin q => Ok (Z.quot (Qnum q) (Zpos (Qden q)))
  | NaN => Raise ValueError
  end.

(** [np.sum], [np.average], [np.max], [np.min]. *)
Definition np_sum (xs : list float) : float := foldl fadd (Fin 0) xs.

Definition np_average (xs : list float) : float :=
  fdiv (np_sum xs) (of_nat (length xs)).

Definition np_average_weighted (weights xs : list float) : result float :=
  if negb (length xs =? length weights) then Raise TypeError
  else
    let scl := np_sum weights in
    if feq scl (Fin 0) then Raise ZeroDivisionError
    else Ok (fdiv (np_sum (zip_with fmul xs weights)) scl).

Definition fmaximum (x y : float) : float :=
  match x, y with
  | Fin a, Fin b => if Qlt_bool a b then y else x
  | _, _ => NaN
  end.

Definition fminimum (x y : float) : float :=
  match x, y with
  | Fin a, Fin b => if Qlt_bool b a then y else x
  | _, _ => NaN
  end.

Definition np_max (xs : list float) : result float :=
  match xs with
  | [] => Raise ValueError
  | x :: xs' => Ok (foldl fmaximum x xs')
  end.

Definition np_min (xs : list float) : result float :=
  match xs with
  | [] => Raise ValueError
  | x :: xs' => Ok (foldl fminimum x xs')
  end.

(** [a[start:stop] += xs] on a one-dimensional array; a one-element [xs] is
    broadcast over the slice, any other length mismatch is refused. *)
Definition iadd_slice (a : list float) (start stop : nat) (xs : list float)
    : result (list float) :=
  let target := slice a start stop in
  let rest := drop (start + length target) a in
  if length xs =? length target then
    Ok (take start a ++ zip_with fadd target xs ++ rest)
  else
    match xs with
    | [x] => Ok (take start a ++ map (fun t => fadd t x) target ++ rest)
    | _ => Raise ValueError
    end.

(** *** ["{:.2f}".format(x)] *)

(** Nearest integer to a non-negative rational, ties to even. *)
Definition round_half_even (q : Q) : Z :=
  let n := Qnum q in
  let d := Zpos (Qden q) in
  let fl := (n / d)%Z in
  let r2 := (2 * (n mod d))%Z in
  if (r2 <? d)%Z then fl
  else if (d <? r2)%Z then (fl + 1)%Z
  else if Z.even fl then fl else (fl + 1)%Z.

Definition format_2f (x : float) : string :=
  match x with
  | NaN => "nan"
  | Fin q =>
      let cents := round_half_even (Qabs q * 100) in
      (if Qlt_bool q 0 then "-" else "")
      +:+ pretty (cents / 100)%Z +:+ "."
      +:+ pretty (cents mod 100 / 10)%Z +:+ pretty (cents mod 10)%Z
  end.

(** *** Two-dimensional price arrays *)

(** An array of shape [(length rows, shape1)]: one row per day, one column
    per stock. *)
Record ndarray : Type := {
  shape1 : nat;
  rows : list (list float)
}.

Definition shape0 (a : ndarray) : nat := length (rows a).

(** [a[d, s]] and [a[d][s]]. *)
Definition getitem (a : ndarray) (d s : nat) : result float :=
  r <- index (rows a) d ; index r s.

(** [a[:, s]]. *)
Definition column (a : ndarray) (s : nat) : result (list float) :=
  if s <? shape1 a then map_each (fun r => index r s) (rows a)
  else Raise IndexError.

(** The argument [stock_prices] of the strategies: a single column or a
    matrix.  [np.array([v]).T] turns the column into a one-stock matrix. *)
Inductive prices_arg : Type :=
| Column (v : list float)
| Matrix (a : ndarray).

Definition as_matrix (p : prices_arg) : ndarray :=
  match p with
  | Column v => {| shape1 := 1; rows := map (fun x => [x]) v |}
  | Matrix a => a
  end.

(** ** data.py *)

Module data.

(** What the generators draw on one day: [rng.normal(0, volatility)] in
    [generate_stock_price], and in [news] the event coin [rng.choice],
    the factor [rng.normal(0, 2.0)] and the length [rng.integers(3, 15)]. *)
Record draw : Type := {
  inc : float;
  news_today : bool;
  m : float;
  duration : nat
}.

Definition news (dr : draw) (chance volatility : float) : list float :=
  if news_today dr then
    let drift := fmul (m dr) volatility in
    let final := map (fmul drift) (repeat (Fin 1) (duration dr)) in
    final
  else repeat (Fin 0) 1.

(** The body of [for day in range(1, days)], on the pair of arrays
    [(stock_prices, totalDrift)]. *)
Definition day_body (rng : nat -> draw) (days : nat) (volatility : float)
    (st : list float * list float) (day : nat)
    : result (list float * list float) :=
  let '(stock_prices, totalDrift) := st in
  let inc := inc (rng day) in
  prev <- index stock_prices (day - 1) ;
  let NewPriceToday := fadd prev inc in
  let d := news (rng day) (Fin 1) volatility in
  let duration := length d in
  totalDrift <-
    (if days <? day + duration
     then iadd_slice totalDrift day days (drop (day + duration - days) d)
     else iadd_slice totalDrift day (day + duration) d) ;
  drift_today <- index totalDrift day ;
  let NewPriceToday := fadd NewPriceToday drift_today in
  stock_prices <-
    (if fle NewPriceToday (Fin 0) then setitem stock_prices day NaN
     else setitem stock_prices day NewPriceToday) ;
  Ok (stock_prices, totalDrift).

Definition generate_stock_price (rng : nat -> draw) (days : nat)
    (initial_price volatility : float) : result (list float) :=
  let stock_prices := repeat (Fin 0) days in
  stock_prices <- setitem stock_prices 0 initial_price ;
  let totalDrift := repeat (Fin 0) days in
  st <- for_each (range 1 days) (day_body rng days volatility)
          (stock_prices, totalDrift) ;
  Ok (fst st).

End data.

(** ** process.py *)

Module process.

(** One line of the ledger file, before it is formatted. *)
Record entry : Type := {
  transaction_type : string;
  date : nat;
  stock : nat;
  number_of_shares : Z;
  price : float;
  total_spent : float
}.

(** ["{},{},{},{},{:.2f},{:.2f}".format(...)]. *)
Definition entry_text (e : entry) : string :=
  transaction_type e +:+ "," +:+ pretty (date e) +:+ "," +:+ pretty (stock e)
  +:+ "," +:+ pretty (number_of_shares e) +:+ "," +:+ format_2f (price e)
  +:+ "," +:+ format_2f (total_spent e).

(** The lines of the ledger file. *)
Definition ledger_lines (ledger_file : list entry) : list string :=
  map entry_text ledger_file.

Definition log_transaction (transaction_type : string) (date stock : nat)
    (number_of_shares : Z) (price fees : float) (ledger_file : list entry)
    : result (list entry) :=
  total_spent <-
    (if String.eqb transaction_type "buy" then
       Ok (fneg (fadd (fmul (of_Z number_of_shares) price) fees))
     else if String.eqb transaction_type "sell" then
       Ok (fsub (fmul (of_Z number_of_shares) price) fees)
     else Raise UnboundLocalError) ;
  Ok (ledger_file ++
        [ {| transaction_type := transaction_type; date := date;
             stock := stock; number_of_shares := number_of_shares;
             price := price; total_spent := total_spent |} ]).

Definition buy (date stock : nat) (available_capital : float)
    (stock_prices : ndarray) (fees : float) (portfolio : list Z)
    (ledger_file : list entry) : result (list Z * list entry) :=
  price <- getitem stock_prices date stock ;
  number_of_shares <- py_int (fdiv (fsub available_capital fees) price) ;
  held <- index portfolio stock ;
  portfolio <- setitem portfolio stock (held + number_of_shares)%Z ;
  ledger_file <-
    log_transaction "buy" date stock number_of_shares price fees ledger_file ;
  Ok (portfolio, ledger_file).

Definition sell (date stock : nat) (stock_prices : ndarray) (fees : float)
    (portfolio : list Z) (ledger_file : list entry)
    : result (list Z * list entry) :=
  price <- getitem stock_prices date stock ;
  number_of_shares <- index portfolio stock ;
  portfolio <- setitem portfolio stock 0%Z ;
  ledger_file <-
    log_transaction "sell" date stock number_of_shares price fees ledger_file ;
  Ok (portfolio, ledger_file).

Definition create_portfolio (available_amounts : list float)
    (stock_prices : ndarray) (fees : float) (ledger_file : list entry)
    : result (list Z * list entry) :=
  let N := shape1 stock_prices in
  let portfolio := repeat 0%Z N in
  for_each (range 0 N)
    (fun '(portfolio, ledger_file) i =>
       amount <- index available_amounts i ;
       buy 0 i amount stock_prices fees portfolio ledger_file)
    (portfolio, ledger_file).

End process.

(** ** indicators.py *)

Module indicators.

(** The loop [for i in range(n-1, N)] shared by the two branches of
    [moving_average]; [average] is [np.average] with or without weights.
    The loop stops at the first day whose price is [nan]. *)
Fixpoint moving_average_loop (average : list float -> result float)
    (stock_price : list float) (n : nat) (days : list nat) (ma : list float)
    : result (list float) :=
  match days with
  | [] => Ok ma
  | i :: days' =>
      today <- index stock_price i ;
      if negb (isnan today) then
        a <- average (slice stock_price (i + 1 - n) (i + 1)) ;
        moving_average_loop average stock_price n days' (ma ++ [a])
      else Ok ma
  end.

(** The window [n] is a number of days, at least 1: [range(n-1, N)] is
    read with natural numbers. *)
Definition moving_average (stock_price : list float) (n : nat)
    (weights : list float) : result (list float) :=
  let N := length stock_price in
  let ma := [] in
  match weights with
  | [] =>
      moving_average_loop (fun w => Ok (np_average w)) stock_price n
        (range (n - 1) N) ma
  | _ =>
      moving_average_loop (np_average_weighted weights) stock_price n
        (range (n - 1) N) ma
  end.

(** One value of the stochastic oscillator, for the window ending at [i]. *)
Definition stochastic_value (stock_price : list float) (n i : nat)
    : result float :=
  today <- index stock_price i ;
  highest_price <- np_max (slice stock_price (i + 1 - n) (i + 1)) ;
  lowest_price <- np_min (slice stock_price (i + 1 - n) (i + 1)) ;
  let delta := fsub today lowest_price in
  let delta_max := fsub highest_price lowest_price in
  if feq delta_max (Fin 0) then Ok NaN
  else Ok (fdiv delta delta_max).

(** One value of the RSI, for the window ending at [i]. *)
Definition rsi_value (stock_price : list float) (n i : nat) : result float :=
  differences <-
    map_each
      (fun j =>
         a <- index stock_price (i + 2 - n + j) ;
         b <- index stock_price (i + 1 - n + j) ;
         Ok (fsub a b))
      (range 0 (n - 1)) ;
  let positive_diff := filter (fun x => Is_true (fgt x (Fin 0))) differences in
  let negative_diff := filter (fun x => Is_true (flt x (Fin 0))) differences in
  if negb (length positive_diff =? 0) && negb (length negative_diff =? 0) then
    let postive_average := np_average positive_diff in
    let negative_average := np_average negative_diff in
    let RS := fdiv postive_average (fabs negative_average) in
    Ok (fsub (Fin 1) (fdiv (Fin 1) (fadd (Fin 1) RS)))
  else if (length positive_diff =? 0) && negb (length negative_diff =? 0) then
    Ok (Fin 0)
  else if negb (length positive_diff =? 0) && (length negative_diff =? 0) then
    Ok (Fin 1)
  else Ok NaN.

Fixpoint oscillator_loop (value : nat -> result float)
    (stock_price : list float) (days : list nat) (osc : list float)
    : result (list float) :=
  match days with
  | [] => Ok osc
  | i :: days' =>
      today <- index stock_price i ;
      if negb (isnan today) then
        v <- value i ;
        oscillator_loop value stock_price days' (osc ++ [v])
      else Ok osc
  end.

Definition oscillator (stock_price : list float) (n : nat)
    (osc_type : string) : result (list float) :=
  let N := length stock_price in
  let osc := [] in
  if String.eqb osc_type "stochastic" then
    oscillator_loop (stochastic_value stock_price n) stock_price
      (range (n - 1) N) osc
  else if String.eqb osc_type "RSI" then
    oscillator_loop (rsi_value stock_price n) stock_price
      (range (n - 1) N) osc
  else Ok osc.

End indicators.

(** ** strategy.py *)

Module strategy.
Import process indicators.

Abbreviation state := (list Z * list entry)%type.

(** The closing loop of the three strategies: on the last day, sell what
    is held of every stock whose price is not [nan]. *)
Definition sell_last_day (stock_prices : ndarray) (fees : float)
    (days N : nat) (st : state) : result state :=
  for_each (range 0 N)
    (fun '(portfolio, ledger) stock_number =>
       last <- getitem stock_prices (days - 1) stock_number ;
       if negb (isnan last) then
         held <- index portfolio stock_number ;
         if negb (held =? 0)%Z then
           sell (days - 1) stock_number stock_prices fees portfolio ledger
         else Ok (portfolio, ledger)
       else Ok (portfolio, ledger))
    st.

(** The decision of [random] for one stock on one trading day;
    [decision] is the outcome of [rng.choice([-1,0,1])]. *)
Definition random_body (stock_prices : ndarray) (amount fees : float)
    (decision : Z) (trade_day : nat) (st : state) (stock_number : nat)
    : result state :=
  let '(portfolio, ledger) := st in
  if (decision =? 1)%Z then
    today <- getitem stock_prices trade_day stock_number ;
    if negb (isnan today) then
      buy trade_day stock_number amount stock_prices fees portfolio ledger
    else Ok (portfolio, ledger)
  else if (decision =? 0)%Z then Ok (portfolio, ledger)
  else
    today <- getitem stock_prices trade_day stock_number ;
    if negb (isnan today) then
      held <- index portfolio stock_number ;
      if negb (held =? 0)%Z then
        sell trade_day stock_number stock_prices fees portfolio ledger
      else Ok (portfolio, ledger)
    else Ok (portfolio, ledger).

Definition random (rng : nat -> nat -> Z) (stock_prices : prices_arg)
    (period : nat) (amount fees : float) (ledger : list entry)
    : result state :=
  let stock_prices := as_matrix stock_prices in
  let N := shape1 stock_prices in
  let available_amounts := repeat amount N in
  st <- create_portfolio available_amounts stock_prices fees ledger ;
  let days := shape0 stock_prices in
  trade_days <- range_step period days period ;
  st <- for_each trade_days
          (fun st trade_day =>
             for_each (range 0 N)
               (fun st stock_number =>
                  random_body stock_prices amount fees
                    (rng trade_day stock_number) trade_day st stock_number)
               st)
          st ;
  sell_last_day stock_prices fees days N st.

(** The decision of [crossing_averages] for one stock on one trading day.
    The two [and] conditions are evaluated left to right, the second
    operand only when the first holds. *)
Definition crossing_body (stock_prices : ndarray) (m n : nat)
    (amount fees : float) (SMA FMA : list (list float)) (trade_day : nat)
    (st : state) (stock_number : nat) : result state :=
  let '(portfolio, ledger) := st in
  let day := Z.of_nat trade_day in
  sma <- index SMA stock_number ;
  if (Z.of_nat (length sma) - 1 <? day - Z.of_nat n)%Z then
    Ok (portfolio, ledger)
  else
    fma <- index FMA stock_number ;
    fast <- index_Z fma (day - Z.of_nat m)%Z ;
    slow <- index_Z sma (day - Z.of_nat n)%Z ;
    from_below <-
      (if fge fast slow then
         fast_before <- index_Z fma (day - Z.of_nat m - 1)%Z ;
         slow_before <- index_Z sma (day - 1 - Z.of_nat n)%Z ;
         Ok (flt fast_before slow_before)
       else Ok false) ;
    if from_below then
      buy trade_day stock_number amount stock_prices fees portfolio ledger
    else
      from_above <-
        (if fle fast slow then
           fast_before <- index_Z fma (day - Z.of_nat m - 1)%Z ;
           slow_before <- index_Z sma (day - 1 - Z.of_nat n)%Z ;
           Ok (fgt fast_before slow_before)
         else Ok false) ;
      if from_above then
        held <- index portfolio stock_number ;
        if negb (held =? 0)%Z then
          sell trade_day stock_number stock_prices fees portfolio ledger
        else Ok (portfolio, ledger)
      else Ok (portfolio, ledger).

(** The slow and the fast moving average of every stock. *)
Definition crossing_indicators (stock_prices : ndarray) (m n N : nat)
    : result (list (list float) * list (list float)) :=
  for_each (range 0 N)
    (fun '(SMA, FMA) stock_number =>
       prices <- column stock_prices stock_number ;
       sma <- moving_average prices n [] ;
       fma <- moving_average prices m [] ;
       Ok (SMA ++ [sma], FMA ++ [fma]))
    ([], []).

Definition crossing_averages (stock_prices : prices_arg) (m n : nat)
    (amount fees : float) (ledger : list entry) : result state :=
  let stock_prices := as_matrix stock_prices in
  let N := shape1 stock_prices in
  let available_amounts := repeat amount N in
  st <- create_portfolio available_amounts stock_prices fees ledger ;
  let days := shape0 stock_prices in
  '(SMA, FMA) <- crossing_indicators stock_prices m n N ;
  st <- for_each (range (n + 1) days)
          (fun st trade_day =>
             for_each (range 0 N)
               (crossing_body stock_prices m n amount fees SMA FMA trade_day)
               st)
          st ;
  sell_last_day stock_prices fees days N st.

Abbreviation mstate := (list Z * list Z * list entry)%type.

(** The first inner loop of [momentum]: a counter below the period moves
    one day closer to it. *)
Definition cool_off_tick (cool_off_period : Z) (N : nat) (cool_off : list Z)
    : result (list Z) :=
  for_each (range 0 N)
    (fun cool_off stock_number =>
       c <- index cool_off stock_number ;
       if (c <? cool_off_period)%Z then
         setitem cool_off stock_number (c + 1)%Z
       else Ok cool_off)
    cool_off.

(** The decision of [momentum] for one stock on one trading day, on the
    triple (portfolio, cool_off, ledger). *)
Definition momentum_body (stock_prices : ndarray) (T_over T_under : float)
    (amount fees : float) (cool_off_period : Z) (osc : list (list float))
    (k trade_day : nat) (st : mstate) (stock_number : nat) : result mstate :=
  let '(portfolio, cool_off, ledger) := st in
  smoothed <- index osc stock_number ;
  if (Z.of_nat (length smoothed) - 1 <? Z.of_nat trade_day - Z.of_nat k)%Z
  then Ok (portfolio, cool_off, ledger)
  else
    level <- index_Z smoothed (Z.of_nat trade_day - Z.of_nat k)%Z ;
    overvalued <-
      (if fgt level T_over then
         held <- index portfolio stock_number ;
         Ok (negb (held =? 0)%Z)
       else Ok false) ;
    if overvalued then
      '(portfolio, ledger) <-
        sell trade_day stock_number stock_prices fees portfolio ledger ;
      Ok (portfolio, cool_off, ledger)
    else
      undervalued <-
        (if flt level T_under then
           c <- index cool_off stock_number ;
           Ok (c =? cool_off_period)%Z
         else Ok false) ;
      if undervalued then
        '(portfolio, ledger) <-
          buy trade_day stock_number amount stock_prices fees portfolio ledger ;
        cool_off <- setitem cool_off stock_number 0%Z ;
        Ok (portfolio, cool_off, ledger)
      else Ok (portfolio, cool_off, ledger).

(** The smoothed oscillator of every stock. *)
Definition momentum_indicators (stock_prices : ndarray) (osc_type : string)
    (n period_ave N : nat) : result (list (list float)) :=
  for_each (range 0 N)
    (fun osc stock_number =>
       prices <- column stock_prices stock_number ;
       stock_osc <- oscillator prices n osc_type ;
       smoothed <- moving_average stock_osc period_ave [] ;
       Ok (osc ++ [smoothed]))
    [].

Definition momentum (stock_prices : prices_arg) (osc_type : string)
    (n : nat) (T_over T_under amount fees : float) (cool_off_period : Z)
    (ledger : list entry) : result state :=
  let stock_prices := as_matrix stock_prices in
  let N := shape1 stock_prices in
  let available_amounts := repeat amount N in
  '(portfolio, ledger) <-
    create_portfolio available_amounts stock_prices fees ledger ;
  let days := shape0 stock_prices in
  let period_ave := 3 in
  osc <- momentum_indicators stock_prices osc_type n period_ave N ;
  let cool_off := repeat cool_off_period N in
  let k := n + period_ave - 2 in
  '(portfolio, cool_off, ledger) <-
    for_each (range k days)
      (fun '(portfolio, cool_off, ledger) trade_day =>
         cool_off <- cool_off_tick cool_off_period N cool_off ;
         for_each (range 0 N)
           (momentum_body stock_prices T_over T_under amount fees
              cool_off_period osc k trade_day)
           (portfolio, cool_off, ledger))
      (portfolio, cool_off, ledger) ;
  sell_last_day stock_prices fees days N (portfolio, ledger).

End strategy.

(** ** Vocabulary of the statements *)

Import process indicators strategy.

(** Failure permanence of a price path: after a [NaN], only [NaN]. *)
Definition failure_permanent (stock_price : list float) : Prop :=
  forall d d', d < d' < length stock_price ->
    stock_price !! d = Some NaN -> stock_price !! d' = Some NaN.

(** The number of days before the first failure marker (all of them when
    there is none): the index of the first [NaN]. *)
Fixpoint days_before_failure (stock_price : list float) : nat :=
  match stock_price with
  | Fin _ :: rest => 1 + days_before_failure rest
  | _ => 0
  end.

(** The state of [generate_stock_price] once the days before [j] are done:
    both arrays have [days] cells and, up to day [j], a [NaN] is followed by
    a [NaN]. *)
Definition generated_upto (days j : nat) (st : list float * list float)
    : Prop :=
  length (fst st) = days /\ length (snd st) = days /\
  forall i, 1 <= i < j ->
    fst st !! (i - 1) = Some NaN -> fst st !! i = Some NaN.

(** The entries that [buy] and [sell] write. *)
Definition buy_entry (date stock : nat) (shares : Z) (price fees : float)
    : entry :=
  {| transaction_type := "buy"; date := date; stock := stock;
     number_of_shares := shares; price := price;
     total_spent := fneg (fadd (fmul (of_Z shares) price) fees) |}.

Definition sell_entry (date stock : nat) (shares : Z) (price fees : float)
    : entry :=
  {| transaction_type := "sell"; date := date; stock := stock;
     number_of_shares := shares; price := price;
     total_spent := fsub (fmul (of_Z shares) price) fees |}.

(** The average that [moving_average] appends for the window ending at [i]. *)
Definition window_average (stock_price : list float) (n i : nat) : float :=
  np_average (slice stock_price (i + 1 - n) (i + 1)).

(** The terminal flush: no share is held of a stock whose price on the last
    day is not [NaN]. *)
Definition flushed (stock_prices : ndarray) (portfolio : list Z) : Prop :=
  forall stock_number last,
    stock_number < shape1 stock_prices ->
    getitem stock_prices (shape0 stock_prices - 1) stock_number = Ok last ->
    isnan last = false ->
    portfolio !! stock_number = Some 0%Z.

Definition is_buy (e : entry) : Prop := transaction_type e = "buy".

(** Two purchases of one stock are at least [period] days apart. *)
Definition spaced (period : Z) (entries : list entry) : Prop :=
  forall i j e1 e2,
    i < j -> entries !! i = Some e1 -> entries !! j = Some e2 ->
    is_buy e1 -> is_buy e2 -> stock e1 = stock e2 ->
    (period <= Z.of_nat (date e2) - Z.of_nat (date e1))%Z.

(** The counters account for the purchases made: no purchase is later than
    [now], and the counter of its stock has not run past the days since. *)
Definition cooling (now : Z) (cool_off : list Z) (entries : list entry)
    : Prop :=
  forall e, e ∈ entries -> is_buy e ->
    (Z.of_nat (date e) <= now)%Z /\
    forall c, cool_off !! stock e = Some c -> (Z.of_nat (date e) + c <= now)%Z.

(** The invariant of the decision loop of [momentum]; [before] is the ledger
    as [create_portfolio] left it. *)
Definition momentum_inv (period : Z) (before : list entry) (now : Z)
    (st : list Z * list Z * list entry) : Prop :=
  exists made,
    snd st = before ++ made /\ spaced period made /\
    cooling now (snd (fst st)) made.

(** ** Sample inputs *)

(** Draws that make the price fall by 2 and start an event of three days on
    every day. *)
Definition sample_generator (day : nat) : data.draw :=
  {| data.inc := of_Z (-2); data.news_today := true; data.m := of_Z 1;
     data.duration := 3 |}.

(** Five days of one stock that fails on day 3, and its moving averages of
    windows 1 and 2. *)
Definition failing_prices : list float :=
  [of_Z 3; of_Z 2; of_Z 1; NaN; NaN].

Definition failing_fast : list float := [of_Z 3; of_Z 2; of_Z 1].

Definition failing_slow : list float := [Fin (5 # 2); Fin (3 # 2)].

(** One stock quoted on one day. *)
Definition one_stock (price : Z) : ndarray :=
  {| shape1 := 1; rows := [[of_Z price]] |}.

(** Seventeen days of one stock whose price stays at 5 for a week. *)
Definition flat_week_prices : list float :=
  map of_Z [10; 11; 12; 5; 5; 5; 5; 5; 5; 5; 6; 7; 8; 9; 10; 11; 12]%Z.

(** Nineteen days of one stock whose price stays at 5 for the first week. *)
Definition flat_start_prices : list float :=
  map of_Z [5; 5; 5; 5; 5; 5; 5; 4; 3; 2; 1; 2; 3; 4; 5; 6; 7; 8; 9]%Z.

(** Twenty days of one stock whose price falls from 20 to 1. *)
Definition falling_prices : list float :=
  map of_Z (map Z.of_nat (rev (seq 1 20))).

(** Four days of one stock, as the matrix made of a single column. *)
Definition crossing_sample : ndarray :=
  as_matrix (Column (map of_Z [1; 1; 1; 5]%Z)).

(** Three days of two stocks, the second of which fails on the last day. *)
Definition two_stocks : prices_arg :=
  Matrix {| shape1 := 2;
            rows := [ [of_Z 10; of_Z 4]; [of_Z 11; of_Z 2]; [of_Z 12; NaN] ] |}.

(** ** Vocabulary of the further properties *)

(** A price that can be traded: the cell exists and holds a number. *)
Definition priced (stock_prices : ndarray) (date stock : nat) : Prop :=
  exists p, getitem stock_prices date stock = Ok p /\ isnan p = false.

(** One call of [buy], or one call of [sell] for a holding other than 0,
    that returns.  [funded] holds of the capital offered to a purchase,
    [tradable] of the day and of the stock of the call. *)
Inductive trade_step (stock_prices : ndarray) (fees : float)
    (funded : float -> Prop) (tradable : nat -> nat -> Prop)
    : list Z * list entry -> list Z * list entry -> Prop :=
| trade_buy (date stock : nat) (capital : float) (portfolio : list Z)
    (ledger : list entry) (st' : list Z * list entry) :
    funded capital ->
    tradable date stock ->
    buy date stock capital stock_prices fees portfolio ledger = Ok st' ->
    trade_step stock_prices fees funded tradable (portfolio, ledger) st'
| trade_sell (date stock : nat) (portfolio : list Z) (ledger : list entry)
    (st' : list Z * list entry) :
    tradable date stock ->
    portfolio !! stock <> Some 0%Z ->
    sell date stock stock_prices fees portfolio ledger = Ok st' ->
    trade_step stock_prices fees funded tradable (portfolio, ledger) st'.

(** A sequence of such calls. *)
Definition trades (stock_prices : ndarray) (fees : float)
    (funded : float -> Prop) (tradable : nat -> nat -> Prop)
    : list Z * list entry -> list Z * list entry -> Prop :=
  rtc (trade_step stock_prices fees funded tradable).

(** The effect of one ledger entry on a portfolio: a purchase adds its
    shares to the holding of its stock, a sale empties it. *)
Definition replay_entry (portfolio : list Z) (e : entry) : list Z :=
  if String.eqb (transaction_type e) "buy" then
    <[stock e := (default 0%Z (portfolio !! stock e) + number_of_shares e)%Z]>
      portfolio
  else <[stock e := 0%Z]> portfolio.

Definition replay (portfolio : list Z) (entries : list entry) : list Z :=
  foldl replay_entry portfolio entries.

(** What holds of every entry that a sequence of trades writes: its price is
    the price of its stock on its day, which is a tradable day, and it is
    either a purchase at a price that is a number, of the shares that
    [int()] gives for a funded capital, or a sale of a number of shares
    other than 0. *)
Definition entry_traded (stock_prices : ndarray) (fees : float)
    (funded : float -> Prop) (tradable : nat -> nat -> Prop) (e : entry)
    : Prop :=
  getitem stock_prices (date e) (stock e) = Ok (price e) /\
  tradable (date e) (stock e) /\
  ((transaction_type e = "buy" /\
    isnan (price e) = false /\
    total_spent e
      = fneg (fadd (fmul (of_Z (number_of_shares e)) (price e)) fees) /\
    exists capital,
      funded capital /\
      py_int (fdiv (fsub capital fees) (price e)) = Ok (number_of_shares e))
   \/
   (transaction_type e = "sell" /\
    total_spent e
      = fsub (fmul (of_Z (number_of_shares e)) (price e)) fees /\
    number_of_shares e <> 0%Z)).

(** Every number in the array is positive: a price is positive or [NaN]. *)
Definition positive_prices (stock_prices : ndarray) : Prop :=
  forall d s p, getitem stock_prices d s = Ok (Fin p) -> (0 < p)%Q.

(** The ledger [ledger'] is [ledger] with further entries whose replay on the
    empty portfolio of [N] stocks gives [portfolio]. *)
Definition accounted (N : nat) (ledger ledger' : list entry)
    (portfolio : list Z) : Prop :=
  exists written,
    ledger' = ledger ++ written /\
    length portfolio = N /\
    replay (repeat 0%Z N) written = portfolio.

(** Every entry appended to [ledger] satisfies [P]. *)
Definition all_written (P : entry -> Prop) (ledger ledger' : list entry)
    : Prop :=
  exists written, ledger' = ledger ++ written /\ Forall P written.

(** An entry quotes the price of its stock on its day, is a purchase or a
    sale, and its cash flow is [-(shares * price + fees)] for a purchase and
    [shares * price - fees] for a sale. *)
Definition entry_quoted (stock_prices : ndarray) (fees : float) (e : entry)
    : Prop :=
  getitem stock_prices (date e) (stock e) = Ok (price e) /\
  ((transaction_type e = "buy" /\
    total_spent e
      = fneg (fadd (fmul (of_Z (number_of_shares e)) (price e)) fees))
   \/
   (transaction_type e = "sell" /\
    total_spent e = fsub (fmul (of_Z (number_of_shares e)) (price e)) fees)).

(** The level that [oscillator] appends for the window ending at day [i]. *)
Definition oscillator_value (osc_type : string) (stock_price : list float)
    (n i : nat) : result float :=
  if String.eqb osc_type "stochastic" then stochastic_value stock_price n i
  else rsi_value stock_price n i.

(** The days, from day [n - 1] on, before the first one whose price is
    [NaN]: the days for which [moving_average] and [oscillator] give a
    value. *)
Definition indicator_days (stock_price : list float) (n : nat) : list nat :=
  seq (n - 1) (days_before_failure (drop (n - 1) stock_price)).

(** A level of an oscillator: undefined, or a number between 0 and 1. *)
Definition level_in_range (level : float) : Prop :=
  level = NaN \/ exists q, level = Fin q /\ (0 <= q <= 1)%Q.

(** ** Further sample inputs *)

(** Fourteen days of one stock that falls from 20 and fails on day 11. *)
Definition falling_then_failed : list float :=
  map of_Z [20; 19; 18; 17; 16; 15; 14; 13; 12; 11; 10]%Z ++ [NaN; NaN; NaN].

(** Four days of one stock that falls, recovers and fails on day 3. *)
Definition recovering_then_failed : list float :=
  [of_Z 5; of_Z 3; of_Z 4; NaN].

(** Its moving averages of windows 1 and 2. *)
Definition recovering_fast : list float :=
  [Fin ((0 + 5) / 1); Fin ((0 + 3) / 1); Fin ((0 + 4) / 1)].

Definition recovering_slow : list float :=
  [Fin ((0 + 5 + 3) / 2); Fin ((0 + 3 + 4) / 2)].

(** ** Windows of prices *)

(** Somewhere in the [n] days from day [j] on, the price rises (falls) from
    one day to the next; a [NaN] price neither rises nor falls. *)
Definition rises (stock_price : list float) (n j : nat) : Prop :=
  exists k p q,
    k < n - 1 /\ stock_price !! (j + k) = Some (Fin p) /\
    stock_price !! (j + k + 1) = Some (Fin q) /\ (p < q)%Q.

Definition falls (stock_price : list float) (n j : nat) : Prop :=
  exists k p q,
    k < n - 1 /\ stock_price !! (j + k) = Some (Fin p) /\
    stock_price !! (j + k + 1) = Some (Fin q) /\ (q < p)%Q.

(** All the prices of a window are the same number. *)
Definition flat (window : list float) : Prop :=
  forall p q, Fin p ∈ window -> Fin q ∈ window -> (p == q)%Q.

(** Eight days of one stock: three rising, three flat, then a fall. *)
Definition rise_flat_fall : list float :=
  map of_Z [1; 2; 3; 4; 4; 4; 4; 3]%Z.

(** ** Generated data *)

(** A price that [generate_stock_price] writes: the failure marker [NaN] or
    a positive number. *)
Definition price_or_failure (x : float) : Prop :=
  x = NaN \/ exists q, x = Fin q /\ (0 < q)%Q.

(** [np.zeros([d, n])]. *)
Definition zeros (d n : nat) : ndarray :=
  {| shape1 := n; rows := repeat (repeat (Fin 0) n) d |}.

(** [a[:, s] = v] for a one-dimensional [v] with one value per row. *)
Definition setcolumn (a : ndarray) (s : nat) (v : list float)
    : result ndarray :=
  if s <? shape1 a then
    if length v =? shape0 a then
      Ok {| shape1 := shape1 a;
            rows := zip_with (fun r x => <[s:=x]> r) (rows a) v |}
    else Raise ValueError
  else Raise IndexError.

(** [get_data] with the method ['generate']: the four branches of
    data.py that test [initial_price] and [volatility] against [None].  A
    missing argument gives [None] (the message that is printed is not
    modelled).  [rng i] stands for the draws of the generator of company
    [i]. *)
Definition get_data_generate (rng : nat -> nat -> data.draw)
    (initial_price volatility : option (list float))
    : result (option ndarray) :=
  match initial_price, volatility with
  | Some initial_price, Some volatility =>
      let days := 1825 in
      let company_number := length initial_price in
      let sim_data := zeros days company_number in
      sim_data <-
        for_each (range 0 company_number)
          (fun sim_data i =>
             p <- index initial_price i ;
             v <- index volatility i ;
             prices <- data.generate_stock_price (rng i) days p v ;
             setcolumn sim_data i prices)
          sim_data ;
      Ok (Some sim_data)
  | _, _ => Ok None
  end.

(** ** Trading days *)

(** The days on which [random] trades: day 0, the multiples of the period
    and the last day. *)
Definition random_day (period days d : nat) : Prop :=
  d = 0 \/ (exists i, 1 <= i /\ d = i * period) \/ d = days - 1.

(** The days on which [crossing_averages] and [momentum] trade: day 0, the
    days after day [n] and the last day. *)
Definition indicator_day (n days d : nat) : Prop :=
  d = 0 \/ n + 1 <= d \/ d = days - 1.

(** An array whose rows have one cell per column. *)
Definition well_formed (a : ndarray) : Prop :=
  Forall (fun r => length r = shape1 a) (rows a).

(** ** The domain of the floating-point operations *)

(** A volatility that the generator is written for, a number larger than
    0: [rng.normal(0, volatility)] rejects a negative scale with
    [ValueError] before it draws. *)
Definition valid_volatility (volatility : float) : Prop :=
  exists v, volatility = Fin v /\ (0 < v)%Q.


(** * Properties *)

(** ** Reasoning about the runtime *)

Lemma bind_ok {A B : Type} (c : result A) (k : A -> result B) (b : B) :
  bind c k = Ok b -> exists a, c = Ok a /\ k a = Ok b.
Proof. destruct c as [a|e]; simpl; [eauto | discriminate]. Qed.

Ltac bind_inv H :=
  let a := fresh "a" in
  let Ha := fresh "Ha" in
  apply bind_ok in H; destruct H as (a & Ha & H).

(** A loop over [seq a len] carries an invariant indexed by the iteration. *)
Lemma for_each_seq_ind {St : Type} (I : nat -> St -> Prop)
    (body : St -> nat -> result St) (len a : nat) (st st' : St) :
  I a st ->
  (forall i s s',
     a <= i < a + len -> I i s -> body s i = Ok s' -> I (1 + i) s') ->
  for_each (seq a len) body st = Ok st' ->
  I (a + len) st'.
Proof.
  revert a st.
  induction len as [|len IH]; intros a st Ha Hstep Hrun; simpl in Hrun.
  - injection Hrun as <-. now rewrite Nat.add_0_r.
  - bind_inv Hrun. replace (a + S len) with (S a + len) by lia.
    apply (IH (S a) a0); [| |exact Hrun].
    + apply (Hstep a st a0); [lia|exact Ha|exact Ha0].
    + intros i s s' Hi. apply Hstep. lia.
Qed.

(** The same loop returns when every iteration does. *)
Lemma for_each_seq_total {St : Type} (I : nat -> St -> Prop)
    (body : St -> nat -> result St) (len a : nat) (st : St) :
  I a st ->
  (forall i s, a <= i < a + len -> I i s ->
     exists s', body s i = Ok s' /\ I (1 + i) s') ->
  exists st', for_each (seq a len) body st = Ok st' /\ I (a + len) st'.
Proof.
  revert a st. induction len as [|len IH]; intros a st Ha Hstep; simpl.
  - exists st. now rewrite Nat.add_0_r.
  - destruct (Hstep a st) as (s1 & Hb & H1); [lia|exact Ha|].
    rewrite Hb. simpl. replace (a + S len) with (S a + len) by lia.
    apply IH; [exact H1|]. intros i s Hi. apply Hstep. lia.
Qed.

(** An invariant that does not depend on the iteration. *)
Lemma for_each_ind {A St : Type} (I : St -> Prop) (body : St -> A -> result St)
    (xs : list A) (st st' : St) :
  I st ->
  (forall x s s', x ∈ xs -> I s -> body s x = Ok s' -> I s') ->
  for_each xs body st = Ok st' ->
  I st'.
Proof.
  revert st.
  induction xs as [|x xs IH]; intros st Hst Hstep Hrun; simpl in Hrun.
  - now injection Hrun as <-.
  - bind_inv Hrun. apply (IH a); [| |exact Hrun].
    + apply (Hstep x st a); [left|exact Hst|exact Ha].
    + intros y s s' Hy. apply Hstep. now right.
Qed.

Lemma index_ok {A : Type} (l : list A) (i : nat) (x : A) :
  index l i = Ok x <-> l !! i = Some x.
Proof.
  unfold index. destruct (l !! i); split; intros H; congruence.
Qed.

Lemma index_lt {A : Type} (l : list A) (i : nat) :
  i < length l -> exists x, index l i = Ok x.
Proof.
  intros H. destruct (lookup_lt_is_Some_2 l i H) as [x Hx].
  exists x. now apply index_ok.
Qed.

Lemma setitem_ok {A : Type} (l l' : list A) (i : nat) (x : A) :
  setitem l i x = Ok l' <-> i < length l /\ l' = <[i:=x]> l.
Proof.
  unfold setitem. destruct (Nat.ltb_spec i (length l)); split.
  - intros [= <-]. auto.
  - intros [_ ->]. reflexivity.
  - discriminate.
  - intros [? _]. lia.
Qed.

Lemma iadd_slice_length (a a' : list float) (start stop : nat)
    (xs : list float) :
  iadd_slice a start stop xs = Ok a' -> length a' = length a.
Proof.
  unfold iadd_slice, slice.
  set (target := take (stop - start) (drop start a)).
  assert (Ht : length target <= length a - start).
  { subst target. rewrite length_take, length_drop. lia. }
  destruct (Nat.eqb_spec (length xs) (length target)) as [Hl|Hl].
  - intros [= <-].
    rewrite !length_app, length_zip_with, length_take, length_drop. lia.
  - destruct xs as [|x [|? ?]]; try discriminate.
    intros [= <-].
    rewrite !length_app, length_map, length_take, length_drop. lia.
Qed.

Lemma iadd_slice_total (a : list float) (start stop : nat) (xs : list float) :
  length xs = length (slice a start stop) ->
  exists a', iadd_slice a start stop xs = Ok a'.
Proof.
  intros H. unfold iadd_slice. rewrite H, Nat.eqb_refl. eauto.
Qed.

Example range_step_sample : range_step 3 10 3 = Ok [3; 6; 9].
Proof. reflexivity. Qed.

(** ** Failure permanence of generated price paths *)

Section generate.
Import data.
Variables (rng : nat -> draw) (days : nat) (volatility : float).

(** One day of the generator writes only that day's price, and writes
    [NaN] when the price of the day before is [NaN]. *)
Lemma day_body_spec (sp td sp' td' : list float) (day : nat) :
  day_body rng days volatility (sp, td) day = Ok (sp', td') ->
  length sp' = length sp /\ length td' = length td /\
  (forall j, j <> day -> sp' !! j = sp !! j) /\
  (sp !! (day - 1) = Some NaN -> sp' !! day = Some NaN).
Proof.
  unfold day_body. intros H.
  bind_inv H. rename a into prev. apply index_ok in Ha.
  bind_inv H. rename a into td1.
  assert (Htd : length td1 = length td).
  { destruct (_ <? _); eapply iadd_slice_length; eassumption. }
  bind_inv H. rename a into drift_today.
  bind_inv H. rename a into sp1. injection H as <- <-.
  assert (Hset : exists v, setitem sp day v = Ok sp1 /\
                   (prev = NaN -> v = NaN)).
  { destruct (fle _ _) eqn:Hle.
    - exists NaN. auto.
    - eexists. split; [eassumption|]. intros ->. reflexivity. }
  destruct Hset as (v & Hset & Hv). apply setitem_ok in Hset as [Hlt ->].
  repeat split.
  - apply length_insert.
  - exact Htd.
  - intros j Hj. now apply list_lookup_insert_ne.
  - intros Hprev. rewrite Ha in Hprev. injection Hprev as ->.
    rewrite Hv by reflexivity. now apply list_lookup_insert_eq.
Qed.

Lemma news_slice_length (td : list float) (day : nat) (d : list float) :
  length td = days -> day < days ->
  if days <? day + length d
  then length (drop (day + length d - days) d) = length (slice td day days)
  else length d = length (slice td day (day + length d)).
Proof.
  intros Htd Hday. unfold slice.
  destruct (Nat.ltb_spec days (day + length d));
    rewrite ?length_take, ?length_drop; lia.
Qed.

(** One day of the generator raises nothing on arrays of [days] cells. *)
Lemma day_body_total (sp td : list float) (day : nat) :
  length sp = days -> length td = days -> 1 <= day < days ->
  exists st', day_body rng days volatility (sp, td) day = Ok st'.
Proof.
  intros Hsp Htd Hday. unfold day_body.
  destruct (index_lt sp (day - 1)) as [prev ->]; [lia|]. simpl.
  set (d := news (rng day) (Fin 1) volatility).
  assert (Hadd : exists td1,
    (if days <? day + length d
     then iadd_slice td day days (drop (day + length d - days) d)
     else iadd_slice td day (day + length d) d) = Ok td1).
  { pose proof (news_slice_length td day d Htd ltac:(lia)) as Hlen.
    destruct (days <? day + length d); now apply iadd_slice_total. }
  destruct Hadd as [td1 Hadd]. rewrite Hadd. simpl.
  assert (Htd1 : length td1 = days).
  { rewrite <- Htd. destruct (_ <? _); eapply iadd_slice_length; eassumption. }
  destruct (index_lt td1 day) as [drift ->]; [lia|]. simpl.
  assert (Hset : forall v, exists sp1, setitem sp day v = Ok sp1).
  { intros v. eexists. apply setitem_ok. split; [lia|reflexivity]. }
  destruct (fle _ _).
  - destruct (Hset NaN) as [sp1 ->]. simpl. eauto.
  - edestruct Hset as [sp1 ->]. simpl. eauto.
Qed.

Lemma day_body_preserves (j : nat) (st st' : list float * list float) :
  1 <= j < days -> generated_upto days j st ->
  day_body rng days volatility st j = Ok st' ->
  generated_upto days (1 + j) st'.
Proof.
  intros Hj (Hsp & Htd & Hperm) Hrun.
  destruct st as [sp td], st' as [sp' td']. simpl in *.
  apply day_body_spec in Hrun as (Hsp' & Htd' & Hother & Hday).
  split; [|split]; simpl; [lia|lia|].
  intros i Hi Hprev. rewrite Hother in Hprev by lia.
  destruct (decide (i = j)) as [->|Hne].
  - now apply Hday.
  - rewrite Hother by lia. apply Hperm; [lia|exact Hprev].
Qed.

End generate.

(** C1.  Every price path that [generate_stock_price] produces for at least
    one day has one value per day, and once the value of a day is the
    failure marker [NaN], so is the value of every later day. *)
Theorem generate_stock_price_failure_permanent
    (rng : nat -> data.draw) (days : nat) (initial_price volatility : float) :
  1 <= days ->
  exists stock_prices,
    data.generate_stock_price rng days initial_price volatility
      = Ok stock_prices /\
    length stock_prices = days /\
    forall d d', d < d' < days ->
      stock_prices !! d = Some NaN -> stock_prices !! d' = Some NaN.
Proof.
  intros Hdays. unfold data.generate_stock_price.
  assert (Hset : setitem (repeat (Fin 0) days) 0 initial_price
                 = Ok (<[0:=initial_price]> (repeat (Fin 0) days))).
  { apply setitem_ok. rewrite repeat_length. split; [lia|reflexivity]. }
  rewrite Hset. simpl bind.
  destruct (for_each_seq_total (generated_upto days)
              (data.day_body rng days volatility) (days - 1) 1
              (<[0:=initial_price]> (repeat (Fin 0) days), repeat (Fin 0) days))
    as (st' & Hrun & Hinv).
  - repeat split; simpl; rewrite ?length_insert, ?repeat_length; try lia.
  - intros i [sp td] Hi (Hsp & Htd & Hperm).
    destruct (day_body_total rng days volatility sp td i) as [s' Hs'];
      [exact Hsp|exact Htd|lia|].
    exists s'. split; [exact Hs'|].
    eapply day_body_preserves; [|split; [|split]; eassumption|exact Hs']. lia.
  - unfold range. rewrite Hrun. simpl. exists (fst st').
    destruct Hinv as (Hsp & _ & Hperm).
    split; [reflexivity|]. split; [exact Hsp|].
    intros d d' [Hlt Hd'] Hd. induction d' as [|d' IH]; [lia|].
    destruct (decide (d = d')) as [->|Hne].
    + apply (Hperm (S d')); [lia|]. now replace (S d' - 1) with d' by lia.
    + apply (Hperm (S d')); [lia|]. replace (S d' - 1) with d' by lia.
      apply IH; lia.
Qed.

Lemma generate_stock_price_failure_permanent_witness :
  exists stock_prices,
    data.generate_stock_price sample_generator 4 (of_Z 1) (of_Z 1)
      = Ok stock_prices /\
    length stock_prices = 4 /\
    forall d d', d < d' < 4 ->
      stock_prices !! d = Some NaN -> stock_prices !! d' = Some NaN.
Proof. apply generate_stock_price_failure_permanent. lia. Defined.

Example sample_path :
  data.generate_stock_price sample_generator 4 (of_Z 1) (of_Z 1)
  = Ok [Fin 1; NaN; NaN; NaN].
Proof. reflexivity. Qed.

(** ** Buying and selling *)

Lemma Qeq_bool_false_pos (p : Q) : (0 < p)%Q -> Qeq_bool p 0 = false.
Proof.
  intros Hp. destruct (Qeq_bool p 0) eqn:E; [|reflexivity].
  apply Qeq_bool_eq in E. rewrite E in Hp. now apply Qlt_irrefl in Hp.
Qed.

(** On a non-negative rational, [int()] is the floor. *)
Lemma quot_is_floor (q : Q) :
  (0 <= q)%Q -> Z.quot (Qnum q) (Zpos (Qden q)) = Qfloor q.
Proof.
  intros Hq. destruct q as [n d]. unfold Qle in Hq. simpl in *.
  apply Z.quot_div_nonneg; lia.
Qed.

Lemma getitem_ok (a : ndarray) (d s : nat) (x : float) :
  getitem a d s = Ok x <-> exists r, rows a !! d = Some r /\ r !! s = Some x.
Proof.
  unfold getitem. split.
  - intros H. bind_inv H. apply index_ok in Ha, H. eauto.
  - intros (r & Hr & Hx). apply index_ok in Hr, Hx. now rewrite Hr.
Qed.

(** What a call to [buy] that returns has done. *)
Lemma buy_ok (date stock : nat) (capital : float) (prices : ndarray)
    (fees : float) (portfolio portfolio' : list Z)
    (ledger ledger' : list entry) :
  buy date stock capital prices fees portfolio ledger
    = Ok (portfolio', ledger') <->
  exists price shares held,
    getitem prices date stock = Ok price /\
    py_int (fdiv (fsub capital fees) price) = Ok shares /\
    portfolio !! stock = Some held /\
    portfolio' = <[stock:=(held + shares)%Z]> portfolio /\
    ledger' = ledger ++ [buy_entry date stock shares price fees].
Proof.
  unfold buy. split.
  - intros H. bind_inv H. rename a into price.
    bind_inv H. rename a into shares.
    bind_inv H. rename a into held. apply index_ok in Ha1.
    bind_inv H. apply setitem_ok in Ha2 as [_ ->].
    simpl in H. injection H as <- <-.
    exists price, shares, held. repeat split; assumption.
  - intros (price & shares & held & Hp & Hs & Hh & -> & ->).
    rewrite Hp. simpl. rewrite Hs. simpl.
    pose proof Hh as Hlt%lookup_lt_Some.
    apply index_ok in Hh. rewrite Hh. simpl.
    unfold setitem. destruct (Nat.ltb_spec stock (length portfolio)); [|lia].
    reflexivity.
Qed.

(** What a call to [sell] that returns has done. *)
Lemma sell_ok (date stock : nat) (prices : ndarray) (fees : float)
    (portfolio portfolio' : list Z) (ledger ledger' : list entry) :
  sell date stock prices fees portfolio ledger = Ok (portfolio', ledger') <->
  exists price held,
    getitem prices date stock = Ok price /\
    portfolio !! stock = Some held /\
    portfolio' = <[stock:=0%Z]> portfolio /\
    ledger' = ledger ++ [sell_entry date stock held price fees].
Proof.
  unfold sell. split.
  - intros H. bind_inv H. rename a into price.
    bind_inv H. rename a into held. apply index_ok in Ha0.
    bind_inv H. apply setitem_ok in Ha1 as [_ ->].
    simpl in H. injection H as <- <-.
    exists price, held. repeat split; assumption.
  - intros (price & held & Hp & Hh & -> & ->).
    rewrite Hp. simpl.
    pose proof Hh as Hlt%lookup_lt_Some.
    apply index_ok in Hh. rewrite Hh. simpl.
    unfold setitem. destruct (Nat.ltb_spec stock (length portfolio)); [|lia].
    reflexivity.
Qed.




Lemma Qlt_bool_iff (a b : Q) : Qlt_bool a b = true <-> (a < b)%Q.
Proof.
  unfold Qlt_bool. rewrite negb_true_iff. split.
  - intros H. apply Qnot_le_lt. intros Hle.
    apply Qle_bool_iff in Hle. congruence.
  - intros H. destruct (Qle_bool b a) eqn:E; [|reflexivity].
    apply Qle_bool_iff in E. apply Qlt_not_le in H. contradiction.
Qed.

(** C4, as stated, fails.  Selling a holding of zero shares at a price of
    100 with fees of 20 is legal and records zero shares, but the cash flow
    of the entry is [0 * 100 - 20 = -20], which is not positive. *)
Lemma sell_zero_position_cash_flow_negative :
  exists e,
    sell 0 0 (one_stock 100) (of_Z 20) [0%Z] [] = Ok ([0%Z], [e]) /\
    transaction_type e = "sell" /\
    number_of_shares e = 0%Z /\
    total_spent e = Fin (0 * 100 - 20) /\
    fgt (total_spent e) (Fin 0) = false /\
    ~ (0 < 0 * 100 - 20)%Q.
Proof.
  eexists. split; [reflexivity|]. simpl.
  repeat split; try reflexivity. intros H. vm_compute in H. discriminate.
Qed.

(** C4, amended.  Where the price can be read and the stock is in the
    portfolio, [sell] always returns, also on a holding of zero: it empties
    the holding and records all its shares (zero shares for a zero holding)
    at a cash flow of [shares * price - fees]; every [buy] that returns
    records its shares at a cash flow of [-(shares * price + fees)].  The
    cash flow of a sale is positive exactly when the proceeds exceed the
    fees, and that of a purchase is negative exactly when cost plus fees is
    positive. *)
Theorem sell_and_buy_cash_flow (date stock : nat) (stock_prices : ndarray)
    (fees price : float) (portfolio : list Z) (held : Z) (ledger : list entry) :
  getitem stock_prices date stock = Ok price ->
  portfolio !! stock = Some held ->
  sell date stock stock_prices fees portfolio ledger
    = Ok (<[stock:=0%Z]> portfolio,
          ledger ++
            [ {| transaction_type := "sell"; date := date; stock := stock;
                 number_of_shares := held; price := price;
                 total_spent := fsub (fmul (of_Z held) price) fees |} ])
  /\ (forall capital shares,
        py_int (fdiv (fsub capital fees) price) = Ok shares ->
        buy date stock capital stock_prices fees portfolio ledger
          = Ok (<[stock:=(held + shares)%Z]> portfolio,
                ledger ++
                  [ {| transaction_type := "buy"; date := date; stock := stock;
                       number_of_shares := shares; price := price;
                       total_spent :=
                         fneg (fadd (fmul (of_Z shares) price) fees) |} ]))
  /\ (forall p f shares, price = Fin p -> fees = Fin f ->
        (fgt (fsub (fmul (of_Z shares) price) fees) (Fin 0) = true
           <-> (f < inject_Z shares * p)%Q) /\
        (flt (fneg (fadd (fmul (of_Z shares) price) fees)) (Fin 0) = true
           <-> (0 < inject_Z shares * p + f)%Q)).
Proof.
  intros Hprice Hheld. split; [|split].
  - apply sell_ok. exists price, held. repeat split; assumption.
  - intros capital shares Hshares. apply buy_ok.
    exists price, shares, held. repeat split; assumption.
  - intros p f shares -> ->. unfold fgt. simpl.
    rewrite !Qlt_bool_iff. split; split; intros H; lra.
Qed.

Lemma sell_and_buy_cash_flow_witness :
  sell 0 0 (one_stock 100) (of_Z 20) [0%Z] []
    = Ok ([0%Z],
          [ {| transaction_type := "sell"; date := 0; stock := 0;
               number_of_shares := 0; price := of_Z 100;
               total_spent := fsub (fmul (of_Z 0) (of_Z 100)) (of_Z 20) |} ]).
Proof.
  exact (proj1 (sell_and_buy_cash_flow 0 0 (one_stock 100) (of_Z 20)
                  (of_Z 100) [0%Z] 0%Z [] eq_refl eq_refl)).
Defined.

(** C9.  On any ledger, [log_transaction('buy', 5, 2, 10, 100, 50, ledger)]
    appends exactly the line [buy,5,2,10,100.00,-1050.00], and
    [log_transaction('sell', 8, 1, 10, 100, 20, ledger)] appends exactly the
    line [sell,8,1,10,100.00,980.00]. *)
Theorem log_transaction_lines (ledger : list entry) :
  (exists ledger',
     log_transaction "buy" 5 2 10 (of_Z 100) (of_Z 50) ledger = Ok ledger' /\
     ledger_lines ledger'
       = ledger_lines ledger ++ ["buy,5,2,10,100.00,-1050.00"])
  /\
  (exists ledger',
     log_transaction "sell" 8 1 10 (of_Z 100) (of_Z 20) ledger = Ok ledger' /\
     ledger_lines ledger'
       = ledger_lines ledger ++ ["sell,8,1,10,100.00,980.00"]).
Proof.
  split; eexists; (split; [reflexivity|]);
    unfold ledger_lines; rewrite map_app; f_equal.
Qed.

(** ** Moving averages *)

Lemma days_before_failure_le (l : list float) :
  days_before_failure l <= length l.
Proof. induction l as [|[q|] l IH]; simpl; lia. Qed.

Lemma days_before_failure_fin (l : list float) (i : nat) :
  i < days_before_failure l -> exists q, l !! i = Some (Fin q).
Proof.
  revert i. induction l as [|[q|] l IH]; simpl; intros i Hi; try lia.
  destruct i as [|i]; [eauto|]. apply IH. lia.
Qed.

Lemma days_before_failure_nan (l : list float) :
  days_before_failure l < length l -> l !! days_before_failure l = Some NaN.
Proof.
  induction l as [|[q|] l IH]; simpl; intros H; [lia| |reflexivity].
  apply IH. lia.
Qed.

(** The index of the first [NaN] is the number of days before failure. *)
Lemma days_before_failure_first (l : list float) (f : nat) :
  l !! f = Some NaN -> (forall i, i < f -> l !! i <> Some NaN) ->
  days_before_failure l = f.
Proof.
  intros Hf Hbefore.
  destruct (Nat.lt_trichotomy (days_before_failure l) f) as [H|[H|H]].
  - exfalso. apply (Hbefore _ H). apply days_before_failure_nan.
    apply lookup_lt_Some in Hf. lia.
  - exact H.
  - destruct (days_before_failure_fin l f H) as [q Hq]. congruence.
Qed.

Lemma days_before_failure_all (l : list float) :
  NaN ∉ l -> days_before_failure l = length l.
Proof.
  intros Hno. pose proof (days_before_failure_le l) as Hle.
  destruct (decide (days_before_failure l = length l)) as [|Hne]; [assumption|].
  exfalso. apply Hno. apply list_elem_of_lookup.
  exists (days_before_failure l). apply days_before_failure_nan. lia.
Qed.

(** On a path with permanent failure, every day from the first failure on
    holds [NaN]. *)
Lemma failure_permanent_after (l : list float) (i : nat) :
  failure_permanent l -> days_before_failure l <= i < length l ->
  l !! i = Some NaN.
Proof.
  intros Hperm [Hge Hlt].
  assert (Hg : l !! days_before_failure l = Some NaN)
    by (apply days_before_failure_nan; lia).
  destruct (decide (i = days_before_failure l)) as [->|Hne]; [exact Hg|].
  apply (Hperm (days_before_failure l) i); [lia|exact Hg].
Qed.

(** The unweighted loop appends one average per day up to the first failure
    and stops there. *)
Lemma moving_average_loop_run (l : list float) (n len a : nat)
    (ma : list float) :
  (forall i, a <= i < a + len -> i < length l) ->
  (forall i,
     a <= i < a + len -> days_before_failure l <= i -> l !! i = Some NaN) ->
  moving_average_loop (fun w => Ok (np_average w)) l n (seq a len) ma
  = Ok (ma ++ map (window_average l n)
                (seq a (Nat.min len (days_before_failure l - a)))).
Proof.
  revert a ma. induction len as [|len IH]; intros a ma Hin Hnan; simpl.
  - now rewrite app_nil_r.
  - destruct (index_lt l a) as [x Hx]; [apply Hin; lia|]. rewrite Hx. simpl.
    apply index_ok in Hx.
    destruct (le_lt_dec (days_before_failure l) a) as [Hge|Hlt].
    + rewrite (Hnan a) in Hx by lia. injection Hx as <-. simpl.
      replace (days_before_failure l - a) with 0 by lia.
      now rewrite app_nil_r.
    + destruct (days_before_failure_fin l a Hlt) as [q Hq].
      rewrite Hq in Hx. injection Hx as <-. simpl.
      rewrite IH.
      * replace (days_before_failure l - a)
          with (S (days_before_failure l - S a)) by lia.
        simpl. now rewrite <- app_assoc.
      * intros i Hi. apply Hin. lia.
      * intros i Hi. apply Hnan. lia.
Qed.

Lemma np_sum_fin_from (xs : list float) (acc : Q) :
  Forall (fun x => isnan x = false) xs ->
  exists q, foldl fadd (Fin acc) xs = Fin q.
Proof.
  revert acc. induction xs as [|x xs IH]; intros acc Hxs; simpl; [eauto|].
  inversion Hxs as [|? ? Hx Hrest]; subst.
  destruct x as [q|]; [|discriminate]. simpl. now apply IH.
Qed.

(** The average of a non-empty window without [NaN] is a number. *)
Lemma np_average_fin (xs : list float) :
  xs <> [] -> Forall (fun x => isnan x = false) xs ->
  exists q, np_average xs = Fin q.
Proof.
  intros Hne Hxs. unfold np_average, np_sum.
  destruct (np_sum_fin_from xs 0 Hxs) as [s ->].
  unfold of_nat, of_Z, fdiv.
  assert (H : Qeq_bool (inject_Z (Z.of_nat (length xs))) 0 = false).
  { destruct (Qeq_bool _ _) eqn:E; [|reflexivity].
    apply Qeq_bool_eq in E. unfold Qeq in E. simpl in E.
    destruct xs; [congruence|simpl in E; lia]. }
  rewrite H. eauto.
Qed.

Lemma window_average_fin (l : list float) (n i : nat) :
  1 <= n -> n - 1 <= i < days_before_failure l ->
  exists q, window_average l n i = Fin q.
Proof.
  intros Hn Hi. pose proof (days_before_failure_le l) as Hle.
  unfold window_average, slice. apply np_average_fin.
  - intros E. apply (f_equal length) in E.
    rewrite length_take, length_drop in E. simpl in E. lia.
  - apply Forall_forall. intros x Hx.
    apply list_elem_of_lookup in Hx as [j Hj].
    apply lookup_take_Some in Hj as [Hj Hjlt].
    rewrite lookup_drop in Hj.
    destruct (days_before_failure_fin l (i + 1 - n + j)) as [q Hq]; [lia|].
    rewrite Hq in Hj. now injection Hj as <-.
Qed.

(** The unweighted moving average of a path with permanent failure. *)
Lemma moving_average_permanent (l : list float) (n : nat) :
  1 <= n -> failure_permanent l ->
  exists ma,
    moving_average l n [] = Ok ma /\
    length ma = days_before_failure l + 1 - n /\
    NaN ∉ ma.
Proof.
  intros Hn Hperm. pose proof (days_before_failure_le l) as Hle.
  unfold moving_average, range. rewrite moving_average_loop_run.
  - eexists. split; [reflexivity|]. simpl. split.
    + rewrite length_map, length_seq. lia.
    + intros Hin. apply list_elem_of_fmap in Hin as (i & Hi & Hseq).
      apply elem_of_seq in Hseq.
      destruct (window_average_fin l n i Hn) as [q Hq]; [lia|]. congruence.
  - intros i Hi. lia.
  - intros i Hi Hge. apply failure_permanent_after; [exact Hperm|lia].
Qed.

(** C6, as stated, fails.  The sequence [nan, 1, 1] has its first failure
    marker at index 0, so that the stated length for the window 2 is
    [max(0, 0 - 2 + 1) = 0]; [moving_average] returns two values, and the
    first of them is [nan]. *)
Lemma moving_average_isolated_nan :
  [NaN; of_Z 1; of_Z 1] !! 0 = Some NaN /\
  exists ma,
    moving_average [NaN; of_Z 1; of_Z 1] 2 [] = Ok ma /\
    length ma = 2 /\
    Z.of_nat (length ma) <> Z.max 0 (0 - 2 + 1) /\
    NaN ∈ ma.
Proof.
  split; [reflexivity|]. eexists. split; [reflexivity|].
  split; [reflexivity|]. split; [discriminate|]. left.
Qed.

(** C6, amended.  For a price sequence of length [N] with permanent failure
    and a window [n >= 1], the unweighted [moving_average] returns a series
    without failure marker, of length [max(0, N - n + 1)] if the sequence
    contains no failure marker, and of length [max(0, f - n + 1)] if its
    first failure marker is at index [f]. *)
Theorem moving_average_length (stock_price : list float) (n : nat) :
  1 <= n ->
  failure_permanent stock_price ->
  exists ma,
    moving_average stock_price n [] = Ok ma /\
    (NaN ∉ ma) /\
    (NaN ∉ stock_price ->
       Z.of_nat (length ma)
       = Z.max 0 (Z.of_nat (length stock_price) - Z.of_nat n + 1)) /\
    (forall f,
       stock_price !! f = Some NaN ->
       (forall i, i < f -> stock_price !! i <> Some NaN) ->
       Z.of_nat (length ma) = Z.max 0 (Z.of_nat f - Z.of_nat n + 1)).
Proof.
  intros Hn Hperm.
  destruct (moving_average_permanent stock_price n Hn Hperm)
    as (ma & Hma & Hlen & Hfin).
  exists ma. split; [exact Hma|]. split; [exact Hfin|]. split.
  - intros Hno. rewrite (days_before_failure_all _ Hno) in Hlen. lia.
  - intros f Hf Hfirst.
    rewrite (days_before_failure_first _ f Hf Hfirst) in Hlen. lia.
Qed.

Lemma failure_permanent_sample :
  failure_permanent failing_prices.
Proof.
  intros d d' [Hlt Hlen] Hd. simpl in Hlen.
  destruct d as [|[|[|d]]]; try discriminate;
    destruct d' as [|[|[|[|[|d']]]]]; simpl in *; try reflexivity; lia.
Qed.

Lemma moving_average_length_witness :
  exists ma,
    moving_average failing_prices 2 [] = Ok ma /\
    (NaN ∉ ma) /\
    (NaN ∉ failing_prices ->
       Z.of_nat (length ma) = Z.max 0 (Z.of_nat 5 - Z.of_nat 2 + 1)) /\
    (forall f,
       failing_prices !! f = Some NaN ->
       (forall i, i < f -> failing_prices !! i <> Some NaN) ->
       Z.of_nat (length ma) = Z.max 0 (Z.of_nat f - Z.of_nat 2 + 1)).
Proof.
  apply (moving_average_length failing_prices 2).
  - lia.
  - exact failure_permanent_sample.
Defined.

Example moving_average_sample :
  moving_average failing_prices 2 []
  = Ok failing_slow.
Proof. reflexivity. Qed.

(** C10.  In the decision loop of [crossing_averages] with windows
    [1 <= m < n], on a price path with permanent failure, whenever the check
    on the slow series lets day [trade_day >= n + 1] through, the four reads
    [FMA[s][trade_day-m]], [FMA[s][trade_day-m-1]], [SMA[s][trade_day-n]] and
    [SMA[s][trade_day-1-n]] are within the bounds of their series and
    return. *)
Theorem crossing_reads_in_bounds (stock_price sma fma : list float)
    (m n trade_day : nat) :
  1 <= m -> m < n ->
  failure_permanent stock_price ->
  moving_average stock_price n [] = Ok sma ->
  moving_average stock_price m [] = Ok fma ->
  n + 1 <= trade_day ->
  (Z.of_nat (length sma) - 1 <? Z.of_nat trade_day - Z.of_nat n)%Z = false ->
  let day := Z.of_nat trade_day in
  ((0 <= day - Z.of_nat m < Z.of_nat (length fma))%Z /\
   (0 <= day - Z.of_nat m - 1 < Z.of_nat (length fma))%Z /\
   (0 <= day - Z.of_nat n < Z.of_nat (length sma))%Z /\
   (0 <= day - 1 - Z.of_nat n < Z.of_nat (length sma))%Z) /\
  exists fast fast_before slow slow_before,
    index_Z fma (day - Z.of_nat m)%Z = Ok fast /\
    index_Z fma (day - Z.of_nat m - 1)%Z = Ok fast_before /\
    index_Z sma (day - Z.of_nat n)%Z = Ok slow /\
    index_Z sma (day - 1 - Z.of_nat n)%Z = Ok slow_before.
Proof.
  intros Hm Hmn Hperm Hsma Hfma Hday Hcheck day.
  destruct (moving_average_permanent stock_price n ltac:(lia) Hperm)
    as (sma' & Hsma' & Hlens & _).
  destruct (moving_average_permanent stock_price m Hm Hperm)
    as (fma' & Hfma' & Hlenf & _).
  rewrite Hsma in Hsma'. injection Hsma' as <-.
  rewrite Hfma in Hfma'. injection Hfma' as <-.
  apply Z.ltb_ge in Hcheck. subst day.
  assert (Hbounds :
    (0 <= Z.of_nat trade_day - Z.of_nat m < Z.of_nat (length fma))%Z /\
    (0 <= Z.of_nat trade_day - Z.of_nat m - 1 < Z.of_nat (length fma))%Z /\
    (0 <= Z.of_nat trade_day - Z.of_nat n < Z.of_nat (length sma))%Z /\
    (0 <= Z.of_nat trade_day - 1 - Z.of_nat n < Z.of_nat (length sma))%Z)
    by lia.
  split; [exact Hbounds|].
  assert (Hread : forall (l : list float) (i : Z),
            (0 <= i < Z.of_nat (length l))%Z -> exists x, index_Z l i = Ok x).
  { intros l i Hi. unfold index_Z.
    destruct (Z.leb_spec 0 i); [|lia]. apply index_lt. lia. }
  destruct Hbounds as (H1 & H2 & H3 & H4).
  destruct (Hread _ _ H1) as [fast ?], (Hread _ _ H2) as [fast_before ?],
    (Hread _ _ H3) as [slow ?], (Hread _ _ H4) as [slow_before ?].
  exists fast, fast_before, slow, slow_before. auto.
Qed.

Lemma crossing_reads_in_bounds_witness :
  ((0 <= Z.of_nat 3 - Z.of_nat 1 < Z.of_nat (length failing_fast))%Z /\
   (0 <= Z.of_nat 3 - Z.of_nat 1 - 1 < Z.of_nat (length failing_fast))%Z /\
   (0 <= Z.of_nat 3 - Z.of_nat 2 < Z.of_nat (length failing_slow))%Z /\
   (0 <= Z.of_nat 3 - 1 - Z.of_nat 2 < Z.of_nat (length failing_slow))%Z) /\
  exists fast fast_before slow slow_before,
    index_Z failing_fast (Z.of_nat 3 - Z.of_nat 1)%Z = Ok fast /\
    index_Z failing_fast (Z.of_nat 3 - Z.of_nat 1 - 1)%Z
      = Ok fast_before /\
    index_Z failing_slow (Z.of_nat 3 - Z.of_nat 2)%Z = Ok slow /\
    index_Z failing_slow (Z.of_nat 3 - 1 - Z.of_nat 2)%Z
      = Ok slow_before.
Proof.
  apply (crossing_reads_in_bounds failing_prices
           failing_slow failing_fast 1 2 3).
  - lia.
  - lia.
  - exact failure_permanent_sample.
  - reflexivity.
  - reflexivity.
  - lia.
  - reflexivity.
Defined.

(** ** Crossing detection *)

Lemma flt_fgt_exclusive (x y : float) : flt x y && fgt x y = false.
Proof.
  unfold fgt. destruct x as [a|], y as [b|]; simpl; try reflexivity.
  destruct (Qlt_bool a b) eqn:E1, (Qlt_bool b a) eqn:E2; try reflexivity.
  apply Qlt_bool_iff in E1, E2. exfalso. lra.
Qed.

Lemma app_singleton_neq {A : Type} (l : list A) (x : A) : l <> l ++ [x].
Proof.
  intros E. apply (f_equal length) in E. rewrite length_app in E.
  simpl in E. lia.
Qed.

(** C7.  In the decision loop of [crossing_averages], for a stock that
    passes the check on the slow series, with [fast = FMA[s][d-m]],
    [slow = SMA[s][d-n]] and the values one index before: a buy is made iff
    [fast >= slow] and [fast_before < slow_before]; a sale is made iff
    [fast <= slow] and [fast_before > slow_before] and the holding is not
    zero; and the two signals never hold together. *)
Theorem crossing_signals (stock_prices : ndarray) (m n : nat)
    (amount fees : float) (SMA FMA : list (list float)) (trade_day : nat)
    (portfolio : list Z) (ledger : list entry) (stock_number : nat)
    (sma fma : list float) (fast slow fast_before slow_before : float)
    (held : Z) :
  let day := Z.of_nat trade_day in
  SMA !! stock_number = Some sma ->
  FMA !! stock_number = Some fma ->
  (Z.of_nat (length sma) - 1 <? day - Z.of_nat n)%Z = false ->
  index_Z fma (day - Z.of_nat m)%Z = Ok fast ->
  index_Z sma (day - Z.of_nat n)%Z = Ok slow ->
  index_Z fma (day - Z.of_nat m - 1)%Z = Ok fast_before ->
  index_Z sma (day - 1 - Z.of_nat n)%Z = Ok slow_before ->
  portfolio !! stock_number = Some held ->
  let buy_signal := fge fast slow && flt fast_before slow_before in
  let sell_signal := fle fast slow && fgt fast_before slow_before in
  let run :=
    crossing_body stock_prices m n amount fees SMA FMA trade_day
      (portfolio, ledger) stock_number in
  run = (if buy_signal then
           buy trade_day stock_number amount stock_prices fees portfolio ledger
         else if sell_signal && negb (held =? 0)%Z then
           sell trade_day stock_number stock_prices fees portfolio ledger
         else Ok (portfolio, ledger))
  /\ buy_signal && sell_signal = false
  /\ forall st', run = Ok st' ->
       ((exists e, snd st' = ledger ++ [e] /\ transaction_type e = "buy")
          <-> buy_signal = true) /\
       ((exists e, snd st' = ledger ++ [e] /\ transaction_type e = "sell")
          <-> sell_signal = true /\ held <> 0%Z).
Proof.
  intros day HSMA HFMA Hcheck Hfast Hslow Hfb Hsb Hheld.
  intros buy_signal sell_signal run.
  assert (Hexcl : buy_signal && sell_signal = false).
  { subst buy_signal sell_signal.
    pose proof (flt_fgt_exclusive fast_before slow_before) as E.
    destruct (fge fast slow), (fle fast slow),
      (flt fast_before slow_before), (fgt fast_before slow_before);
      simpl in *; congruence. }
  assert (Hrun : run =
    (if buy_signal then
       buy trade_day stock_number amount stock_prices fees portfolio ledger
     else if sell_signal && negb (held =? 0)%Z then
       sell trade_day stock_number stock_prices fees portfolio ledger
     else Ok (portfolio, ledger))).
  { subst run buy_signal sell_signal. unfold crossing_body. fold day.
    apply index_ok in HSMA, HFMA, Hheld.
    rewrite HSMA. cbn [bind]. rewrite Hcheck, HFMA. cbn [bind].
    rewrite Hfast. cbn [bind]. rewrite Hslow. cbn [bind].
    destruct (fge fast slow); cbn [bind andb].
    - rewrite Hfb. cbn [bind]. rewrite Hsb. cbn [bind].
      destruct (flt fast_before slow_before); [reflexivity|].
      destruct (fle fast slow); cbn [bind andb]; [|reflexivity].
      destruct (fgt fast_before slow_before); cbn [bind andb]; [|reflexivity].
      rewrite Hheld. reflexivity.
    - destruct (fle fast slow); cbn [bind andb]; [|reflexivity].
      rewrite Hfb. cbn [bind]. rewrite Hsb. cbn [bind].
      destruct (fgt fast_before slow_before); cbn [bind andb]; [|reflexivity].
      rewrite Hheld. reflexivity. }
  split; [exact Hrun|]. split; [exact Hexcl|].
  intros [portfolio' ledger'] Hok. rewrite Hrun in Hok. simpl.
  destruct buy_signal.
  - apply buy_ok in Hok as (p & sh & h & _ & _ & _ & _ & ->).
    simpl in Hexcl. rewrite Hexcl. split.
    + split; [reflexivity|]. intros _. eexists. split; reflexivity.
    + split; [|intros [? _]; discriminate].
      intros (e & He & Hty). apply app_inj_tail in He as [_ <-]. discriminate.
  - destruct sell_signal; simpl in Hok.
    + destruct (Z.eqb_spec held 0) as [Hz|Hnz]; simpl in Hok.
      * injection Hok as <- <-. split.
        -- split; [|discriminate].
           intros (e & He & _). now apply app_singleton_neq in He.
        -- split; [|intros [_ ?]; contradiction].
           intros (e & He & _). now apply app_singleton_neq in He.
      * apply sell_ok in Hok as (p & h & _ & _ & _ & ->). split.
        -- split; [|discriminate].
           intros (e & He & Hty). apply app_inj_tail in He as [_ <-].
           discriminate.
        -- split; [auto|]. intros _. eexists. split; reflexivity.
    + injection Hok as <- <-. split.
      * split; [|discriminate].
        intros (e & He & _). now apply app_singleton_neq in He.
      * split; [|intros [? _]; discriminate].
        intros (e & He & _). now apply app_singleton_neq in He.
Qed.

Lemma crossing_signals_witness :
  crossing_body crossing_sample 1 2 (of_Z 5000) (of_Z 20)
    [[of_Z 3; of_Z 3]] [[of_Z 1; of_Z 2; of_Z 4]] 3 ([0%Z], []) 0
  = buy 3 0 (of_Z 5000) crossing_sample (of_Z 20) [0%Z] [].
Proof.
  exact (proj1 (crossing_signals crossing_sample 1 2 (of_Z 5000) (of_Z 20)
                  [[of_Z 3; of_Z 3]] [[of_Z 1; of_Z 2; of_Z 4]] 3 [0%Z] [] 0
                  [of_Z 3; of_Z 3] [of_Z 1; of_Z 2; of_Z 4]
                  (of_Z 4) (of_Z 3) (of_Z 2) (of_Z 3) 0%Z
                  eq_refl eq_refl eq_refl eq_refl eq_refl eq_refl eq_refl
                  eq_refl)).
Defined.

(** ** The sale of the last day *)

Lemma sell_last_day_flushes (stock_prices : ndarray) (fees : float)
    (days N : nat) (st st' : list Z * list entry) :
  sell_last_day stock_prices fees days N st = Ok st' ->
  forall stock_number last,
    stock_number < N ->
    getitem stock_prices (days - 1) stock_number = Ok last ->
    isnan last = false ->
    fst st' !! stock_number = Some 0%Z.
Proof.
  unfold sell_last_day, range. rewrite Nat.sub_0_r. intros Hrun.
  refine (for_each_seq_ind
            (fun j (s : list Z * list entry) =>
               forall stock_number last, stock_number < j ->
                 getitem stock_prices (days - 1) stock_number = Ok last ->
                 isnan last = false -> fst s !! stock_number = Some 0%Z)
            _ N 0 st st' _ _ Hrun); [intros; lia|].
  clear. intros j [pf L] [pf' L'] _ IH Hbody s last Hs Hlast Hfin. simpl.
  bind_inv Hbody. rename a into last_j.
  destruct (isnan last_j) eqn:Hnan; simpl in Hbody.
  - injection Hbody as <- <-.
    destruct (decide (s = j)) as [->|Hne]; [congruence|].
    apply (IH s last); [lia|assumption|assumption].
  - bind_inv Hbody. rename a into held. apply index_ok in Ha0.
    destruct (Z.eqb_spec held 0) as [->|Hnz]; simpl in Hbody.
    + injection Hbody as <- <-.
      destruct (decide (s = j)) as [->|Hne]; [exact Ha0|].
      apply (IH s last); [lia|assumption|assumption].
    + apply sell_ok in Hbody as (p & h & _ & Hh & -> & _).
      destruct (decide (s = j)) as [->|Hne].
      * apply list_lookup_insert_eq. now apply lookup_lt_Some in Hh.
      * rewrite list_lookup_insert_ne by congruence.
        apply (IH s last); [lia|assumption|assumption].
Qed.

(** C8.  After a run of [random], [crossing_averages] or [momentum] that
    returns, the portfolio holds zero shares of every stock whose price on
    the last day is not the failure marker. *)
Theorem terminal_flush (stock_prices : prices_arg) (amount fees : float)
    (ledger : list entry) (portfolio : list Z) (ledger' : list entry) :
  (forall rng period,
     random rng stock_prices period amount fees ledger
       = Ok (portfolio, ledger') ->
     flushed (as_matrix stock_prices) portfolio) /\
  (forall m n,
     crossing_averages stock_prices m n amount fees ledger
       = Ok (portfolio, ledger') ->
     flushed (as_matrix stock_prices) portfolio) /\
  (forall osc_type n T_over T_under cool_off_period,
     momentum stock_prices osc_type n T_over T_under amount fees
       cool_off_period ledger = Ok (portfolio, ledger') ->
     flushed (as_matrix stock_prices) portfolio).
Proof.
  split; [|split].
  - intros rng period Hrun. unfold random in Hrun.
    bind_inv Hrun. bind_inv Hrun. bind_inv Hrun.
    intros s last Hs Hlast Hfin.
    apply (sell_last_day_flushes _ _ _ _ _ _ Hrun s last Hs Hlast Hfin).
  - intros m n Hrun. unfold crossing_averages in Hrun.
    bind_inv Hrun. bind_inv Hrun. destruct a0 as [SMA FMA]. bind_inv Hrun.
    intros s last Hs Hlast Hfin.
    apply (sell_last_day_flushes _ _ _ _ _ _ Hrun s last Hs Hlast Hfin).
  - intros osc_type n T_over T_under cool_off_period Hrun.
    unfold momentum in Hrun.
    bind_inv Hrun. destruct a as [pf0 L0]. bind_inv Hrun.
    bind_inv Hrun. destruct a0 as [[pf1 co1] L1].
    intros s last Hs Hlast Hfin.
    apply (sell_last_day_flushes _ _ _ _ _ _ Hrun s last Hs Hlast Hfin).
Qed.

Lemma terminal_flush_witness :
  exists portfolio ledger',
    random (fun _ _ => 1%Z) two_stocks 1 (of_Z 100) (of_Z 20) []
      = Ok (portfolio, ledger') /\
    flushed (as_matrix two_stocks) portfolio.
Proof.
  do 2 eexists. split.
  - vm_compute. reflexivity.
  - refine (proj1 (terminal_flush two_stocks (of_Z 100) (of_Z 20) [] _ _)
              (fun _ _ => 1%Z) 1 _).
    vm_compute. reflexivity.
Defined.

Example two_stocks_run :
  bind (random (fun _ _ => 1%Z) two_stocks 1 (of_Z 100) (of_Z 20) [])
       (fun st => Ok (fst st, ledger_lines (snd st)))
  = Ok ([0%Z; 60%Z],
        [ "buy,0,0,8,10.00,-100.00"; "buy,0,1,20,4.00,-100.00";
          "buy,1,0,7,11.00,-97.00"; "buy,1,1,40,2.00,-100.00";
          "buy,2,0,6,12.00,-92.00"; "sell,2,0,21,12.00,232.00" ]).
Proof. vm_compute. reflexivity. Qed.

(** ** The cool-off of purchases *)

Lemma create_portfolio_appends (amounts : list float) (stock_prices : ndarray)
    (fees : float) (ledger : list entry) (st' : list Z * list entry) :
  create_portfolio amounts stock_prices fees ledger = Ok st' ->
  exists init, snd st' = ledger ++ init /\ Forall (fun e => date e = 0) init.
Proof.
  unfold create_portfolio. intros Hrun.
  refine (for_each_ind
            (fun s : list Z * list entry =>
               exists init, snd s = ledger ++ init /\
                            Forall (fun e => date e = 0) init)
            _ _ _ st' _ _ Hrun).
  - exists []. simpl. now rewrite app_nil_r.
  - clear. intros i [pf L] [pf' L'] _ (init & HL & Hinit) Hbody.
    simpl in *. bind_inv Hbody.
    apply buy_ok in Hbody as (p & sh & h & _ & _ & _ & _ & ->).
    exists (init ++ [buy_entry 0 i sh p fees]). split.
    + rewrite HL. now rewrite app_assoc.
    + apply Forall_app. split; [exact Hinit|]. now constructor.
Qed.

Lemma sell_last_day_appends (stock_prices : ndarray) (fees : float)
    (days N : nat) (st st' : list Z * list entry) :
  sell_last_day stock_prices fees days N st = Ok st' ->
  exists last, snd st' = snd st ++ last /\
               Forall (fun e => transaction_type e = "sell") last.
Proof.
  unfold sell_last_day. intros Hrun.
  refine (for_each_ind
            (fun s : list Z * list entry =>
               exists last, snd s = snd st ++ last /\
                            Forall (fun e => transaction_type e = "sell") last)
            _ _ _ st' _ _ Hrun).
  - exists []. now rewrite app_nil_r.
  - clear. intros i [pf L] [pf' L'] _ (last & HL & Hlast) Hbody.
    simpl in *. bind_inv Hbody.
    destruct (isnan a); simpl in Hbody.
    + injection Hbody as <- <-. eauto.
    + bind_inv Hbody. destruct (a0 =? 0)%Z; simpl in Hbody.
      * injection Hbody as <- <-. eauto.
      * apply sell_ok in Hbody as (p & h & _ & _ & _ & ->).
        exists (last ++ [sell_entry (days - 1) i h p fees]). split.
        -- rewrite HL. now rewrite app_assoc.
        -- apply Forall_app. split; [exact Hlast|]. now constructor.
Qed.

(** One pass of the counters moves each of them by at most one day. *)
Lemma cool_off_tick_spec (period : Z) (N : nat) (cool_off cool_off' : list Z) :
  cool_off_tick period N cool_off = Ok cool_off' ->
  forall s c', cool_off' !! s = Some c' ->
    exists c, cool_off !! s = Some c /\ (c' <= c + 1)%Z.
Proof.
  unfold cool_off_tick, range. rewrite Nat.sub_0_r. intros Hrun.
  assert (H : forall s c', cool_off' !! s = Some c' ->
            exists c, cool_off !! s = Some c /\
                      (c' = c \/ (s < 0 + N /\ c' = (c + 1)%Z))).
  { refine (for_each_seq_ind
              (fun j (co : list Z) =>
                 forall s c', co !! s = Some c' ->
                   exists c, cool_off !! s = Some c /\
                             (c' = c \/ (s < j /\ c' = (c + 1)%Z)))
              _ N 0 cool_off cool_off' _ _ Hrun).
    - intros s c' Hs. eauto.
    - clear. intros j co co' _ IH Hbody s c' Hs.
      bind_inv Hbody. rename a into cj. apply index_ok in Ha.
      destruct (cj <? period)%Z.
      + apply setitem_ok in Hbody as [Hlt ->].
        destruct (decide (s = j)) as [->|Hne].
        * rewrite list_lookup_insert_eq in Hs by exact Hlt.
          injection Hs as <-.
          destruct (IH j cj Ha) as (c & Hc & [->|[? _]]); [|lia].
          exists c. split; [exact Hc|]. right. split; [lia|reflexivity].
        * rewrite list_lookup_insert_ne in Hs by congruence.
          destruct (IH s c' Hs) as (c & Hc & [->|[? ->]]); exists c;
            (split; [exact Hc|]); [now left|right; split; [lia|reflexivity]].
      + injection Hbody as <-.
        destruct (IH s c' Hs) as (c & Hc & [->|[? ->]]); exists c;
          (split; [exact Hc|]); [now left|right; split; [lia|reflexivity]]. }
  intros s c' Hs. destruct (H s c' Hs) as (c & Hc & [->|[_ ->]]);
    exists c; (split; [exact Hc|lia]).
Qed.

(** What one decision of [momentum] that returns has done: nothing, a
    sale, or a purchase on a counter that stood at the period and is set
    back to zero. *)
Lemma momentum_body_cases (stock_prices : ndarray)
    (T_over T_under amount fees : float) (period : Z)
    (osc : list (list float)) (k trade_day : nat)
    (pf co : list Z) (L : list entry) (pf' co' : list Z) (L' : list entry)
    (s : nat) :
  momentum_body stock_prices T_over T_under amount fees period osc k trade_day
    (pf, co, L) s = Ok (pf', co', L') ->
  (co' = co /\ L' = L) \/
  (co' = co /\ exists e, L' = L ++ [e] /\ transaction_type e = "sell") \/
  (exists e, L' = L ++ [e] /\ is_buy e /\ date e = trade_day /\ stock e = s /\
             co !! s = Some period /\ co' = <[s:=0%Z]> co).
Proof.
  unfold momentum_body. intros H.
  bind_inv H. rename a into smoothed.
  destruct (_ <? _)%Z; [injection H as <- <- <-; now left|].
  bind_inv H. rename a into level.
  bind_inv H. rename a into overvalued.
  destruct overvalued.
  - bind_inv H. destruct a as [pf1 L1]. injection H as <- <- <-.
    apply sell_ok in Ha2 as (p & h & _ & _ & _ & ->).
    right. left. split; [reflexivity|]. eexists. split; reflexivity.
  - bind_inv H. rename a into undervalued.
    destruct undervalued; [|injection H as <- <- <-; now left].
    bind_inv H. destruct a as [pf1 L1].
    bind_inv H. injection H as <- <- <-.
    apply buy_ok in Ha3 as (p & sh & h & _ & _ & _ & _ & ->).
    apply setitem_ok in Ha4 as [_ ->].
    destruct (flt level T_under); [|discriminate].
    bind_inv Ha2. apply index_ok in Ha3. injection Ha2 as Heq.
    apply Z.eqb_eq in Heq. subst a.
    right. right. eexists. repeat split; try reflexivity. exact Ha3.
Qed.

Lemma spaced_nil (period : Z) : spaced period [].
Proof. intros i j e1 e2 _ H. discriminate. Qed.

(** Appending an entry that is not a purchase keeps purchases spaced. *)
Lemma spaced_snoc_other (period : Z) (made : list entry) (e : entry) :
  spaced period made -> ~ is_buy e -> spaced period (made ++ [e]).
Proof.
  intros Hsp Hnot i j e1 e2 Hij H1 H2 Hb1 Hb2 Hst.
  assert (Hj : j < length made).
  { destruct (le_lt_dec (length made) j) as [Hge|]; [|assumption].
    exfalso. pose proof (lookup_lt_Some _ _ _ H2) as Hlt.
    rewrite length_app in Hlt. simpl in Hlt.
    replace j with (length made) in H2 by lia.
    rewrite list_lookup_middle in H2 by reflexivity.
    injection H2 as <-. contradiction. }
  rewrite lookup_app_l in H1 by lia. rewrite lookup_app_l in H2 by lia.
  now apply (Hsp i j e1 e2).
Qed.

(** Appending a purchase made when the counter of its stock stands at the
    period keeps purchases spaced. *)
Lemma spaced_snoc_buy (period now : Z) (cool_off : list Z)
    (made : list entry) (e : entry) :
  spaced period made -> cooling now cool_off made ->
  Z.of_nat (date e) = now -> cool_off !! stock e = Some period ->
  spaced period (made ++ [e]).
Proof.
  intros Hsp Hcool Hdate Hc i j e1 e2 Hij H1 H2 Hb1 Hb2 Hst.
  destruct (le_lt_dec (length made) j) as [Hge|Hlt].
  - pose proof (lookup_lt_Some _ _ _ H2) as Hlt.
    rewrite length_app in Hlt. simpl in Hlt.
    replace j with (length made) in H2 by lia.
    rewrite list_lookup_middle in H2 by reflexivity.
    injection H2 as <-.
    rewrite lookup_app_l in H1 by lia.
    destruct (Hcool e1) as [_ Hbound];
      [apply list_elem_of_lookup; eauto|exact Hb1|].
    rewrite Hst in Hbound. specialize (Hbound period Hc). lia.
  - rewrite lookup_app_l in H1 by lia. rewrite lookup_app_l in H2 by lia.
    now apply (Hsp i j e1 e2).
Qed.

(** One decision of [momentum] keeps the invariant of the day. *)
Lemma momentum_body_inv (stock_prices : ndarray)
    (T_over T_under amount fees : float) (period : Z)
    (osc : list (list float)) (k trade_day : nat) (before : list entry)
    (st st' : list Z * list Z * list entry) (s : nat) :
  momentum_inv period before (Z.of_nat trade_day) st ->
  momentum_body stock_prices T_over T_under amount fees period osc k trade_day
    st s = Ok st' ->
  momentum_inv period before (Z.of_nat trade_day) st'.
Proof.
  destruct st as [[pf co] L], st' as [[pf' co'] L'].
  intros (made & HL & Hsp & Hcool) Hbody. simpl in HL, Hcool.
  apply momentum_body_cases in Hbody
    as [[-> ->]|[[-> (e & -> & Hty)]|(e & -> & Hb & Hd & Hs & Hc & ->)]].
  - exists made. auto.
  - exists (made ++ [e]). simpl. split; [|split].
    + rewrite HL. now rewrite app_assoc.
    + apply spaced_snoc_other; [exact Hsp|]. unfold is_buy. congruence.
    + intros e' He' Hb'. apply elem_of_app in He' as [He'|He'].
      * now apply Hcool.
      * apply list_elem_of_singleton in He' as ->.
        unfold is_buy in Hb'. congruence.
  - exists (made ++ [e]). simpl. split; [|split].
    + rewrite HL. now rewrite app_assoc.
    + apply (spaced_snoc_buy period (Z.of_nat trade_day) co);
        [exact Hsp|exact Hcool|congruence|congruence].
    + pose proof (lookup_lt_Some _ _ _ Hc) as Hlt.
      intros e' He' Hb'. apply elem_of_app in He' as [He'|He'].
      * destruct (Hcool e' He' Hb') as [Hle Hbound]. split; [exact Hle|].
        intros c Hlook. destruct (decide (stock e' = s)) as [Heq|Hne].
        -- rewrite Heq, list_lookup_insert_eq in Hlook by exact Hlt.
           injection Hlook as <-. lia.
        -- rewrite list_lookup_insert_ne in Hlook by congruence.
           now apply Hbound.
      * apply list_elem_of_singleton in He' as ->. split; [lia|].
        intros c Hlook. rewrite Hs, list_lookup_insert_eq in Hlook by exact Hlt.
        injection Hlook as <-. lia.
Qed.

(** One day of [momentum], counters first and decisions after, takes the
    invariant of the day before to that of the day. *)
Lemma momentum_day_inv (stock_prices : ndarray)
    (T_over T_under amount fees : float) (period : Z)
    (osc : list (list float)) (k N trade_day : nat) (before : list entry)
    (pf co : list Z) (L : list entry) (st' : list Z * list Z * list entry) :
  momentum_inv period before (Z.of_nat trade_day - 1) (pf, co, L) ->
  bind (cool_off_tick period N co)
    (fun co1 =>
       for_each (range 0 N)
         (momentum_body stock_prices T_over T_under amount fees period osc k
            trade_day)
         (pf, co1, L)) = Ok st' ->
  momentum_inv period before (Z.of_nat trade_day) st'.
Proof.
  intros (made & HL & Hsp & Hcool) Hrun. simpl in HL, Hcool.
  bind_inv Hrun. rename a into co1.
  pose proof (cool_off_tick_spec _ _ _ _ Ha) as Htick.
  refine (for_each_ind (momentum_inv period before (Z.of_nat trade_day))
            _ _ _ st' _ _ Hrun).
  - exists made. simpl. split; [exact HL|]. split; [exact Hsp|].
    intros e He Hb. destruct (Hcool e He Hb) as [Hle Hbound].
    split; [lia|]. intros c1 Hc1.
    destruct (Htick _ _ Hc1) as (c & Hc & Hstep).
    specialize (Hbound c Hc). lia.
  - intros s st1 st2 _ Hinv Hbody.
    now apply (momentum_body_inv _ _ _ _ _ _ _ _ _ _ _ _ _ Hinv Hbody).
Qed.

(** C5, as stated, fails.  On prices falling by one a day from 20, with the
    default window of 7 and cool-off of 10 days, [momentum] buys stock 0 on
    day 0 (the purchase of [create_portfolio]) and again on day 8. *)
Lemma momentum_buys_within_cool_off :
  exists portfolio e1 e2 rest,
    momentum (Column (map of_Z (map Z.of_nat (rev (seq 1 20)))))
      "stochastic" 7 (Fin (8 # 10)) (Fin (2 # 10)) (of_Z 5000) (of_Z 20) 10 []
    = Ok (portfolio, e1 :: e2 :: rest) /\
    is_buy e1 /\ is_buy e2 /\ stock e1 = stock e2 /\
    date e1 = 0 /\ date e2 = 8 /\
    (Z.of_nat (date e2) - Z.of_nat (date e1) < 10)%Z.
Proof.
  do 4 eexists. split; [vm_compute; reflexivity|].
  repeat split; reflexivity.
Qed.

(** C5, amended.  In a run of [momentum] that returns, any two purchases of
    the same stock made by the decision loop, that is, all purchases but
    those of day 0 made by [create_portfolio], are at least [cool_off_period]
    days apart. *)
Theorem momentum_cool_off (stock_prices : prices_arg) (osc_type : string)
    (n : nat) (T_over T_under amount fees : float) (cool_off_period : Z)
    (ledger : list entry) (portfolio : list Z) (ledger' : list entry) :
  momentum stock_prices osc_type n T_over T_under amount fees cool_off_period
    ledger = Ok (portfolio, ledger') ->
  exists written,
    ledger' = ledger ++ written /\
    forall i j e1 e2,
      i < j -> written !! i = Some e1 -> written !! j = Some e2 ->
      is_buy e1 -> is_buy e2 -> stock e1 = stock e2 ->
      0 < date e1 ->
      (cool_off_period <= Z.of_nat (date e2) - Z.of_nat (date e1))%Z.
Proof.
  unfold momentum. intros Hrun.
  apply bind_ok in Hrun as ([pf0 L0] & Hcreate & Hrun).
  apply create_portfolio_appends in Hcreate as (init & HL0 & Hinit).
  simpl in HL0.
  apply bind_ok in Hrun as (osc & _ & Hrun).
  apply bind_ok in Hrun as ([[pf1 co1] L1] & Hloop & Hrun).
  apply sell_last_day_appends in Hrun as (last & HL' & Hlast). simpl in HL'.
  set (N := shape1 (as_matrix stock_prices)) in *.
  set (k := n + 3 - 2) in *.
  assert (Hinv : momentum_inv cool_off_period L0
                   (Z.of_nat (k + (shape0 (as_matrix stock_prices) - k)) - 1)
                   (pf1, co1, L1)).
  { refine (for_each_seq_ind
              (fun t st => momentum_inv cool_off_period L0 (Z.of_nat t - 1) st)
              _ _ k _ _ _ _ Hloop).
    - exists []. simpl. split; [now rewrite app_nil_r|].
      split; [apply spaced_nil|]. intros e He. now apply elem_of_nil in He.
    - intros t [[pf co] L] st' _ Hinv Hday.
      replace (Z.of_nat (1 + t) - 1)%Z with (Z.of_nat t) by lia.
      now apply (momentum_day_inv _ _ _ _ _ _ _ _ _ _ _ _ _ _ _ Hinv Hday). }
  destruct Hinv as (made & HL1 & Hsp & _). simpl in HL1.
  exists (init ++ made ++ last). split.
  { rewrite HL', HL1, HL0. now rewrite !app_assoc. }
  intros i j e1 e2 Hij H1 H2 Hb1 Hb2 Hst Hdate.
  assert (Hi : length init <= i).
  { destruct (le_lt_dec (length init) i) as [|Hlt]; [assumption|].
    rewrite lookup_app_l in H1 by exact Hlt.
    rewrite Forall_forall in Hinit.
    assert (date e1 = 0) by (apply Hinit, list_elem_of_lookup; eauto). lia. }
  rewrite lookup_app_r in H1 by exact Hi.
  rewrite lookup_app_r in H2 by lia.
  assert (Hj : j - length init < length made).
  { destruct (le_lt_dec (length made) (j - length init)) as [Hge|];
      [|assumption].
    rewrite lookup_app_r in H2 by exact Hge.
    rewrite Forall_forall in Hlast.
    assert (transaction_type e2 = "sell")
      by (apply Hlast, list_elem_of_lookup; eauto).
    unfold is_buy in Hb2. congruence. }
  rewrite lookup_app_l in H1 by lia. rewrite lookup_app_l in H2 by exact Hj.
  apply (Hsp (i - length init) (j - length init) e1 e2); auto. lia.
Qed.

Lemma momentum_cool_off_witness :
  exists portfolio ledger',
    momentum (Column falling_prices) "stochastic" 7 (Fin (8 # 10))
      (Fin (2 # 10)) (of_Z 5000) (of_Z 20) 10 [] = Ok (portfolio, ledger') /\
    exists written,
      ledger' = [] ++ written /\
      forall i j e1 e2,
        i < j -> written !! i = Some e1 -> written !! j = Some e2 ->
        is_buy e1 -> is_buy e2 -> stock e1 = stock e2 ->
        0 < date e1 ->
        (10 <= Z.of_nat (date e2) - Z.of_nat (date e1))%Z.
Proof.
  do 2 eexists. split.
  - vm_compute. reflexivity.
  - apply (momentum_cool_off (Column falling_prices) "stochastic" 7
             (Fin (8 # 10)) (Fin (2 # 10)) (of_Z 5000) (of_Z 20) 10 []
             [0%Z]).
    vm_compute. reflexivity.
Defined.

Example falling_prices_ledger :
  bind (momentum (Column falling_prices) "stochastic" 7 (Fin (8 # 10))
          (Fin (2 # 10)) (of_Z 5000) (of_Z 20) 10 [])
       (fun st => Ok (ledger_lines (snd st)))
  = Ok [ "buy,0,0,249,20.00,-5000.00"; "buy,8,0,415,12.00,-5000.00";
         "buy,18,0,2490,2.00,-5000.00"; "sell,19,0,3154,1.00,3134.00" ].
Proof. vm_compute. reflexivity. Qed.

(** ** An undefined oscillator level in [momentum] *)

(** The loop of [moving_average] appends nothing from the first [NaN] it
    meets at or after its starting day. *)
Lemma moving_average_loop_stops (average : list float -> result float)
    (l : list float) (n len a j : nat) (ma ma' : list float) :
  l !! j = Some NaN -> a <= j ->
  moving_average_loop average l n (seq a len) ma = Ok ma' ->
  length ma' <= length ma + (j - a).
Proof.
  intros Hj. revert a ma. induction len as [|len IH]; intros a ma Hle Hrun;
    simpl in Hrun.
  - injection Hrun as <-. lia.
  - apply bind_ok in Hrun as (today & Htoday & Hrun). apply index_ok in Htoday.
    destruct (isnan today) eqn:Hnan; simpl in Hrun.
    + injection Hrun as <-. lia.
    + apply bind_ok in Hrun as (avg & _ & Hrun).
      destruct (decide (a = j)) as [->|Hne].
      * rewrite Hj in Htoday. injection Htoday as <-. discriminate.
      * apply IH in Hrun; [|lia]. rewrite length_app in Hrun.
        simpl in Hrun. lia.
Qed.

(** An undefined level at index [j >= 2] of the oscillator series ends the
    smoothed series there, and from the day of that level on [momentum]
    leaves the stock alone, as it does after a company failure. *)
Lemma undefined_level_ends_trading (stock_prices : ndarray)
    (T_over T_under amount fees : float) (period : Z)
    (osc : list (list float)) (stock_osc smoothed : list float)
    (k trade_day j s : nat) (st : list Z * list Z * list entry) :
  2 <= j -> stock_osc !! j = Some NaN ->
  moving_average stock_osc 3 [] = Ok smoothed ->
  osc !! s = Some smoothed ->
  k + (j - 2) <= trade_day ->
  length smoothed <= j - 2 /\
  momentum_body stock_prices T_over T_under amount fees period osc k trade_day
    st s = Ok st.
Proof.
  intros Hj Hnan Hma Hosc Hday.
  assert (Hlen : length smoothed <= j - 2).
  { unfold moving_average, range in Hma.
    apply (moving_average_loop_stops _ _ _ _ _ j) in Hma;
      [simpl in Hma; lia|exact Hnan|simpl; lia]. }
  split; [exact Hlen|].
  destruct st as [[pf co] L]. unfold momentum_body.
  apply index_ok in Hosc. rewrite Hosc. cbn [bind].
  destruct (Z.ltb_spec (Z.of_nat (length smoothed) - 1)
              (Z.of_nat trade_day - Z.of_nat k)); [reflexivity|lia].
Qed.

(** An undefined level among the first two of the oscillator series is not
    tested by the smoothing loop: the smoothed level is [NaN] on day 8, no
    trade is made that day, and trading goes on, with a purchase on day 9
    and a sale on day 14. *)
Example momentum_undefined_first_level_resumes :
  bind (oscillator flat_start_prices 7 "stochastic")
       (fun osc => Ok (osc !! 0)) = Ok (Some NaN) /\
  bind (momentum (Column flat_start_prices) "stochastic" 7 (Fin (8 # 10))
          (Fin (2 # 10)) (of_Z 5000) (of_Z 20) 3 [])
       (fun st => Ok (ledger_lines (snd st)))
  = Ok [ "buy,0,0,996,5.00,-5000.00"; "buy,9,0,2490,2.00,-5000.00";
         "sell,14,0,3486,5.00,17410.00" ].
Proof. split; vm_compute; reflexivity. Qed.

(** C3, which the code does not meet.  An undefined oscillator level should
    suppress trading in the stock on that day only.  The prices below never
    fail; they stay at 5 for seven days, so that the stochastic oscillator
    of window 7 is undefined on day 9 alone, and it is 1, above [T_over], on
    each of the days 10 to 16.  The smoothed series stops at the undefined
    value, and [momentum], holding 1494 shares, makes no trade between the
    purchase of day 8 and the forced sale of the last day. *)
Theorem momentum_undefined_level_stops_trading :
  (NaN ∉ flat_week_prices) /\
  (exists osc,
     oscillator flat_week_prices 7 "stochastic" = Ok osc /\
     length osc = 11 /\
     osc !! 3 = Some NaN /\
     Forall (fun level => fgt level (Fin (8 # 10)) = true) (drop 4 osc) /\
     exists smoothed,
       moving_average osc 3 [] = Ok smoothed /\ length smoothed = 1) /\
  (exists ledger,
     momentum (Column flat_week_prices) "stochastic" 7 (Fin (8 # 10))
       (Fin (2 # 10)) (of_Z 5000) (of_Z 20) 10 [] = Ok ([0%Z], ledger) /\
     ledger_lines ledger =
       [ "buy,0,0,498,10.00,-5000.00";
         "buy,8,0,996,5.00,-5000.00";
         "sell,16,0,1494,12.00,17908.00" ]).
Proof.
  split; [|split].
  - intros H. unfold flat_week_prices in H.
    apply list_elem_of_fmap in H as (z & Hz & _). discriminate.
  - eexists. split; [vm_compute; reflexivity|].
    split; [reflexivity|]. split; [reflexivity|].
    split; [repeat constructor|].
    eexists. split; [vm_compute; reflexivity|reflexivity].
  - eexists. split; [vm_compute; reflexivity|]. vm_compute. reflexivity.
Qed.

(** * Further properties *)

(** ** Runs as sequences of calls to [buy] and [sell] *)

Section trades.
Variables (stock_prices : ndarray) (fees : float).
Variables (funded : float -> Prop) (tradable : nat -> nat -> Prop).

Let step := trade_step stock_prices fees funded tradable.
Let run := trades stock_prices fees funded tradable.

Lemma trades_buy (date stock : nat) (capital : float)
    (st0 : list Z * list entry) (portfolio : list Z) (ledger : list entry)
    (st' : list Z * list entry) :
  run st0 (portfolio, ledger) -> funded capital -> tradable date stock ->
  buy date stock capital stock_prices fees portfolio ledger = Ok st' ->
  run st0 st'.
Proof.
  intros Hrun Hf Ht Hbuy. eapply rtc_r; [exact Hrun|].
  now apply (trade_buy _ _ _ _ date stock capital).
Qed.

Lemma trades_sell (date stock : nat) (st0 : list Z * list entry)
    (portfolio : list Z) (ledger : list entry) (st' : list Z * list entry) :
  run st0 (portfolio, ledger) -> tradable date stock ->
  portfolio !! stock <> Some 0%Z ->
  sell date stock stock_prices fees portfolio ledger = Ok st' ->
  run st0 st'.
Proof.
  intros Hrun Hs Hheld Hsell. eapply rtc_r; [exact Hrun|].
  now apply (trade_sell _ _ _ _ date stock).
Qed.

(** A loop whose iterations are sequences of trades is one. *)
Lemma for_each_trades {A : Type}
    (body : list Z * list entry -> A -> result (list Z * list entry))
    (xs : list A) (st0 st st' : list Z * list entry) :
  (forall x s s', x ∈ xs -> run st0 s -> body s x = Ok s' -> run st0 s') ->
  run st0 st ->
  for_each xs body st = Ok st' ->
  run st0 st'.
Proof.
  intros Hbody Hst Hloop.
  exact (for_each_ind (run st0) body xs st st' Hst Hbody Hloop).
Qed.

(** What a sequence of trades does to the ledger and to the portfolio. *)
Lemma trades_written (portfolio portfolio' : list Z)
    (ledger ledger' : list entry) :
  run (portfolio, ledger) (portfolio', ledger') ->
  exists written,
    ledger' = ledger ++ written /\
    length portfolio' = length portfolio /\
    replay portfolio written = portfolio' /\
    Forall (entry_traded stock_prices fees funded tradable) written.
Proof.
  intros Hrun.
  refine (rtc_ind_r
            (fun st => exists written,
               snd st = ledger ++ written /\
               length (fst st) = length portfolio /\
               replay portfolio written = fst st /\
               Forall (entry_traded stock_prices fees funded tradable) written)
            (portfolio, ledger) _ _ (portfolio', ledger') Hrun).
  - exists []. simpl. rewrite app_nil_r. repeat split. constructor.
  - intros [pf1 L1] [pf2 L2] _ Hstep (written & HL & Hlen & Hrep & Hall).
    simpl in HL, Hlen, Hrep. subst L1.
    inversion Hstep
      as [d s c pf L st' Hf Ht Hbuy|d s pf L st' Ht Hheld Hsell]; subst.
    + apply buy_ok in Hbuy as (p & sh & h & Hp & Hsh & Hh & -> & ->).
      exists (written ++ [buy_entry d s sh p fees]). simpl.
      split; [now rewrite app_assoc|].
      split; [now rewrite length_insert|].
      split.
      * unfold replay. rewrite foldl_snoc. fold (replay portfolio written).
        unfold replay_entry. simpl. now rewrite Hh.
      * apply Forall_app. split; [exact Hall|]. constructor; [|constructor].
        split; [exact Hp|]. split; [exact Ht|]. left. simpl.
        split; [reflexivity|]. split.
        { destruct p as [q|]; [reflexivity|].
          destruct (fsub c fees); discriminate. }
        split; [reflexivity|]. exists c. auto.
    + apply sell_ok in Hsell as (p & h & Hp & Hh & -> & ->).
      exists (written ++ [sell_entry d s h p fees]). simpl.
      split; [now rewrite app_assoc|].
      split; [now rewrite length_insert|].
      split.
      * unfold replay. rewrite foldl_snoc. reflexivity.
      * apply Forall_app. split; [exact Hall|]. constructor; [|constructor].
        split; [exact Hp|]. split; [exact Ht|]. right. simpl.
        repeat split; auto. intros ->. now apply Hheld.
Qed.

End trades.

Lemma trades_weaken (stock_prices : ndarray) (fees : float)
    (funded funded' : float -> Prop) (tradable tradable' : nat -> nat -> Prop)
    (st st' : list Z * list entry) :
  (forall c, funded c -> funded' c) ->
  (forall d s, tradable d s -> tradable' d s) ->
  trades stock_prices fees funded tradable st st' ->
  trades stock_prices fees funded' tradable' st st'.
Proof.
  intros Hf Hs Hrun. induction Hrun as [|st st1 st2 Hstep _ IH].
  - apply rtc_refl.
  - eapply rtc_l; [|exact IH].
    destruct Hstep
      as [d s c pf L st' Hc Hd Hbuy|d s pf L st' Hd Hheld Hsell].
    + apply (trade_buy _ _ _ _ d s c); auto.
    + apply (trade_sell _ _ _ _ d s); auto.
Qed.

(** A purchase that returns was made at a price that is a number. *)
Lemma buy_priced (date stock : nat) (capital : float) (stock_prices : ndarray)
    (fees : float) (portfolio : list Z) (ledger : list entry)
    (st' : list Z * list entry) :
  buy date stock capital stock_prices fees portfolio ledger = Ok st' ->
  priced stock_prices date stock.
Proof.
  destruct st' as [pf' L']. intros Hbuy.
  apply buy_ok in Hbuy as (p & sh & h & Hp & Hsh & _).
  exists p. split; [exact Hp|].
  destruct p as [q|]; [reflexivity|]. destruct (fsub capital fees); discriminate.
Qed.

(** [create_portfolio] is a sequence of purchases on day 0, each with one of
    the amounts offered. *)
Lemma create_portfolio_trades (amounts : list float) (stock_prices : ndarray)
    (fees : float) (tradable : nat -> nat -> Prop) (ledger : list entry)
    (st' : list Z * list entry) :
  (forall s, priced stock_prices 0 s -> tradable 0 s) ->
  create_portfolio amounts stock_prices fees ledger = Ok st' ->
  trades stock_prices fees (fun c => c ∈ amounts) tradable
    (repeat 0%Z (shape1 stock_prices), ledger) st'.
Proof.
  unfold create_portfolio. intros Htradable Hrun.
  refine (for_each_trades _ _ _ _ _ _ _ _ _ _ (rtc_refl _ _) Hrun).
  intros i [pf L] s' _ Hs Hbody.
  apply bind_ok in Hbody as (c & Hc & Hbuy). apply index_ok in Hc.
  apply (trades_buy _ _ _ _ 0 i c _ pf L); [exact Hs| | |exact Hbuy].
  - apply list_elem_of_lookup. eauto.
  - apply Htradable. now apply buy_priced in Hbuy.
Qed.

(** The closing loop sells on the last day, at prices that are numbers. *)
Lemma sell_last_day_trades (stock_prices : ndarray) (fees : float)
    (funded : float -> Prop) (tradable : nat -> nat -> Prop) (days N : nat)
    (st0 st st' : list Z * list entry) :
  (forall s, priced stock_prices (days - 1) s -> tradable (days - 1) s) ->
  trades stock_prices fees funded tradable st0 st ->
  sell_last_day stock_prices fees days N st = Ok st' ->
  trades stock_prices fees funded tradable st0 st'.
Proof.
  unfold sell_last_day. intros Htradable Hst Hrun.
  refine (for_each_trades _ _ _ _ _ _ _ _ _ _ Hst Hrun).
  intros s [pf L] s' _ Hs Hbody.
  apply bind_ok in Hbody as (last & Hlast & Hbody).
  destruct (isnan last) eqn:Hnan; simpl in Hbody.
  - now injection Hbody as <-.
  - apply bind_ok in Hbody as (held & Hheld & Hbody). apply index_ok in Hheld.
    destruct (Z.eqb_spec held 0); simpl in Hbody; [now injection Hbody as <-|].
    apply (trades_sell _ _ _ _ (days - 1) s _ pf L);
      [exact Hs| |congruence|exact Hbody].
    apply Htradable. exists last. auto.
Qed.

Lemma funded_repeat (amount c : float) (N : nat) :
  c ∈ repeat amount N -> c = amount.
Proof.
  intros H. apply list_elem_of_In in H. now apply repeat_spec in H.
Qed.

(** The days of [range(start, stop, step)]. *)
Lemma range_from_elem (fuel start stop step x : nat) :
  x ∈ range_from fuel start stop step ->
  exists i, x = start + i * step /\ x < stop.
Proof.
  revert start. induction fuel as [|fuel IH]; intros start Hx; simpl in Hx.
  - inversion Hx.
  - destruct (Nat.ltb_spec start stop) as [Hlt|]; [|inversion Hx].
    apply elem_of_cons in Hx as [->|Hx].
    + exists 0. split; [lia|exact Hlt].
    + apply IH in Hx as (i & -> & Hi). exists (S i). split; [lia|exact Hi].
Qed.

(** A run of [random] is a sequence of purchases with [amount] and of sales,
    at prices that are numbers and on the days of [random_day]. *)
Lemma random_trades (rng : nat -> nat -> Z) (stock_prices : prices_arg)
    (period : nat) (amount fees : float) (ledger : list entry)
    (st' : list Z * list entry) :
  random rng stock_prices period amount fees ledger = Ok st' ->
  trades (as_matrix stock_prices) fees (fun c => c = amount)
    (fun d s =>
       priced (as_matrix stock_prices) d s /\
       random_day period (shape0 (as_matrix stock_prices)) d)
    (repeat 0%Z (shape1 (as_matrix stock_prices)), ledger) st'.
Proof.
  unfold random. intros Hrun.
  apply bind_ok in Hrun as (st1 & Hcreate & Hrun).
  apply bind_ok in Hrun as (trade_days & Hdays & Hrun).
  apply bind_ok in Hrun as (st2 & Hloop & Hrun).
  set (prices := as_matrix stock_prices) in *.
  set (tradable := fun d s : nat =>
         priced prices d s /\ random_day period (shape0 prices) d).
  apply (create_portfolio_trades _ _ _ tradable) in Hcreate;
    [|intros s Hs; split; [exact Hs|now left]].
  apply (trades_weaken _ _ _ (fun c => c = amount) _ _ _ _
           (fun c => funded_repeat amount c _) (fun _ _ H => H)) in Hcreate.
  refine (sell_last_day_trades _ _ _ _ _ _ _ st2 _ _ _ Hrun);
    [intros s Hs; split; [exact Hs|right; now right]|].
  refine (for_each_trades _ _ _ _ _ _ _ _ _ _ Hcreate Hloop).
  intros trade_day s s' Hin Hs Hday.
  assert (Hsched : random_day period (shape0 prices) trade_day).
  { unfold range_step in Hdays. destruct (period =? 0); [discriminate|].
    injection Hdays as <-. apply range_from_elem in Hin as (i & -> & _).
    right. left. exists (S i). split; lia. }
  refine (for_each_trades _ _ _ _ _ _ _ _ _ _ Hs Hday).
  clear -Hsched. intros stock [pf L] s' _ Hs Hbody.
  unfold random_body in Hbody.
  destruct (_ =? 1)%Z.
  - apply bind_ok in Hbody as (today & Htoday & Hbody).
    destruct (isnan today) eqn:Hnan; simpl in Hbody;
      [now injection Hbody as <-|].
    apply (trades_buy _ _ _ _ trade_day stock amount _ pf L);
      [exact Hs|reflexivity| |exact Hbody].
    split; [|exact Hsched]. exists today. auto.
  - destruct (_ =? 0)%Z; [now injection Hbody as <-|].
    apply bind_ok in Hbody as (today & Htoday & Hbody).
    destruct (isnan today) eqn:Hnan; simpl in Hbody;
      [now injection Hbody as <-|].
    apply bind_ok in Hbody as (held & Hheld & Hbody). apply index_ok in Hheld.
    destruct (Z.eqb_spec held 0); simpl in Hbody; [now injection Hbody as <-|].
    apply (trades_sell _ _ _ _ trade_day stock _ pf L);
      [exact Hs| |congruence|exact Hbody].
    split; [|exact Hsched]. exists today. auto.
Qed.

(** One decision of [crossing_averages] is at most one trade. *)
Lemma crossing_body_trades (stock_prices : ndarray) (m n : nat)
    (amount fees : float) (SMA FMA : list (list float)) (trade_day : nat)
    (tradable : nat -> nat -> Prop)
    (st0 st st' : list Z * list entry) (stock_number : nat) :
  tradable trade_day stock_number ->
  trades stock_prices fees (fun c => c = amount) tradable st0 st ->
  crossing_body stock_prices m n amount fees SMA FMA trade_day st stock_number
    = Ok st' ->
  trades stock_prices fees (fun c => c = amount) tradable st0 st'.
Proof.
  destruct st as [pf L]. unfold crossing_body. intros Ht Hs Hbody.
  apply bind_ok in Hbody as (sma & _ & Hbody).
  destruct (_ <? _)%Z; [now injection Hbody as <-|].
  apply bind_ok in Hbody as (fma & _ & Hbody).
  apply bind_ok in Hbody as (fast & _ & Hbody).
  apply bind_ok in Hbody as (slow & _ & Hbody).
  apply bind_ok in Hbody as (from_below & _ & Hbody).
  destruct from_below.
  - now apply (trades_buy _ _ _ _ trade_day stock_number amount _ pf L).
  - apply bind_ok in Hbody as (from_above & _ & Hbody).
    destruct from_above; [|now injection Hbody as <-].
    apply bind_ok in Hbody as (held & Hheld & Hbody). apply index_ok in Hheld.
    destruct (Z.eqb_spec held 0); simpl in Hbody; [now injection Hbody as <-|].
    apply (trades_sell _ _ _ _ trade_day stock_number _ pf L);
      [exact Hs|exact Ht|congruence|exact Hbody].
Qed.

(** A run of [crossing_averages] is a sequence of trades on the days of
    [indicator_day]. *)
Lemma crossing_averages_trades (stock_prices : prices_arg) (m n : nat)
    (amount fees : float) (ledger : list entry) (st' : list Z * list entry) :
  crossing_averages stock_prices m n amount fees ledger = Ok st' ->
  trades (as_matrix stock_prices) fees (fun c => c = amount)
    (fun d _ => indicator_day n (shape0 (as_matrix stock_prices)) d)
    (repeat 0%Z (shape1 (as_matrix stock_prices)), ledger) st'.
Proof.
  unfold crossing_averages. intros Hrun.
  apply bind_ok in Hrun as (st1 & Hcreate & Hrun).
  apply bind_ok in Hrun as ([SMA FMA] & _ & Hrun).
  apply bind_ok in Hrun as (st2 & Hloop & Hrun).
  set (prices := as_matrix stock_prices) in *.
  set (tradable := fun (d : nat) (_ : nat) =>
         indicator_day n (shape0 prices) d).
  apply (create_portfolio_trades _ _ _ tradable) in Hcreate;
    [|intros s _; now left].
  apply (trades_weaken _ _ _ (fun c => c = amount) _ _ _ _
           (fun c => funded_repeat amount c _) (fun _ _ H => H)) in Hcreate.
  refine (sell_last_day_trades _ _ _ _ _ _ _ st2 _ _ _ Hrun);
    [intros s _; right; now right|].
  refine (for_each_trades _ _ _ _ _ _ _ _ _ _ Hcreate Hloop).
  intros trade_day s s' Hin Hs Hday.
  unfold range in Hin. apply elem_of_seq in Hin.
  refine (for_each_trades _ _ _ _ _ _ _ _ _ _ Hs Hday).
  intros stock s1 s2 _. apply crossing_body_trades.
  right. left. lia.
Qed.

(** One decision of [momentum] is at most one trade, made only on a day that
    the smoothed series of the stock reaches. *)
Lemma momentum_body_trades (stock_prices : ndarray)
    (T_over T_under amount fees : float) (period : Z)
    (osc : list (list float)) (k trade_day : nat)
    (tradable : nat -> nat -> Prop) (st0 : list Z * list entry)
    (pf co : list Z) (L : list entry) (pf' co' : list Z) (L' : list entry)
    (s : nat) :
  k <= trade_day ->
  (forall smoothed,
     osc !! s = Some smoothed -> trade_day - k < length smoothed ->
     tradable trade_day s) ->
  trades stock_prices fees (fun c => c = amount) tradable st0 (pf, L) ->
  momentum_body stock_prices T_over T_under amount fees period osc k trade_day
    (pf, co, L) s = Ok (pf', co', L') ->
  trades stock_prices fees (fun c => c = amount) tradable st0 (pf', L').
Proof.
  unfold momentum_body. intros Hk Hreach Hs Hbody.
  apply bind_ok in Hbody as (smoothed & Hsm & Hbody). apply index_ok in Hsm.
  destruct (Z.ltb_spec (Z.of_nat (length smoothed) - 1)
              (Z.of_nat trade_day - Z.of_nat k)) as [|Hin];
    [now injection Hbody as <- _ <-|].
  assert (Ht : tradable trade_day s) by (apply (Hreach smoothed Hsm); lia).
  apply bind_ok in Hbody as (level & _ & Hbody).
  apply bind_ok in Hbody as (overvalued & Hover & Hbody).
  destruct overvalued.
  - apply bind_ok in Hbody as ([pf1 L1] & Hsell & Hbody).
    injection Hbody as <- _ <-.
    destruct (fgt level T_over); [|discriminate].
    apply bind_ok in Hover as (held & Hheld & Hover). apply index_ok in Hheld.
    destruct (Z.eqb_spec held 0); [discriminate|].
    apply (trades_sell _ _ _ _ trade_day s _ pf L);
      [exact Hs|exact Ht|congruence|exact Hsell].
  - apply bind_ok in Hbody as (undervalued & _ & Hbody).
    destruct undervalued; [|now injection Hbody as <- _ <-].
    apply bind_ok in Hbody as ([pf1 L1] & Hbuy & Hbody).
    apply bind_ok in Hbody as (co1 & _ & Hbody). injection Hbody as <- _ <-.
    now apply (trades_buy _ _ _ _ trade_day s amount _ pf L).
Qed.

(** The decision loop of [momentum] is a sequence of trades. *)
Lemma momentum_loop_trades (stock_prices : ndarray)
    (T_over T_under amount fees : float) (period : Z)
    (osc : list (list float)) (k N days : nat)
    (tradable : nat -> nat -> Prop) (st0 : list Z * list entry)
    (st st' : list Z * list Z * list entry) :
  (forall trade_day s smoothed,
     osc !! s = Some smoothed -> trade_day - k < length smoothed ->
     k <= trade_day -> tradable trade_day s) ->
  trades stock_prices fees (fun c => c = amount) tradable st0
    (fst (fst st), snd st) ->
  for_each (range k days)
    (fun '(portfolio, cool_off, ledger) trade_day =>
       bind (cool_off_tick period N cool_off)
         (fun cool_off =>
            for_each (range 0 N)
              (momentum_body stock_prices T_over T_under amount fees period
                 osc k trade_day)
              (portfolio, cool_off, ledger)))
    st = Ok st' ->
  trades stock_prices fees (fun c => c = amount) tradable st0
    (fst (fst st'), snd st').
Proof.
  intros Hreach Hst Hloop. unfold range in Hloop.
  refine (for_each_seq_ind
            (fun _ (s : list Z * list Z * list entry) =>
               trades stock_prices fees (fun c => c = amount) tradable st0
                 (fst (fst s), snd s))
            _ _ k st st' Hst _ Hloop).
  intros t [[pf co] L] s' Ht Hs Hday.
  apply bind_ok in Hday as (co1 & _ & Hday).
  refine (for_each_ind
            (fun s : list Z * list Z * list entry =>
               trades stock_prices fees (fun c => c = amount) tradable st0
                 (fst (fst s), snd s))
            _ _ (pf, co1, L) s' Hs _ Hday).
  intros stock [[pf1 co2] L1] [[pf2 co3] L2] _ Hs1 Hbody. simpl in *.
  assert (Hk : k <= t) by lia.
  exact (momentum_body_trades _ _ _ _ _ _ _ _ _ _ _ _ _ _ _ _ _ _ Hk
           (fun sm Hsm Hlt => Hreach t stock sm Hsm Hlt Hk) Hs1 Hbody).
Qed.

(** A run of [momentum] is a sequence of trades on the days of
    [indicator_day]. *)
Lemma momentum_trades (stock_prices : prices_arg) (osc_type : string)
    (n : nat) (T_over T_under amount fees : float) (cool_off_period : Z)
    (ledger : list entry) (st' : list Z * list entry) :
  momentum stock_prices osc_type n T_over T_under amount fees cool_off_period
    ledger = Ok st' ->
  trades (as_matrix stock_prices) fees (fun c => c = amount)
    (fun d _ => indicator_day n (shape0 (as_matrix stock_prices)) d)
    (repeat 0%Z (shape1 (as_matrix stock_prices)), ledger) st'.
Proof.
  unfold momentum. intros Hrun.
  apply bind_ok in Hrun as ([pf0 L0] & Hcreate & Hrun).
  apply bind_ok in Hrun as (osc & _ & Hrun).
  apply bind_ok in Hrun as ([[pf1 co1] L1] & Hloop & Hrun).
  set (prices := as_matrix stock_prices) in *.
  set (tradable := fun (d : nat) (_ : nat) =>
         indicator_day n (shape0 prices) d).
  apply (create_portfolio_trades _ _ _ tradable) in Hcreate;
    [|intros s _; now left].
  apply (trades_weaken _ _ _ (fun c => c = amount) _ _ _ _
           (fun c => funded_repeat amount c _) (fun _ _ H => H)) in Hcreate.
  assert (Hreach : forall trade_day s (smoothed : list float),
            osc !! s = Some smoothed -> trade_day - (n + 3 - 2) < length smoothed ->
            n + 3 - 2 <= trade_day -> tradable trade_day s).
  { intros trade_day s smoothed _ _ Hk. right. left. lia. }
  pose proof (momentum_loop_trades prices T_over T_under amount fees
                cool_off_period osc (n + 3 - 2) (shape1 prices)
                (shape0 prices) tradable
                (repeat 0%Z (shape1 prices), ledger)
                (pf0, repeat cool_off_period (shape1 prices), L0)
                (pf1, co1, L1) Hreach Hcreate Hloop) as Htrades.
  refine (sell_last_day_trades _ _ _ _ _ _ _ _ _ _ Htrades Hrun).
  intros s _. right. now right.
Qed.

(** ** The ledger and the portfolio of a run *)

Lemma trades_accounted (stock_prices : ndarray) (fees : float)
    (funded : float -> Prop) (tradable : nat -> nat -> Prop) (N : nat)
    (ledger : list entry) (portfolio : list Z) (ledger' : list entry) :
  trades stock_prices fees funded tradable (repeat 0%Z N, ledger)
    (portfolio, ledger') ->
  accounted N ledger ledger' portfolio.
Proof.
  intros Hrun. apply trades_written in Hrun as (written & HL & Hlen & Hrep & _).
  exists written. rewrite repeat_length in Hlen. auto.
Qed.

(** X1.  A run of [random], [crossing_averages] or [momentum] that returns
    has only appended to the ledger, and the portfolio it returns, of one
    holding per stock, is what the appended entries give when they are
    replayed in order on empty holdings: a purchase adds its shares to the
    holding of its stock, a sale empties it. *)
Theorem strategy_ledger_accounts_for_portfolio (stock_prices : prices_arg)
    (amount fees : float) (ledger : list entry) (portfolio : list Z)
    (ledger' : list entry) :
  let N := shape1 (as_matrix stock_prices) in
  (forall rng period,
     random rng stock_prices period amount fees ledger
       = Ok (portfolio, ledger') ->
     accounted N ledger ledger' portfolio) /\
  (forall m n,
     crossing_averages stock_prices m n amount fees ledger
       = Ok (portfolio, ledger') ->
     accounted N ledger ledger' portfolio) /\
  (forall osc_type n T_over T_under cool_off_period,
     momentum stock_prices osc_type n T_over T_under amount fees
       cool_off_period ledger = Ok (portfolio, ledger') ->
     accounted N ledger ledger' portfolio).
Proof.
  intros N. split; [|split].
  - intros rng period Hrun. apply random_trades in Hrun.
    now apply trades_accounted in Hrun.
  - intros m n Hrun. apply crossing_averages_trades in Hrun.
    now apply trades_accounted in Hrun.
  - intros osc_type n T_over T_under period Hrun.
    apply momentum_trades in Hrun. now apply trades_accounted in Hrun.
Qed.

Lemma strategy_ledger_accounts_for_portfolio_witness :
  exists portfolio ledger',
    random (fun _ _ => 1%Z) two_stocks 1 (of_Z 100) (of_Z 20) []
      = Ok (portfolio, ledger') /\
    accounted 2 [] ledger' portfolio.
Proof.
  do 2 eexists. split.
  - vm_compute. reflexivity.
  - refine (proj1 (strategy_ledger_accounts_for_portfolio two_stocks
                     (of_Z 100) (of_Z 20) [] _ _) (fun _ _ => 1%Z) 1 _).
    vm_compute. reflexivity.
Defined.

Lemma trades_quoted (stock_prices : ndarray) (fees : float)
    (funded : float -> Prop) (tradable : nat -> nat -> Prop)
    (portfolio portfolio' : list Z) (ledger ledger' : list entry) :
  trades stock_prices fees funded tradable (portfolio, ledger)
    (portfolio', ledger') ->
  all_written (entry_quoted stock_prices fees) ledger ledger'.
Proof.
  intros Hrun. apply trades_written in Hrun as (written & HL & _ & _ & Hall).
  exists written. split; [exact HL|].
  eapply Forall_impl; [exact Hall|].
  intros e [Hp [_ [(Hty & _ & Hcash & _)|(Hty & Hcash & _)]]];
    (split; [exact Hp|]); [left|right]; auto.
Qed.

(** X2.  Every entry that a run of [random], [crossing_averages] or
    [momentum] appends to the ledger names a day and a stock of the price
    array and quotes the price found there; it is a purchase with cash flow
    [-(shares * price + fees)] or a sale with cash flow
    [shares * price - fees]. *)
Theorem strategy_entries_quote_the_prices (stock_prices : prices_arg)
    (amount fees : float) (ledger : list entry) (portfolio : list Z)
    (ledger' : list entry) :
  let quoted := entry_quoted (as_matrix stock_prices) fees in
  (forall rng period,
     random rng stock_prices period amount fees ledger
       = Ok (portfolio, ledger') ->
     all_written quoted ledger ledger') /\
  (forall m n,
     crossing_averages stock_prices m n amount fees ledger
       = Ok (portfolio, ledger') ->
     all_written quoted ledger ledger') /\
  (forall osc_type n T_over T_under cool_off_period,
     momentum stock_prices osc_type n T_over T_under amount fees
       cool_off_period ledger = Ok (portfolio, ledger') ->
     all_written quoted ledger ledger').
Proof.
  intros quoted. split; [|split].
  - intros rng period Hrun. apply random_trades in Hrun.
    now apply trades_quoted in Hrun.
  - intros m n Hrun. apply crossing_averages_trades in Hrun.
    now apply trades_quoted in Hrun.
  - intros osc_type n T_over T_under period Hrun.
    apply momentum_trades in Hrun. now apply trades_quoted in Hrun.
Qed.

Lemma strategy_entries_quote_the_prices_witness :
  exists portfolio ledger',
    momentum (Column falling_prices) "stochastic" 7 (Fin (8 # 10))
      (Fin (2 # 10)) (of_Z 5000) (of_Z 20) 10 [] = Ok (portfolio, ledger') /\
    all_written (entry_quoted (as_matrix (Column falling_prices)) (of_Z 20))
      [] ledger'.
Proof.
  do 2 eexists. split.
  - vm_compute. reflexivity.
  - refine (proj2 (proj2 (strategy_entries_quote_the_prices
                            (Column falling_prices) (of_Z 5000) (of_Z 20) []
                            _ _))
              "stochastic" 7 (Fin (8 # 10)) (Fin (2 # 10)) 10%Z _).
    vm_compute. reflexivity.
Defined.

(** X3.  [random] never records a price that is not a number: every entry
    that a run appends to the ledger, from [create_portfolio] to the sale of
    the last day, has a price other than [NaN]. *)
Theorem random_never_trades_at_nan (rng : nat -> nat -> Z)
    (stock_prices : prices_arg) (period : nat) (amount fees : float)
    (ledger : list entry) (portfolio : list Z) (ledger' : list entry) :
  random rng stock_prices period amount fees ledger = Ok (portfolio, ledger') ->
  all_written (fun e => isnan (price e) = false) ledger ledger'.
Proof.
  intros Hrun. apply random_trades in Hrun.
  apply trades_written in Hrun as (written & HL & _ & _ & Hall).
  exists written. split; [exact HL|].
  eapply Forall_impl; [exact Hall|].
  intros e [Hp [Ht [(_ & Hnan & _)|_]]]; [exact Hnan|].
  destruct Ht as [(p & Hp' & Hnan) _]. congruence.
Qed.

Lemma random_never_trades_at_nan_witness :
  exists portfolio ledger',
    random (fun _ _ => (-1)%Z) two_stocks 1 (of_Z 100) (of_Z 20) []
      = Ok (portfolio, ledger') /\
    all_written (fun e => isnan (price e) = false) [] ledger'.
Proof.
  do 2 eexists. split.
  - vm_compute. reflexivity.
  - refine (random_never_trades_at_nan (fun _ _ => (-1)%Z) two_stocks 1
              (of_Z 100) (of_Z 20) [] _ _ _).
    vm_compute. reflexivity.
Defined.

(** ** Holdings are never negative *)

Lemma py_int_nonneg (capital fees price : Q) (shares : Z) :
  (fees <= capital)%Q -> (0 < price)%Q ->
  py_int (fdiv (fsub (Fin capital) (Fin fees)) (Fin price)) = Ok shares ->
  (0 <= shares)%Z.
Proof.
  intros Hcover Hpos. unfold fsub, fdiv.
  rewrite (Qeq_bool_false_pos price Hpos). unfold py_int.
  assert (Hq : (0 <= (capital - fees) / price)%Q).
  { apply Qle_shift_div_l; [exact Hpos|]. lra. }
  rewrite (quot_is_floor _ Hq). intros Hshares.
  assert (Hfl : shares = Qfloor ((capital - fees) / price)) by congruence.
  rewrite Hfl. change 0%Z with (Qfloor 0). now apply Qfloor_resp_le.
Qed.

Lemma trades_nonneg (stock_prices : ndarray) (capital fees : Q)
    (tradable : nat -> nat -> Prop) (portfolio portfolio' : list Z)
    (ledger ledger' : list entry) :
  positive_prices stock_prices -> (fees <= capital)%Q ->
  Forall (fun h => (0 <= h)%Z) portfolio ->
  trades stock_prices (Fin fees) (fun c => c = Fin capital) tradable
    (portfolio, ledger) (portfolio', ledger') ->
  Forall (fun h => (0 <= h)%Z) portfolio' /\
  all_written (fun e => (0 <= number_of_shares e)%Z) ledger ledger'.
Proof.
  intros Hprices Hcover Hpf Hrun.
  refine (rtc_ind_r
            (fun st =>
               Forall (fun h => (0 <= h)%Z) (fst st) /\
               all_written (fun e => (0 <= number_of_shares e)%Z) ledger
                 (snd st))
            (portfolio, ledger) _ _ (portfolio', ledger') Hrun).
  - split; [exact Hpf|]. exists []. simpl. now rewrite app_nil_r.
  - intros [pf1 L1] [pf2 L2] _ Hstep (Hpf1 & written & HL & Hall).
    simpl in Hpf1, HL. subst L1. simpl.
    inversion Hstep
      as [d s c pf L st' Hf Ht Hbuy|d s pf L st' Hs Hheld Hsell]; subst.
    + apply buy_ok in Hbuy as (p & sh & h & Hp & Hsh & Hh & -> & ->).
      assert (Hsh0 : (0 <= sh)%Z).
      { destruct p as [p|]; [|discriminate].
        apply (py_int_nonneg capital fees p sh Hcover); [|exact Hsh].
        now apply (Hprices d s). }
      assert (Hh0 : (0 <= h)%Z).
      { rewrite Forall_forall in Hpf1. apply Hpf1.
        apply list_elem_of_lookup. eauto. }
      split.
      * apply Forall_insert; [exact Hpf1|lia].
      * exists (written ++ [buy_entry d s sh p (Fin fees)]).
        split; [now rewrite app_assoc|].
        apply Forall_app. split; [exact Hall|]. now repeat constructor.
    + apply sell_ok in Hsell as (p & h & Hp & Hh & -> & ->).
      assert (Hh0 : (0 <= h)%Z).
      { rewrite Forall_forall in Hpf1. apply Hpf1.
        apply list_elem_of_lookup. eauto. }
      split.
      * apply Forall_insert; [exact Hpf1|lia].
      * exists (written ++ [sell_entry d s h p (Fin fees)]).
        split; [now rewrite app_assoc|].
        apply Forall_app. split; [exact Hall|]. now repeat constructor.
Qed.

Lemma Forall_repeat_zero (N : nat) : Forall (fun h => (0 <= h)%Z) (repeat 0%Z N).
Proof. induction N; simpl; constructor; [lia|assumption]. Qed.

(** X4.  When every number of the price array is positive and the amount
    offered to each purchase covers the fees, a run of [random],
    [crossing_averages] or [momentum] that returns never buys or sells a
    negative number of shares, and no holding of the portfolio it returns is
    negative. *)
Theorem strategy_holdings_never_negative (stock_prices : prices_arg)
    (amount fees : Q) (ledger : list entry) (portfolio : list Z)
    (ledger' : list entry) :
  positive_prices (as_matrix stock_prices) ->
  (fees <= amount)%Q ->
  let sound :=
    Forall (fun h => (0 <= h)%Z) portfolio /\
    all_written (fun e => (0 <= number_of_shares e)%Z) ledger ledger' in
  (forall rng period,
     random rng stock_prices period (Fin amount) (Fin fees) ledger
       = Ok (portfolio, ledger') -> sound) /\
  (forall m n,
     crossing_averages stock_prices m n (Fin amount) (Fin fees) ledger
       = Ok (portfolio, ledger') -> sound) /\
  (forall osc_type n T_over T_under cool_off_period,
     momentum stock_prices osc_type n T_over T_under (Fin amount) (Fin fees)
       cool_off_period ledger = Ok (portfolio, ledger') -> sound).
Proof.
  intros Hprices Hcover sound. split; [|split].
  - intros rng period Hrun. apply random_trades in Hrun.
    apply (trades_nonneg _ _ _ _ _ _ _ _ Hprices Hcover
             (Forall_repeat_zero _) Hrun).
  - intros m n Hrun. apply crossing_averages_trades in Hrun.
    apply (trades_nonneg _ _ _ _ _ _ _ _ Hprices Hcover
             (Forall_repeat_zero _) Hrun).
  - intros osc_type n T_over T_under period Hrun.
    apply momentum_trades in Hrun.
    apply (trades_nonneg _ _ _ _ _ _ _ _ Hprices Hcover
             (Forall_repeat_zero _) Hrun).
Qed.

Lemma positive_prices_two_stocks : positive_prices (as_matrix two_stocks).
Proof.
  intros d s p H. apply getitem_ok in H as (r & Hr & Hp).
  destruct d as [|[|[|d]]]; simpl in Hr; try discriminate;
    injection Hr as <-;
    destruct s as [|[|s]]; simpl in Hp; try discriminate;
    injection Hp as <-; reflexivity.
Qed.

Lemma strategy_holdings_never_negative_witness :
  exists portfolio ledger',
    random (fun _ _ => 1%Z) two_stocks 1 (Fin 100) (Fin 20) []
      = Ok (portfolio, ledger') /\
    Forall (fun h => (0 <= h)%Z) portfolio /\
    all_written (fun e => (0 <= number_of_shares e)%Z) [] ledger'.
Proof.
  do 2 eexists. split.
  - vm_compute. reflexivity.
  - refine (proj1 (strategy_holdings_never_negative two_stocks 100 20 [] _ _
                     positive_prices_two_stocks _) (fun _ _ => 1%Z) 1 _).
    + vm_compute. discriminate.
    + vm_compute. reflexivity.
Defined.

(** ** The values of the indicators *)

Lemma days_before_failure_drop (l : list float) (a : nat) (x : float) :
  l !! a = Some x ->
  days_before_failure (drop a l)
  = if isnan x then 0 else 1 + days_before_failure (drop (S a) l).
Proof.
  intros Hx. rewrite (drop_S l x a Hx). now destruct x.
Qed.

(** The closed form of the loop of [moving_average]: one value per day up
    to the first day whose price is [NaN]. *)
Lemma moving_average_loop_closed (average : list float -> result float)
    (l : list float) (n len a : nat) (ma ma' : list float) :
  a + len = length l ->
  moving_average_loop average l n (seq a len) ma = Ok ma' ->
  exists values,
    ma' = ma ++ values /\
    length values = days_before_failure (drop a l) /\
    forall j v, values !! j = Some v ->
      average (slice l (a + j + 1 - n) (a + j + 1)) = Ok v.
Proof.
  revert a ma. induction len as [|len IH]; intros a ma Hlen Hrun; simpl in Hrun.
  - injection Hrun as <-. exists []. rewrite app_nil_r.
    rewrite drop_ge by lia. repeat split. intros j v H. discriminate.
  - apply bind_ok in Hrun as (today & Htoday & Hrun). apply index_ok in Htoday.
    rewrite (days_before_failure_drop l a today Htoday).
    destruct (isnan today); simpl in Hrun.
    + injection Hrun as <-. exists []. rewrite app_nil_r.
      repeat split. intros j v H. discriminate.
    + apply bind_ok in Hrun as (v0 & Hv0 & Hrun).
      apply IH in Hrun as (values & -> & Hvalues & Hwin); [|lia].
      exists (v0 :: values). split; [now rewrite <- app_assoc|].
      split; [simpl; lia|].
      intros [|j] v Hj; simpl in Hj.
      * injection Hj as <-. now rewrite Nat.add_0_r.
      * replace (a + S j) with (S a + j) by lia. now apply Hwin.
Qed.

Lemma oscillator_loop_closed (value : nat -> result float)
    (l : list float) (len a : nat) (osc osc' : list float) :
  a + len = length l ->
  oscillator_loop value l (seq a len) osc = Ok osc' ->
  exists values,
    osc' = osc ++ values /\
    length values = days_before_failure (drop a l) /\
    forall j v, values !! j = Some v -> value (a + j) = Ok v.
Proof.
  revert a osc. induction len as [|len IH]; intros a osc Hlen Hrun;
    simpl in Hrun.
  - injection Hrun as <-. exists []. rewrite app_nil_r.
    rewrite drop_ge by lia. repeat split. intros j v H. discriminate.
  - apply bind_ok in Hrun as (today & Htoday & Hrun). apply index_ok in Htoday.
    rewrite (days_before_failure_drop l a today Htoday).
    destruct (isnan today); simpl in Hrun.
    + injection Hrun as <-. exists []. rewrite app_nil_r.
      repeat split. intros j v H. discriminate.
    + apply bind_ok in Hrun as (v0 & Hv0 & Hrun).
      apply IH in Hrun as (values & -> & Hvalues & Hwin); [|lia].
      exists (v0 :: values). split; [now rewrite <- app_assoc|].
      split; [simpl; lia|].
      intros [|j] v Hj; simpl in Hj.
      * injection Hj as <-. now rewrite Nat.add_0_r.
      * replace (a + S j) with (S a + j) by lia. now apply Hwin.
Qed.

Lemma days_before_failure_unique (l : list float) (k : nat) :
  (forall i, i < k -> exists q, l !! i = Some (Fin q)) ->
  k = length l \/ l !! k = Some NaN ->
  days_before_failure l = k.
Proof.
  intros Hfin Hend. pose proof (days_before_failure_le l) as Hle.
  destruct (Nat.lt_trichotomy (days_before_failure l) k) as [H|[H|H]].
  - exfalso. destruct (Hfin _ H) as [q Hq].
    rewrite days_before_failure_nan in Hq; [discriminate|].
    apply lookup_lt_Some in Hq. lia.
  - exact H.
  - exfalso. destruct Hend as [->|Hnan]; [lia|].
    destruct (days_before_failure_fin l k H) as [q Hq]. congruence.
Qed.

(** On a path with permanent failure, dropping the first days takes as many
    days off the count of days before failure. *)
Lemma days_before_failure_drop_permanent (l : list float) (a : nat) :
  failure_permanent l ->
  days_before_failure (drop a l) = days_before_failure l - a.
Proof.
  intros Hperm. pose proof (days_before_failure_le l) as Hle.
  apply days_before_failure_unique.
  - intros i Hi. rewrite lookup_drop. apply days_before_failure_fin. lia.
  - rewrite length_drop, lookup_drop.
    destruct (le_lt_dec (length l) (a + (days_before_failure l - a)))
      as [Hge|Hlt]; [left; lia|right].
    apply failure_permanent_after; [exact Hperm|lia].
Qed.

Lemma moving_average_loop_total (average : list float -> result float)
    (l : list float) (n len a : nat) (ma : list float) :
  (forall i, a <= i < a + len -> i < length l) ->
  (forall w, exists v, average w = Ok v) ->
  exists ma', moving_average_loop average l n (seq a len) ma = Ok ma'.
Proof.
  intros Hin Havg. revert a ma Hin.
  induction len as [|len IH]; intros a ma Hin; simpl; [eauto|].
  destruct (index_lt l a) as [today ->]; [apply Hin; lia|]. cbn [bind].
  destruct (isnan today); cbn [negb]; [eauto|].
  destruct (Havg (slice l (a + 1 - n) (a + 1))) as [v ->]. cbn [bind].
  apply IH. intros i Hi. apply Hin. lia.
Qed.

Lemma oscillator_loop_total (value : nat -> result float)
    (l : list float) (len a : nat) (osc : list float) :
  (forall i, a <= i < a + len -> i < length l /\ exists v, value i = Ok v) ->
  exists osc', oscillator_loop value l (seq a len) osc = Ok osc'.
Proof.
  revert a osc.
  induction len as [|len IH]; intros a osc Hin; simpl; [eauto|].
  destruct (Hin a) as [Hlt [v Hv]]; [lia|].
  destruct (index_lt l a Hlt) as [today ->]. cbn [bind].
  destruct (isnan today); cbn [negb]; [eauto|].
  rewrite Hv. cbn [bind]. apply IH. intros i Hi. apply Hin. lia.
Qed.

(** The unweighted [moving_average] always returns: one mean per day of
    [indicator_days]. *)
Lemma moving_average_closed (l : list float) (n : nat) :
  1 <= n ->
  exists ma,
    moving_average l n [] = Ok ma /\
    length ma = days_before_failure (drop (n - 1) l) /\
    forall j v, ma !! j = Some v -> v = window_average l n (n - 1 + j).
Proof.
  intros Hn. unfold moving_average, range.
  destruct (le_lt_dec (n - 1) (length l)) as [Hle|Hgt].
  - destruct (moving_average_loop_total (fun w => Ok (np_average w)) l n
                (length l - (n - 1)) (n - 1) []) as [ma Hma];
      [intros; lia|eauto|].
    pose proof Hma as Hrun.
    apply moving_average_loop_closed in Hrun as (values & -> & Hlen & Hwin);
      [|lia].
    exists values. split; [exact Hma|]. split; [exact Hlen|].
    intros j v Hj. apply Hwin in Hj. now injection Hj as <-.
  - replace (length l - (n - 1)) with 0 by lia. simpl.
    exists []. rewrite drop_ge by lia. repeat split.
    intros j v H. discriminate.
Qed.

Lemma slice_window_length (l : list float) (n i : nat) :
  1 <= n -> n - 1 <= i < length l ->
  length (slice l (i + 1 - n) (i + 1)) = n.
Proof.
  intros Hn Hi. unfold slice. rewrite length_take, length_drop. lia.
Qed.

Lemma slice_window_lookup (l : list float) (n i j : nat) :
  1 <= n -> n - 1 <= i < length l -> j < n ->
  slice l (i + 1 - n) (i + 1) !! j = l !! (i + 1 - n + j).
Proof.
  intros Hn Hi Hj. unfold slice.
  rewrite lookup_take_lt by lia. now rewrite lookup_drop.
Qed.

Lemma map_each_total {A B : Type} (f : A -> result B) (xs : list A) :
  (forall x, x ∈ xs -> exists y, f x = Ok y) ->
  exists ys, map_each f xs = Ok ys.
Proof.
  induction xs as [|x xs IH]; intros Hf; simpl; [eauto|].
  destruct (Hf x) as [y ->]; [left|]. simpl.
  destruct IH as [ys ->]; [intros z Hz; apply Hf; now right|].
  simpl. eauto.
Qed.

Lemma map_each_lookup {A B : Type} (f : A -> result B) (xs : list A)
    (ys : list B) :
  map_each f xs = Ok ys ->
  length ys = length xs /\
  forall i x, xs !! i = Some x -> exists y, ys !! i = Some y /\ f x = Ok y.
Proof.
  revert ys. induction xs as [|x xs IH]; intros ys H; simpl in H.
  - injection H as <-. split; [reflexivity|]. intros i x Hx. discriminate.
  - apply bind_ok in H as (y & Hy & H).
    apply bind_ok in H as (ys' & Hys & H). injection H as <-.
    destruct (IH ys' Hys) as [Hlen Hlook]. split; [simpl; lia|].
    intros [|i] z Hz; simpl in Hz.
    + injection Hz as <-. eauto.
    + now apply Hlook.
Qed.

(** With a window of at least one day, the level of a day that has a whole
    window behind it is computed without error. *)
Lemma stochastic_value_total (l : list float) (n i : nat) :
  1 <= n -> n - 1 <= i < length l ->
  exists v, stochastic_value l n i = Ok v.
Proof.
  intros Hn Hi. unfold stochastic_value.
  destruct (index_lt l i) as [today ->]; [lia|]. cbn [bind].
  pose proof (slice_window_length l n i Hn Hi) as Hlen.
  destruct (slice l (i + 1 - n) (i + 1)) as [|x w]; [simpl in Hlen; lia|].
  cbn [np_max np_min bind]. destruct (feq _ _); eauto.
Qed.

Lemma rsi_value_total (l : list float) (n i : nat) :
  1 <= n -> n - 1 <= i < length l ->
  exists v, rsi_value l n i = Ok v.
Proof.
  intros Hn Hi. unfold rsi_value.
  destruct (map_each_total
              (fun j =>
                 bind (index l (i + 2 - n + j))
                   (fun a => bind (index l (i + 1 - n + j))
                               (fun b => Ok (fsub a b))))
              (range 0 (n - 1))) as [ds ->].
  - intros j Hj. unfold range in Hj. apply elem_of_seq in Hj.
    destruct (index_lt l (i + 2 - n + j)) as [a ->]; [lia|].
    destruct (index_lt l (i + 1 - n + j)) as [b ->]; [lia|].
    simpl. eauto.
  - cbn [bind]. repeat destruct (_ && _); eauto.
Qed.

Lemma oscillator_value_total (osc_type : string) (l : list float) (n i : nat) :
  1 <= n -> n - 1 <= i < length l ->
  exists v, oscillator_value osc_type l n i = Ok v.
Proof.
  intros Hn Hi. unfold oscillator_value. destruct (String.eqb _ _).
  - now apply stochastic_value_total.
  - now apply rsi_value_total.
Qed.

(** [oscillator] with a window of at least one day always returns: nothing
    for a type that is neither ["stochastic"] nor ["RSI"], and otherwise one
    level per day of [indicator_days]. *)
Lemma oscillator_closed (l : list float) (n : nat) (osc_type : string) :
  1 <= n ->
  exists osc,
    oscillator l n osc_type = Ok osc /\
    (osc_type <> "stochastic" -> osc_type <> "RSI" -> osc = []) /\
    (osc_type = "stochastic" \/ osc_type = "RSI" ->
     length osc = days_before_failure (drop (n - 1) l)) /\
    forall j v, osc !! j = Some v ->
      oscillator_value osc_type l n (n - 1 + j) = Ok v.
Proof.
  intros Hn.
  assert (Hloop : forall value,
    (forall i, n - 1 <= i < length l -> exists v, value i = Ok v) ->
    exists osc,
      oscillator_loop value l (range (n - 1) (length l)) [] = Ok osc /\
      length osc = days_before_failure (drop (n - 1) l) /\
      forall j v, osc !! j = Some v -> value (n - 1 + j) = Ok v).
  { intros value Hvalue. unfold range.
    destruct (le_lt_dec (n - 1) (length l)) as [Hle|Hgt].
    - destruct (oscillator_loop_total value l (length l - (n - 1)) (n - 1) [])
        as [osc Hosc].
      { intros i Hi. split; [lia|]. apply Hvalue. lia. }
      pose proof Hosc as Hrun.
      apply oscillator_loop_closed in Hrun as (values & -> & Hlen & Hval);
        [|lia].
      exists values. auto.
    - replace (length l - (n - 1)) with 0 by lia. simpl.
      exists []. rewrite drop_ge by lia. repeat split.
      intros j v H. discriminate. }
  unfold oscillator, oscillator_value.
  destruct (String.eqb_spec osc_type "stochastic") as [->|Hs].
  - destruct (Hloop (stochastic_value l n)) as (osc & Hosc & Hlen & Hval).
    { intros i Hi. now apply stochastic_value_total. }
    exists osc. split; [exact Hosc|]. split; [congruence|]. auto.
  - destruct (String.eqb_spec osc_type "RSI") as [->|Hr].
    + destruct (Hloop (rsi_value l n)) as (osc & Hosc & Hlen & Hval).
      { intros i Hi. now apply rsi_value_total. }
      exists osc. split; [exact Hosc|]. split; [congruence|]. auto.
    + exists []. split; [reflexivity|]. split; [reflexivity|].
      split; [intros [?|?]; congruence|]. intros j v H. discriminate.
Qed.

(** ** [momentum] and failed stocks *)

Lemma column_lookup (a : ndarray) (s d : nat) (col : list float) (x : float) :
  column a s = Ok col -> col !! d = Some x -> getitem a d s = Ok x.
Proof.
  unfold column. destruct (s <? shape1 a); [|discriminate]. intros Hcol Hx.
  apply map_each_lookup in Hcol as [Hlen Hlook].
  destruct (lookup_lt_is_Some_2 (rows a) d) as [r Hr].
  { rewrite <- Hlen. now apply lookup_lt_Some in Hx. }
  destruct (Hlook d r Hr) as (y & Hy & Hidx).
  apply getitem_ok. exists r. split; [exact Hr|].
  apply index_ok in Hidx. congruence.
Qed.

(** The series that [momentum] reads for a stock is the smoothed oscillator
    of its column. *)
Lemma momentum_indicators_lookup (stock_prices : ndarray) (osc_type : string)
    (n period_ave N : nat) (osc : list (list float)) (s : nat)
    (smoothed : list float) :
  momentum_indicators stock_prices osc_type n period_ave N = Ok osc ->
  osc !! s = Some smoothed ->
  exists prices stock_osc,
    column stock_prices s = Ok prices /\
    oscillator prices n osc_type = Ok stock_osc /\
    moving_average stock_osc period_ave [] = Ok smoothed.
Proof.
  unfold momentum_indicators, range. rewrite Nat.sub_0_r. intros Hrun.
  assert (H : length osc = 0 + N /\
              forall s smoothed, osc !! s = Some smoothed ->
                exists prices stock_osc,
                  column stock_prices s = Ok prices /\
                  oscillator prices n osc_type = Ok stock_osc /\
                  moving_average stock_osc period_ave [] = Ok smoothed).
  { refine (for_each_seq_ind
              (fun j (acc : list (list float)) =>
                 length acc = j /\
                 forall s smoothed, acc !! s = Some smoothed ->
                   exists prices stock_osc,
                     column stock_prices s = Ok prices /\
                     oscillator prices n osc_type = Ok stock_osc /\
                     moving_average stock_osc period_ave [] = Ok smoothed)
              _ N 0 [] osc _ _ Hrun).
    - split; [reflexivity|]. intros ? ? H. discriminate.
    - clear. intros j acc acc' _ [Hlen IH] Hbody.
      apply bind_ok in Hbody as (prices & Hcol & Hbody).
      apply bind_ok in Hbody as (stock_osc & Hosc & Hbody).
      apply bind_ok in Hbody as (sm & Hsm & Hbody). injection Hbody as <-.
      split; [rewrite length_app; simpl; lia|].
      intros s smoothed Hs.
      destruct (le_lt_dec (length acc) s) as [Hge|Hlt].
      + pose proof (lookup_lt_Some _ _ _ Hs) as Hlt.
        rewrite length_app in Hlt. simpl in Hlt.
        assert (s = length acc) by lia. subst s.
        rewrite list_lookup_middle in Hs by reflexivity.
        injection Hs as <-. rewrite Hlen. eauto.
      + rewrite lookup_app_l in Hs by exact Hlt. now apply IH. }
  intros Hs. now apply (proj2 H).
Qed.

(** On a column with permanent failure, the smoothed series of [momentum]
    reaches only days before the failure. *)
Lemma smoothed_reaches_before_failure (prices stock_osc smoothed : list float)
    (osc_type : string) (n trade_day : nat) :
  1 <= n -> failure_permanent prices ->
  oscillator prices n osc_type = Ok stock_osc ->
  moving_average stock_osc 3 [] = Ok smoothed ->
  trade_day - (n + 3 - 2) < length smoothed ->
  n + 3 - 2 <= trade_day ->
  trade_day < days_before_failure prices.
Proof.
  intros Hn Hperm Hosc Hsm Hlt Hk.
  destruct (oscillator_closed prices n osc_type Hn)
    as (osc' & Hosc' & Hnone & Hlen & _).
  rewrite Hosc in Hosc'. injection Hosc' as <-.
  destruct (moving_average_closed stock_osc 3) as (sm' & Hsm' & Hlen' & _);
    [lia|].
  rewrite Hsm in Hsm'. injection Hsm' as <-.
  pose proof (days_before_failure_le (drop (3 - 1) stock_osc)) as Hle.
  rewrite length_drop in Hle.
  assert (Hso : length stock_osc <= days_before_failure prices - (n - 1)).
  { destruct (String.eqb_spec osc_type "stochastic") as [Hs|Hs].
    - rewrite Hlen by auto.
      now rewrite days_before_failure_drop_permanent.
    - destruct (String.eqb_spec osc_type "RSI") as [Hr|Hr].
      + rewrite Hlen by auto.
        now rewrite days_before_failure_drop_permanent.
      + rewrite (Hnone Hs Hr). simpl. lia. }
  lia.
Qed.

(** X5.  When every column of the price array has permanent failure,
    [momentum] with a window of at least one day never trades a stock on or
    after the day it fails: every entry that a run appends to the ledger has
    a price other than [NaN]. *)
Theorem momentum_never_trades_failed_stock (stock_prices : prices_arg)
    (osc_type : string) (n : nat) (T_over T_under amount fees : float)
    (cool_off_period : Z) (ledger : list entry) (portfolio : list Z)
    (ledger' : list entry) :
  1 <= n ->
  (forall s prices,
     column (as_matrix stock_prices) s = Ok prices ->
     failure_permanent prices) ->
  momentum stock_prices osc_type n T_over T_under amount fees cool_off_period
    ledger = Ok (portfolio, ledger') ->
  all_written (fun e => isnan (price e) = false) ledger ledger'.
Proof.
  intros Hn Hperm. unfold momentum. intros Hrun.
  apply bind_ok in Hrun as ([pf0 L0] & Hcreate & Hrun).
  apply bind_ok in Hrun as (osc & Hosc & Hrun).
  apply bind_ok in Hrun as ([[pf1 co1] L1] & Hloop & Hrun).
  set (prices := as_matrix stock_prices) in *.
  apply (create_portfolio_trades _ _ _ (priced prices)) in Hcreate;
    [|intros s Hs; exact Hs].
  apply (trades_weaken _ _ _ (fun c => c = amount) _ _ _ _
           (fun c => funded_repeat amount c _) (fun _ _ H => H)) in Hcreate.
  assert (Hreach : forall trade_day s smoothed,
            osc !! s = Some smoothed -> trade_day - (n + 3 - 2) < length smoothed ->
            n + 3 - 2 <= trade_day -> priced prices trade_day s).
  { intros trade_day s smoothed Hs Hlt Hk.
    destruct (momentum_indicators_lookup _ _ _ _ _ _ _ _ Hosc Hs)
      as (col & stock_osc & Hcol & Hso & Hsm).
    pose proof (smoothed_reaches_before_failure col stock_osc smoothed
                  osc_type n trade_day Hn (Hperm s col Hcol) Hso Hsm Hlt Hk)
      as Hday.
    destruct (days_before_failure_fin col trade_day Hday) as [q Hq].
    exists (Fin q). split; [|reflexivity].
    now apply (column_lookup prices s trade_day col). }
  pose proof (momentum_loop_trades prices T_over T_under amount fees
                cool_off_period osc (n + 3 - 2) (shape1 prices)
                (shape0 prices) (priced prices)
                (repeat 0%Z (shape1 prices), ledger)
                (pf0, repeat cool_off_period (shape1 prices), L0)
                (pf1, co1, L1) Hreach Hcreate Hloop) as Htrades.
  apply (sell_last_day_trades _ _ _ _ _ _ _ _ _ (fun _ H => H) Htrades)
    in Hrun.
  apply trades_written in Hrun as (written & HL & _ & _ & Hall).
  exists written. split; [exact HL|].
  eapply Forall_impl; [exact Hall|].
  intros e [Hp [Ht [(_ & Hnan & _)|_]]]; [exact Hnan|].
  destruct Ht as (p & Hp' & Hnan). congruence.
Qed.

(** A test of failure permanence: from the first [NaN] on, only [NaN]. *)
Lemma failure_permanent_check (l : list float) :
  forallb isnan (drop (days_before_failure l) l) = true ->
  failure_permanent l.
Proof.
  intros Hall d d' [Hlt Hlen] Hd.
  rewrite forallb_forall in Hall.
  assert (Hge : days_before_failure l <= d).
  { destruct (le_lt_dec (days_before_failure l) d) as [|Hbefore]; [assumption|].
    destruct (days_before_failure_fin l d Hbefore) as [q Hq]. congruence. }
  destruct (lookup_lt_is_Some_2 l d' Hlen) as [x Hx].
  assert (Hin : In x (drop (days_before_failure l) l)).
  { apply list_elem_of_In, list_elem_of_lookup.
    exists (d' - days_before_failure l). rewrite lookup_drop.
    now replace (days_before_failure l + (d' - days_before_failure l))
      with d' by lia. }
  apply Hall in Hin. destruct x; [discriminate|exact Hx].
Qed.

Lemma column_of_single (v : list float) (s : nat) (prices : list float) :
  column (as_matrix (Column v)) s = Ok prices -> prices = v.
Proof.
  unfold column. simpl. destruct s as [|s]; simpl; [|discriminate].
  intros H. apply map_each_lookup in H as [Hlen Hlook].
  rewrite length_map in Hlen. apply list_eq. intros i.
  destruct (v !! i) as [x|] eqn:Hx.
  - destruct (Hlook i [x]) as (y & Hy & Hidx).
    { now rewrite list_lookup_fmap, Hx. }
    simpl in Hidx. injection Hidx as <-. exact Hy.
  - apply lookup_ge_None. apply lookup_ge_None in Hx. lia.
Qed.

Lemma momentum_never_trades_failed_stock_witness :
  exists portfolio ledger',
    momentum (Column falling_then_failed) "stochastic" 7 (Fin (8 # 10))
      (Fin (2 # 10)) (of_Z 5000) (of_Z 20) 10 [] = Ok (portfolio, ledger') /\
    all_written (fun e => isnan (price e) = false) [] ledger'.
Proof.
  do 2 eexists. split.
  - vm_compute. reflexivity.
  - refine (momentum_never_trades_failed_stock (Column falling_then_failed)
              "stochastic" 7 (Fin (8 # 10)) (Fin (2 # 10)) (of_Z 5000)
              (of_Z 20) 10 [] _ _ _ _ _).
    + lia.
    + intros s prices H. apply column_of_single in H. subst prices.
      apply failure_permanent_check. reflexivity.
    + vm_compute. reflexivity.
Defined.

Example falling_then_failed_run :
  bind (momentum (Column falling_then_failed) "stochastic" 7 (Fin (8 # 10))
          (Fin (2 # 10)) (of_Z 5000) (of_Z 20) 10 [])
       (fun st => Ok (fst st, ledger_lines (snd st)))
  = Ok ([664%Z],
        [ "buy,0,0,249,20.00,-5000.00"; "buy,8,0,415,12.00,-5000.00" ]).
Proof. vm_compute. reflexivity. Qed.

(** ** [crossing_averages] on the day a stock fails *)

Lemma index_Z_nat {A : Type} (l : list A) (i : Z) :
  (0 <= i < Z.of_nat (length l))%Z -> exists x, index_Z l i = Ok x.
Proof.
  intros Hi. unfold index_Z. destruct (Z.leb_spec 0 i); [|lia].
  apply index_lt. lia.
Qed.

Lemma fdiv_nan_r (x : float) : fdiv x NaN = NaN.
Proof. now destruct x. Qed.

Lemma buy_at_nan (date stock : nat) (capital : float) (stock_prices : ndarray)
    (fees : float) (portfolio : list Z) (ledger : list entry) :
  getitem stock_prices date stock = Ok NaN ->
  buy date stock capital stock_prices fees portfolio ledger = Raise ValueError.
Proof. intros Hp. unfold buy. rewrite Hp. simpl. now rewrite fdiv_nan_r. Qed.

(** X6.  The check of [crossing_averages] on the slow series lets the day
    on which a stock fails through: the averages read on that day are those
    of the day before.  If they signal a crossing from below, the purchase
    is attempted at the price [NaN] and raises [ValueError]; if they signal
    a crossing from above and shares are held, the holding is sold at the
    price [NaN], for a cash flow of [NaN]. *)
Theorem crossing_trades_on_failure_day (stock_prices : ndarray) (m n : nat)
    (amount fees : float) (SMA FMA : list (list float))
    (portfolio : list Z) (ledger : list entry) (stock_number : nat)
    (prices sma fma : list float) (held : Z) :
  1 <= m -> m < n ->
  column stock_prices stock_number = Ok prices ->
  failure_permanent prices ->
  n + 1 <= days_before_failure prices < length prices ->
  moving_average prices n [] = Ok sma ->
  moving_average prices m [] = Ok fma ->
  SMA !! stock_number = Some sma ->
  FMA !! stock_number = Some fma ->
  portfolio !! stock_number = Some held ->
  let trade_day := days_before_failure prices in
  let day := Z.of_nat trade_day in
  let run :=
    crossing_body stock_prices m n amount fees SMA FMA trade_day
      (portfolio, ledger) stock_number in
  getitem stock_prices trade_day stock_number = Ok NaN /\
  exists fast slow fast_before slow_before,
    index_Z fma (day - Z.of_nat m)%Z = Ok fast /\
    index_Z sma (day - Z.of_nat n)%Z = Ok slow /\
    index_Z fma (day - Z.of_nat m - 1)%Z = Ok fast_before /\
    index_Z sma (day - 1 - Z.of_nat n)%Z = Ok slow_before /\
    (fge fast slow && flt fast_before slow_before = true ->
     run = Raise ValueError) /\
    (fle fast slow && fgt fast_before slow_before = true -> held <> 0%Z ->
     run = Ok (<[stock_number:=0%Z]> portfolio,
               ledger ++
                 [ {| transaction_type := "sell"; date := trade_day;
                      stock := stock_number; number_of_shares := held;
                      price := NaN; total_spent := NaN |} ])).
Proof.
  intros Hm Hmn Hcol Hperm Hday Hsma Hfma HSMA HFMA Hheld trade_day day run.
  assert (Hnan : getitem stock_prices trade_day stock_number = Ok NaN).
  { apply (column_lookup _ _ _ prices); [exact Hcol|].
    apply days_before_failure_nan. lia. }
  split; [exact Hnan|].
  destruct (moving_average_permanent prices n ltac:(lia) Hperm)
    as (sma' & Hsma' & Hlens & _).
  destruct (moving_average_permanent prices m Hm Hperm)
    as (fma' & Hfma' & Hlenf & _).
  rewrite Hsma in Hsma'. injection Hsma' as <-.
  rewrite Hfma in Hfma'. injection Hfma' as <-.
  fold trade_day in Hlens, Hlenf, Hday.
  destruct (index_Z_nat fma (day - Z.of_nat m)%Z) as [fast Hfast];
    [subst day; lia|].
  destruct (index_Z_nat sma (day - Z.of_nat n)%Z) as [slow Hslow];
    [subst day; lia|].
  destruct (index_Z_nat fma (day - Z.of_nat m - 1)%Z) as [fast_before Hfb];
    [subst day; lia|].
  destruct (index_Z_nat sma (day - 1 - Z.of_nat n)%Z) as [slow_before Hsb];
    [subst day; lia|].
  exists fast, slow, fast_before, slow_before.
  repeat (split; [assumption|]).
  assert (Hcheck : (Z.of_nat (length sma) - 1 <? day - Z.of_nat n)%Z = false).
  { apply Z.ltb_ge. subst day. lia. }
  apply index_ok in HSMA, HFMA, Hheld.
  assert (Hstart : run =
    bind (if fge fast slow then Ok (flt fast_before slow_before) else Ok false)
      (fun from_below : bool =>
         if from_below then
           buy trade_day stock_number amount stock_prices fees portfolio ledger
         else
           bind (if fle fast slow then Ok (fgt fast_before slow_before)
                 else Ok false)
             (fun from_above : bool =>
                if from_above then
                  if negb (held =? 0)%Z then
                    sell trade_day stock_number stock_prices fees portfolio
                      ledger
                  else Ok (portfolio, ledger)
                else Ok (portfolio, ledger)))).
  { subst run. unfold crossing_body. fold day.
    rewrite HSMA. cbn [bind]. rewrite Hcheck, HFMA. cbn [bind].
    rewrite Hfast. cbn [bind]. rewrite Hslow. cbn [bind].
    rewrite Hfb, Hsb, Hheld. cbn [bind].
    destruct (fge fast slow), (fle fast slow); reflexivity. }
  split.
  - intros Hsig. apply andb_true_iff in Hsig as [Hge Hlt].
    rewrite Hstart, Hge. cbn [bind]. rewrite Hlt.
    now apply buy_at_nan.
  - intros Hsig Hheld0. apply andb_true_iff in Hsig as [Hle Hgt].
    pose proof (flt_fgt_exclusive fast_before slow_before) as Hexcl.
    rewrite Hgt, andb_true_r in Hexcl.
    rewrite Hstart, Hle, Hgt, Hexcl.
    destruct (fge fast slow); cbn [bind];
      (destruct (Z.eqb_spec held 0) as [|_]; [contradiction|]); cbn [negb];
      apply sell_ok; exists NaN, held; apply index_ok in Hheld;
      repeat split; assumption.
Qed.

Lemma crossing_trades_on_failure_day_witness :
  getitem (as_matrix (Column recovering_then_failed)) 3 0 = Ok NaN /\
  exists fast slow fast_before slow_before,
    index_Z recovering_fast (Z.of_nat 3 - Z.of_nat 1)%Z = Ok fast /\
    index_Z recovering_slow (Z.of_nat 3 - Z.of_nat 2)%Z = Ok slow /\
    index_Z recovering_fast (Z.of_nat 3 - Z.of_nat 1 - 1)%Z = Ok fast_before /\
    index_Z recovering_slow (Z.of_nat 3 - 1 - Z.of_nat 2)%Z = Ok slow_before /\
    (fge fast slow && flt fast_before slow_before = true ->
     crossing_body (as_matrix (Column recovering_then_failed)) 1 2
       (of_Z 5000) (of_Z 20) [recovering_slow] [recovering_fast] 3
       ([1000%Z], []) 0 = Raise ValueError) /\
    (fle fast slow && fgt fast_before slow_before = true -> 1000%Z <> 0%Z ->
     crossing_body (as_matrix (Column recovering_then_failed)) 1 2
       (of_Z 5000) (of_Z 20) [recovering_slow] [recovering_fast] 3
       ([1000%Z], []) 0
     = Ok (<[0:=0%Z]> [1000%Z],
           [] ++
             [ {| transaction_type := "sell"; date := 3; stock := 0;
                  number_of_shares := 1000; price := NaN;
                  total_spent := NaN |} ])).
Proof.
  apply (crossing_trades_on_failure_day
           (as_matrix (Column recovering_then_failed)) 1 2 (of_Z 5000)
           (of_Z 20) [recovering_slow] [recovering_fast] [1000%Z] [] 0
           recovering_then_failed recovering_slow recovering_fast 1000%Z).
  - lia.
  - lia.
  - reflexivity.
  - apply failure_permanent_check. reflexivity.
  - simpl. lia.
  - reflexivity.
  - reflexivity.
  - reflexivity.
  - reflexivity.
  - reflexivity.
Defined.

(** On that path the run of [crossing_averages] with windows 1 and 2 is
    aborted on day 3, the day of the failure. *)
Example crossing_averages_aborts_on_failure_day :
  crossing_averages (Column recovering_then_failed) 1 2 (of_Z 5000) (of_Z 20)
    [] = Raise ValueError.
Proof. vm_compute. reflexivity. Qed.

(** ** The levels of the oscillators *)

Lemma Qlt_bool_false_iff (a b : Q) : Qlt_bool a b = false <-> (b <= a)%Q.
Proof.
  unfold Qlt_bool. rewrite negb_false_iff. apply Qle_bool_iff.
Qed.

(** A maximum that is a number bounds numbers only, and is one of them. *)
Lemma fold_fmaximum_fin (xs : list float) (acc : float) (h : Q) :
  foldl fmaximum acc xs = Fin h ->
  (exists a, acc = Fin a /\ (a <= h)%Q) /\
  Forall (fun x => exists q, x = Fin q /\ (q <= h)%Q) xs /\
  (acc = Fin h \/ Fin h ∈ xs).
Proof.
  revert acc. induction xs as [|x xs IH]; intros acc H; simpl in H.
  - subst acc. split; [exists h; split; [reflexivity|lra]|].
    split; [constructor|now left].
  - apply IH in H as ((m & Hm & Hmh) & Hall & Hatt).
    destruct acc as [a|], x as [b|]; try discriminate Hm.
    unfold fmaximum in Hm, Hatt.
    destruct (Qlt_bool a b) eqn:E; injection Hm as <-.
    + apply Qlt_bool_iff in E. split; [exists a; split; [reflexivity|lra]|].
      split; [constructor; [exists b; split; [reflexivity|lra]|assumption]|].
      right. destruct Hatt as [Heq|Hin]; [rewrite Heq; left|now right].
    + apply Qlt_bool_false_iff in E.
      split; [exists a; split; [reflexivity|lra]|].
      split; [constructor; [exists b; split; [reflexivity|lra]|assumption]|].
      destruct Hatt as [Heq|Hin]; [now left|right; now right].
Qed.

Lemma fold_fminimum_fin (xs : list float) (acc : float) (h : Q) :
  foldl fminimum acc xs = Fin h ->
  (exists a, acc = Fin a /\ (h <= a)%Q) /\
  Forall (fun x => exists q, x = Fin q /\ (h <= q)%Q) xs /\
  (acc = Fin h \/ Fin h ∈ xs).
Proof.
  revert acc. induction xs as [|x xs IH]; intros acc H; simpl in H.
  - subst acc. split; [exists h; split; [reflexivity|lra]|].
    split; [constructor|now left].
  - apply IH in H as ((m & Hm & Hmh) & Hall & Hatt).
    destruct acc as [a|], x as [b|]; try discriminate Hm.
    unfold fminimum in Hm, Hatt.
    destruct (Qlt_bool b a) eqn:E; injection Hm as <-.
    + apply Qlt_bool_iff in E. split; [exists a; split; [reflexivity|lra]|].
      split; [constructor; [exists b; split; [reflexivity|lra]|assumption]|].
      right. destruct Hatt as [Heq|Hin]; [rewrite Heq; left|now right].
    + apply Qlt_bool_false_iff in E.
      split; [exists a; split; [reflexivity|lra]|].
      split; [constructor; [exists b; split; [reflexivity|lra]|assumption]|].
      destruct Hatt as [Heq|Hin]; [now left|right; now right].
Qed.

(** The maximum of a window of numbers is a number. *)
Lemma fold_fmaximum_of_fin (xs : list float) (a : Q) :
  Forall (fun x => isnan x = false) xs ->
  exists h, foldl fmaximum (Fin a) xs = Fin h.
Proof.
  revert a. induction xs as [|x xs IH]; intros a Hxs; simpl; [eauto|].
  inversion Hxs as [|? ? Hx Hrest]; subst.
  destruct x as [b|]; [|discriminate].
  change (foldl fmaximum (Fin a) (Fin b :: xs))
    with (foldl fmaximum (if Qlt_bool a b then Fin b else Fin a) xs).
  destruct (Qlt_bool a b); now apply IH.
Qed.

Lemma fold_fminimum_of_fin (xs : list float) (a : Q) :
  Forall (fun x => isnan x = false) xs ->
  exists h, foldl fminimum (Fin a) xs = Fin h.
Proof.
  revert a. induction xs as [|x xs IH]; intros a Hxs; simpl; [eauto|].
  inversion Hxs as [|? ? Hx Hrest]; subst.
  destruct x as [b|]; [|discriminate].
  change (foldl fminimum (Fin a) (Fin b :: xs))
    with (foldl fminimum (if Qlt_bool b a then Fin b else Fin a) xs).
  destruct (Qlt_bool b a); now apply IH.
Qed.

Lemma np_max_fin (xs : list float) (h : Q) :
  np_max xs = Ok (Fin h) ->
  Forall (fun x => exists q, x = Fin q /\ (q <= h)%Q) xs /\ Fin h ∈ xs.
Proof.
  destruct xs as [|x xs]; [discriminate|]. simpl. intros [= H].
  apply fold_fmaximum_fin in H as ((a & -> & Ha) & Hall & Hatt).
  split; [constructor; [eauto|assumption]|].
  destruct Hatt as [[= ->]|Hin]; [left|now right].
Qed.

Lemma np_min_fin (xs : list float) (h : Q) :
  np_min xs = Ok (Fin h) ->
  Forall (fun x => exists q, x = Fin q /\ (h <= q)%Q) xs /\ Fin h ∈ xs.
Proof.
  destruct xs as [|x xs]; [discriminate|]. simpl. intros [= H].
  apply fold_fminimum_fin in H as ((a & -> & Ha) & Hall & Hatt).
  split; [constructor; [eauto|assumption]|].
  destruct Hatt as [[= ->]|Hin]; [left|now right].
Qed.

Lemma Qeq_bool_false_neq (a : Q) : Qeq_bool a 0 = false -> ~ (a == 0)%Q.
Proof. intros H E. apply Qeq_eq_bool in E. congruence. Qed.

(** The stochastic level of a day is undefined or a number from 0 to 1. *)
Lemma stochastic_value_in_range (l : list float) (n i : nat) (v : float) :
  1 <= n -> n - 1 <= i < length l ->
  stochastic_value l n i = Ok v -> level_in_range v.
Proof.
  intros Hn Hi. unfold stochastic_value. intros H.
  apply bind_ok in H as (today & Htoday & H). apply index_ok in Htoday.
  apply bind_ok in H as (hi & Hhi & H).
  apply bind_ok in H as (lo & Hlo & H).
  destruct today as [t|], hi as [h|], lo as [m|];
    try (simpl in H; try destruct (Qeq_bool _ _);
         injection H as <-; now left).
  simpl in H. destruct (Qeq_bool (h - m) 0) eqn:E; injection H as <-;
    [now left|].
  apply np_max_fin in Hhi as [Hmax _]. apply np_min_fin in Hlo as [Hmin _].
  assert (Hin : Fin t ∈ slice l (i + 1 - n) (i + 1)).
  { apply list_elem_of_lookup. exists (n - 1).
    rewrite slice_window_lookup by lia.
    now replace (i + 1 - n + (n - 1)) with i by lia. }
  rewrite Forall_forall in Hmax, Hmin.
  destruct (Hmax _ Hin) as (q1 & [= <-] & Hth).
  destruct (Hmin _ Hin) as (q2 & [= <-] & Hmt).
  apply Qeq_bool_false_neq in E.
  right. exists ((t - m) / (h - m))%Q. split; [reflexivity|].
  assert (Hpos : (0 < h - m)%Q) by (destruct (Qlt_le_dec 0 (h - m)); [assumption|exfalso; apply E; lra]).
  split.
  - apply Qle_shift_div_l; [exact Hpos|]. lra.
  - apply Qle_shift_div_r; [exact Hpos|]. lra.
Qed.

Lemma of_nat_pos (k : nat) : 1 <= k -> (0 < inject_Z (Z.of_nat k))%Q.
Proof.
  intros Hk. change 0%Q with (inject_Z 0). rewrite <- Zlt_Qlt. lia.
Qed.

Lemma np_sum_pos_from (xs : list float) (acc : Q) :
  Forall (fun x => exists q, x = Fin q /\ (0 < q)%Q) xs ->
  exists s, foldl fadd (Fin acc) xs = Fin s /\ (acc <= s)%Q /\
            (xs <> [] -> (acc < s)%Q).
Proof.
  revert acc. induction xs as [|x xs IH]; intros acc Hxs; simpl.
  - exists acc. split; [reflexivity|]. split; [lra|congruence].
  - inversion Hxs as [|? ? (q & -> & Hq) Hrest]; subst. simpl.
    destruct (IH (acc + q)%Q Hrest) as (s & Hs & Hle & _).
    exists s. split; [exact Hs|]. split; [lra|]. intros _. lra.
Qed.

Lemma np_sum_neg_from (xs : list float) (acc : Q) :
  Forall (fun x => exists q, x = Fin q /\ (q < 0)%Q) xs ->
  exists s, foldl fadd (Fin acc) xs = Fin s /\ (s <= acc)%Q /\
            (xs <> [] -> (s < acc)%Q).
Proof.
  revert acc. induction xs as [|x xs IH]; intros acc Hxs; simpl.
  - exists acc. split; [reflexivity|]. split; [lra|congruence].
  - inversion Hxs as [|? ? (q & -> & Hq) Hrest]; subst. simpl.
    destruct (IH (acc + q)%Q Hrest) as (s & Hs & Hle & _).
    exists s. split; [exact Hs|]. split; [lra|]. intros _. lra.
Qed.

(** The mean of positive numbers is positive, that of negative numbers
    negative. *)
Lemma np_average_pos (xs : list float) :
  xs <> [] -> Forall (fun x => exists q, x = Fin q /\ (0 < q)%Q) xs ->
  exists a, np_average xs = Fin a /\ (0 < a)%Q.
Proof.
  intros Hne Hxs. unfold np_average, np_sum.
  destruct (np_sum_pos_from xs 0 Hxs) as (s & -> & _ & Hs).
  specialize (Hs Hne).
  assert (Hlen : (0 < inject_Z (Z.of_nat (length xs)))%Q).
  { apply of_nat_pos. destruct xs; [congruence|simpl; lia]. }
  unfold of_nat, of_Z, fdiv. rewrite (Qeq_bool_false_pos _ Hlen).
  eexists. split; [reflexivity|]. apply Qlt_shift_div_l; [exact Hlen|]. lra.
Qed.

Lemma np_average_neg (xs : list float) :
  xs <> [] -> Forall (fun x => exists q, x = Fin q /\ (q < 0)%Q) xs ->
  exists a, np_average xs = Fin a /\ (a < 0)%Q.
Proof.
  intros Hne Hxs. unfold np_average, np_sum.
  destruct (np_sum_neg_from xs 0 Hxs) as (s & -> & _ & Hs).
  specialize (Hs Hne).
  assert (Hlen : (0 < inject_Z (Z.of_nat (length xs)))%Q).
  { apply of_nat_pos. destruct xs; [congruence|simpl; lia]. }
  unfold of_nat, of_Z, fdiv. rewrite (Qeq_bool_false_pos _ Hlen).
  eexists. split; [reflexivity|]. apply Qlt_shift_div_r; [exact Hlen|]. lra.
Qed.

Lemma filter_rising (ds : list float) :
  Forall (fun x => exists q, x = Fin q /\ (0 < q)%Q)
    (filter (fun x => Is_true (fgt x (Fin 0))) ds).
Proof.
  apply Forall_forall. intros x Hx. apply list_elem_of_filter in Hx as [Hx _].
  destruct x as [q|]; [|contradiction]. exists q. split; [reflexivity|].
  apply Qlt_bool_iff. unfold fgt, flt in Hx. now apply Is_true_true.
Qed.

Lemma filter_falling (ds : list float) :
  Forall (fun x => exists q, x = Fin q /\ (q < 0)%Q)
    (filter (fun x => Is_true (flt x (Fin 0))) ds).
Proof.
  apply Forall_forall. intros x Hx. apply list_elem_of_filter in Hx as [Hx _].
  destruct x as [q|]; [|contradiction]. exists q. split; [reflexivity|].
  apply Qlt_bool_iff. unfold flt in Hx. now apply Is_true_true.
Qed.

(** The value that [rsi_value] computes from the rising and the falling
    differences of a window. *)
Lemma rsi_of_mixed (up down : list float) :
  up <> [] -> down <> [] ->
  Forall (fun x => exists q, x = Fin q /\ (0 < q)%Q) up ->
  Forall (fun x => exists q, x = Fin q /\ (q < 0)%Q) down ->
  exists q,
    fsub (Fin 1)
      (fdiv (Fin 1)
         (fadd (Fin 1) (fdiv (np_average up) (fabs (np_average down)))))
    = Fin q /\ (0 < q < 1)%Q.
Proof.
  intros Hup Hdown Hpos Hneg.
  destruct (np_average_pos up Hup Hpos) as (a & -> & Ha).
  destruct (np_average_neg down Hdown Hneg) as (b & -> & Hb).
  unfold fabs, fdiv at 2.
  assert (Habs : (0 < Qabs b)%Q).
  { rewrite (Qabs_neg b) by lra. lra. }
  rewrite (Qeq_bool_false_pos _ Habs). unfold fadd, fdiv.
  assert (Hrs : (0 < a / Qabs b)%Q).
  { apply Qlt_shift_div_l; [exact Habs|]. lra. }
  assert (Hone : (0 < 1 + a / Qabs b)%Q) by lra.
  rewrite (Qeq_bool_false_pos _ Hone). unfold fsub.
  eexists. split; [reflexivity|].
  assert (Hinv : (0 < 1 / (1 + a / Qabs b) < 1)%Q).
  { split.
    - apply Qlt_shift_div_l; [exact Hone|]. lra.
    - apply Qlt_shift_div_r; [exact Hone|]. lra. }
  lra.
Qed.

Lemma length_eqb_nil {A : Type} (l : list A) :
  (length l =? 0) = true <-> l = [].
Proof.
  destruct l; simpl; split; intros H; try reflexivity; discriminate.
Qed.

(** The RSI of a day is undefined or a number from 0 to 1. *)
Lemma rsi_value_in_range (l : list float) (n i : nat) (v : float) :
  rsi_value l n i = Ok v -> level_in_range v.
Proof.
  unfold rsi_value. intros H.
  apply bind_ok in H as (ds & _ & H).
  set (up := filter (fun x => Is_true (fgt x (Fin 0))) ds) in *.
  set (down := filter (fun x => Is_true (flt x (Fin 0))) ds) in *.
  destruct (length up =? 0) eqn:Eup, (length down =? 0) eqn:Edown;
    cbn [negb andb] in H.
  - injection H as <-. now left.
  - injection H as <-. right. exists 0%Q. split; [reflexivity|lra].
  - injection H as <-. right. exists 1%Q. split; [reflexivity|lra].
  - injection H as <-.
    destruct (rsi_of_mixed up down) as (q & Hq & Hr).
    + intros E. apply length_eqb_nil in E. congruence.
    + intros E. apply length_eqb_nil in E. congruence.
    + apply filter_rising.
    + apply filter_falling.
    + right. exists q. split; [exact Hq|lra].
Qed.

Lemma oscillator_value_in_range (osc_type : string) (l : list float)
    (n i : nat) (v : float) :
  1 <= n -> n - 1 <= i < length l ->
  oscillator_value osc_type l n i = Ok v -> level_in_range v.
Proof.
  intros Hn Hi. unfold oscillator_value. destruct (String.eqb _ _).
  - now apply stochastic_value_in_range.
  - apply rsi_value_in_range.
Qed.

(** X7.  [oscillator] with a window of at least one day never raises.  For
    the types ["stochastic"] and ["RSI"] it returns one level for every day
    from day [n - 1] up to, and excluding, the first day at or after it
    whose price is [NaN]; for any other type it returns the empty series.
    Every level is undefined ([NaN]) or a number from 0 to 1. *)
Theorem oscillator_levels (stock_price : list float) (n : nat)
    (osc_type : string) :
  1 <= n ->
  exists osc,
    oscillator stock_price n osc_type = Ok osc /\
    Forall level_in_range osc /\
    (osc_type = "stochastic" \/ osc_type = "RSI" ->
     length osc = days_before_failure (drop (n - 1) stock_price)) /\
    (osc_type <> "stochastic" -> osc_type <> "RSI" -> osc = []).
Proof.
  intros Hn.
  destruct (oscillator_closed stock_price n osc_type Hn)
    as (osc & Hosc & Hnone & Hlen & Hval).
  exists osc. split; [exact Hosc|]. split; [|split; assumption].
  apply Forall_forall. intros v Hv.
  apply list_elem_of_lookup in Hv as [j Hj].
  destruct (String.eqb_spec osc_type "stochastic") as [Hs|Hs];
    [|destruct (String.eqb_spec osc_type "RSI") as [Hr|Hr]].
  - pose proof (lookup_lt_Some _ _ _ Hj) as Hlt. rewrite Hlen in Hlt by auto.
    pose proof (days_before_failure_le (drop (n - 1) stock_price)) as Hle.
    rewrite length_drop in Hle.
    apply (oscillator_value_in_range osc_type stock_price n (n - 1 + j));
      [exact Hn|lia|now apply Hval].
  - pose proof (lookup_lt_Some _ _ _ Hj) as Hlt. rewrite Hlen in Hlt by auto.
    pose proof (days_before_failure_le (drop (n - 1) stock_price)) as Hle.
    rewrite length_drop in Hle.
    apply (oscillator_value_in_range osc_type stock_price n (n - 1 + j));
      [exact Hn|lia|now apply Hval].
  - rewrite (Hnone Hs Hr) in Hj. discriminate.
Qed.

Lemma oscillator_levels_witness :
  exists osc,
    oscillator flat_week_prices 7 "RSI" = Ok osc /\
    Forall level_in_range osc /\
    ("RSI" = "stochastic" \/ "RSI" = "RSI" ->
     length osc = days_before_failure (drop (7 - 1) flat_week_prices)) /\
    ("RSI" <> "stochastic" -> "RSI" <> "RSI" -> osc = []).
Proof. apply (oscillator_levels flat_week_prices 7 "RSI"). lia. Defined.

(** ** The values of the indicators *)

(** X8.  [moving_average] without weights and with a window of at least one
    day never raises: it returns the averages of the [n]-day windows that end
    on the days from [n - 1] on, in order, up to and excluding the first of
    these days whose price is [NaN]. *)
Theorem moving_average_values (stock_price : list float) (n : nat) :
  1 <= n ->
  moving_average stock_price n []
  = Ok (map (window_average stock_price n) (indicator_days stock_price n)).
Proof.
  intros Hn.
  destruct (moving_average_closed stock_price n Hn) as (ma & -> & Hlen & Hval).
  f_equal. apply list_eq. intros j. unfold indicator_days.
  rewrite list_lookup_fmap.
  destruct (ma !! j) as [v|] eqn:Hj.
  - pose proof (lookup_lt_Some _ _ _ Hj) as Hlt. rewrite Hlen in Hlt.
    rewrite lookup_seq_lt by exact Hlt. simpl. f_equal. now apply Hval.
  - apply lookup_ge_None in Hj. rewrite Hlen in Hj.
    rewrite lookup_seq_ge by exact Hj. reflexivity.
Qed.

Lemma moving_average_values_witness :
  moving_average recovering_then_failed 2 []
  = Ok (map (window_average recovering_then_failed 2)
          (indicator_days recovering_then_failed 2)).
Proof. apply (moving_average_values recovering_then_failed 2). lia. Defined.

(** X9.  [moving_average] with weights checks them only when it has a window
    to average: on a path shorter than the window, or whose price on day
    [n - 1] is [NaN], it returns the empty series whatever the weights are;
    on a path with a number on day [n - 1] it raises [TypeError] when the
    number of weights is not [n], and [ZeroDivisionError] when there are [n]
    weights whose sum equals 0. *)
Theorem moving_average_checks_weights (stock_price weights : list float)
    (n : nat) :
  1 <= n -> weights <> [] ->
  (length stock_price < n \/ stock_price !! (n - 1) = Some NaN ->
   moving_average stock_price n weights = Ok []) /\
  (forall p, stock_price !! (n - 1) = Some (Fin p) ->
     (length weights <> n ->
      moving_average stock_price n weights = Raise TypeError) /\
     (length weights = n -> feq (np_sum weights) (Fin 0) = true ->
      moving_average stock_price n weights = Raise ZeroDivisionError)).
Proof.
  intros Hn Hw. unfold moving_average, range.
  destruct weights as [|w ws]; [congruence|]. clear Hw. split.
  - intros [Hshort|Hnan].
    + replace (length stock_price - (n - 1)) with 0 by lia. reflexivity.
    + pose proof (lookup_lt_Some _ _ _ Hnan) as Hlt.
      destruct (length stock_price - (n - 1)) as [|len] eqn:E; [lia|].
      cbn [seq moving_average_loop]. unfold index. rewrite Hnan. reflexivity.
  - intros p Hp. pose proof (lookup_lt_Some _ _ _ Hp) as Hlt.
    destruct (length stock_price - (n - 1)) as [|len] eqn:E; [lia|].
    cbn [seq moving_average_loop]. unfold index. rewrite Hp.
    cbn [bind isnan negb].
    pose proof (slice_window_length stock_price n (n - 1) Hn) as Hlen.
    unfold np_average_weighted. rewrite Hlen by lia. split.
    + intros Hne. destruct (Nat.eqb_spec n (length (w :: ws))) as [Heq|_];
        [congruence|reflexivity].
    + intros Heq Hsum. rewrite Heq, Nat.eqb_refl. cbn [negb]. rewrite Hsum.
      reflexivity.
Qed.

Lemma moving_average_checks_weights_witness :
  (length recovering_then_failed < 2 \/
   recovering_then_failed !! (2 - 1) = Some NaN ->
   moving_average recovering_then_failed 2 [of_Z 1] = Ok []) /\
  (forall p, recovering_then_failed !! (2 - 1) = Some (Fin p) ->
     (length [of_Z 1] <> 2 ->
      moving_average recovering_then_failed 2 [of_Z 1] = Raise TypeError) /\
     (length [of_Z 1] = 2 -> feq (np_sum [of_Z 1]) (Fin 0) = true ->
      moving_average recovering_then_failed 2 [of_Z 1]
      = Raise ZeroDivisionError)).
Proof.
  apply (moving_average_checks_weights recovering_then_failed [of_Z 1] 2);
    [lia|discriminate].
Defined.

Lemma no_nan_check (l : list float) :
  forallb (fun x => negb (isnan x)) l = true -> NaN ∉ l.
Proof.
  intros Hall Hin. rewrite forallb_forall in Hall.
  apply list_elem_of_In in Hin. apply Hall in Hin. discriminate.
Qed.

(** The stochastic level of a window of numbers is undefined exactly when the
    window is flat. *)
Lemma stochastic_value_flat (l : list float) (n j : nat) (v : float) :
  1 <= n -> n - 1 + j < length l ->
  NaN ∉ slice l j (j + n) ->
  stochastic_value l n (n - 1 + j) = Ok v ->
  (v = NaN <-> flat (slice l j (j + n))).
Proof.
  intros Hn Hj Hnan. unfold stochastic_value.
  pose proof (slice_window_lookup l n (n - 1 + j) (n - 1) Hn) as Hw.
  replace (n - 1 + j + 1 - n) with j in * by lia.
  replace (n - 1 + j + 1) with (j + n) in * by lia.
  intros H.
  apply bind_ok in H as (today & Htoday & H). apply index_ok in Htoday.
  apply bind_ok in H as (hi & Hhi & H).
  apply bind_ok in H as (lo & Hlo & H).
  assert (Hin : today ∈ slice l j (j + n)).
  { apply list_elem_of_lookup. exists (n - 1). rewrite Hw by lia.
    now replace (j + (n - 1)) with (n - 1 + j) by lia. }
  clear Hw. remember (slice l j (j + n)) as win eqn:Ewin. clear Ewin.
  assert (Hfin : Forall (fun x => isnan x = false) win).
  { apply Forall_forall. intros [q|] Hx; [reflexivity|contradiction]. }
  destruct today as [t|]; [|contradiction].
  destruct win as [|x w]; [inversion Hin|].
  inversion Hfin as [|? ? Hx Hrest]; subst.
  destruct x as [a|]; [|discriminate].
  destruct (fold_fmaximum_of_fin w a Hrest) as [h Hh].
  destruct (fold_fminimum_of_fin w a Hrest) as [m Hm].
  assert (Hhi' : np_max (Fin a :: w) = Ok (Fin h)).
  { unfold np_max. now rewrite Hh. }
  assert (Hlo' : np_min (Fin a :: w) = Ok (Fin m)).
  { unfold np_min. now rewrite Hm. }
  rewrite Hhi' in Hhi. injection Hhi as <-.
  rewrite Hlo' in Hlo. injection Hlo as <-.
  apply np_max_fin in Hhi' as [Hmax Hhin].
  apply np_min_fin in Hlo' as [Hmin Hmin_in].
  rewrite Forall_forall in Hmax, Hmin.
  simpl in H. destruct (Qeq_bool (h - m) 0) eqn:E; injection H as <-.
  - split; [intros _|reflexivity]. intros p q Hp Hq.
    apply Qeq_bool_iff in E.
    destruct (Hmax _ Hp) as (p1 & [= <-] & Hph).
    destruct (Hmin _ Hp) as (p2 & [= <-] & Hmp).
    destruct (Hmax _ Hq) as (q1 & [= <-] & Hqh).
    destruct (Hmin _ Hq) as (q2 & [= <-] & Hmq).
    lra.
  - split; [discriminate|]. intros Hflat. exfalso.
    apply Qeq_bool_false_neq in E. apply E.
    specialize (Hflat h m Hhin Hmin_in). lra.
Qed.

(** X10.  A level of the stochastic oscillator whose window of [n] days
    holds numbers only is undefined ([NaN]) exactly when all the prices of
    the window are equal; the level [j] is that of the window that starts on
    day [j]. *)
Theorem stochastic_undefined_iff_flat (stock_price : list float) (n : nat)
    (osc : list float) (j : nat) (v : float) :
  1 <= n ->
  oscillator stock_price n "stochastic" = Ok osc ->
  osc !! j = Some v ->
  NaN ∉ slice stock_price j (j + n) ->
  (v = NaN <-> flat (slice stock_price j (j + n))).
Proof.
  intros Hn Hosc Hj Hnan.
  destruct (oscillator_closed stock_price n "stochastic" Hn)
    as (osc' & Hosc' & _ & Hlen & Hval).
  rewrite Hosc in Hosc'. injection Hosc' as <-.
  pose proof (lookup_lt_Some _ _ _ Hj) as Hlt.
  rewrite Hlen in Hlt by now left.
  pose proof (days_before_failure_le (drop (n - 1) stock_price)) as Hle.
  rewrite length_drop in Hle.
  apply (stochastic_value_flat stock_price n j v Hn); [lia|exact Hnan|].
  apply Hval in Hj. exact Hj.
Qed.

Lemma stochastic_undefined_iff_flat_witness :
  exists osc,
    oscillator rise_flat_fall 3 "stochastic" = Ok osc /\
    osc !! 3 = Some NaN /\
    (NaN = NaN <-> flat (slice rise_flat_fall 3 (3 + 3))).
Proof.
  eexists. split; [vm_compute; reflexivity|]. split; [reflexivity|].
  refine (stochastic_undefined_iff_flat rise_flat_fall 3 _ 3 NaN _ _ _ _).
  - lia.
  - vm_compute. reflexivity.
  - reflexivity.
  - apply no_nan_check. reflexivity.
Defined.

(** The differences that [rsi_value] takes in the window that starts on day
    [j]: those of each day of the window but the last with the next day. *)
Lemma rsi_differences (l : list float) (n j : nat) (ds : list float) :
  1 <= n ->
  map_each
    (fun k =>
       a <- index l (n - 1 + j + 2 - n + k) ;
       b <- index l (n - 1 + j + 1 - n + k) ;
       Ok (fsub a b))
    (range 0 (n - 1)) = Ok ds ->
  forall d, d ∈ ds <->
    exists k a b, k < n - 1 /\ l !! (j + k) = Some b /\
                  l !! (j + k + 1) = Some a /\ d = fsub a b.
Proof.
  intros Hn Hds d. apply map_each_lookup in Hds as [Hlen Hlook].
  unfold range in Hlen, Hlook. rewrite length_seq in Hlen. split.
  - intros Hd. apply list_elem_of_lookup in Hd as [k Hk].
    pose proof (lookup_lt_Some _ _ _ Hk) as Hlt. rewrite Hlen in Hlt.
    destruct (Hlook k (0 + k)) as (y & Hy & Hf);
      [apply lookup_seq_lt; lia|].
    assert (y = d) by congruence. subst y.
    apply bind_ok in Hf as (a & Ha & Hf).
    apply bind_ok in Hf as (b & Hb & Hf).
    apply index_ok in Ha, Hb. injection Hf as <-.
    exists k, a, b. split; [lia|].
    replace (n - 1 + j + 2 - n + (0 + k)) with (j + k + 1) in Ha by lia.
    replace (n - 1 + j + 1 - n + (0 + k)) with (j + k) in Hb by lia.
    auto.
  - intros (k & a & b & Hk & Hb & Ha & ->).
    destruct (Hlook k (0 + k)) as (y & Hy & Hf);
      [apply lookup_seq_lt; lia|].
    replace (n - 1 + j + 2 - n + (0 + k)) with (j + k + 1) in Hf by lia.
    replace (n - 1 + j + 1 - n + (0 + k)) with (j + k) in Hf by lia.
    apply index_ok in Ha, Hb. rewrite Ha, Hb in Hf. cbn [bind] in Hf.
    injection Hf as <-. apply list_elem_of_lookup. eauto.
Qed.

Lemma filter_nonempty {A : Type} (P : A -> Prop) `{forall x, Decision (P x)}
    (l : list A) :
  filter P l <> [] <-> exists x, x ∈ l /\ P x.
Proof.
  split.
  - intros Hne. destruct (filter P l) as [|x r] eqn:E; [congruence|].
    assert (Hx : x ∈ filter P l) by (rewrite E; left).
    apply list_elem_of_filter in Hx as [HP Hx]. eauto.
  - intros (x & Hx & HP) E.
    assert (Hin : x ∈ filter P l) by (apply list_elem_of_filter; auto).
    rewrite E in Hin. inversion Hin.
Qed.

Lemma rsi_rising (l : list float) (n j : nat) (ds : list float) :
  (forall d, d ∈ ds <->
     exists k a b, k < n - 1 /\ l !! (j + k) = Some b /\
                   l !! (j + k + 1) = Some a /\ d = fsub a b) ->
  filter (fun x => Is_true (fgt x (Fin 0))) ds <> [] <-> rises l n j.
Proof.
  intros Hds. rewrite filter_nonempty. split.
  - intros (d & Hd & Hpos). apply Hds in Hd as (k & a & b & Hk & Hb & Ha & ->).
    destruct a as [q|], b as [p|]; try contradiction.
    exists k, p, q. repeat split; try assumption.
    apply Is_true_true in Hpos. unfold fgt, flt, fsub in Hpos.
    apply Qlt_bool_iff in Hpos. lra.
  - intros (k & p & q & Hk & Hp & Hq & Hlt).
    exists (fsub (Fin q) (Fin p)). split.
    + apply Hds. exists k, (Fin q), (Fin p). auto.
    + apply Is_true_true. unfold fgt, flt, fsub. apply Qlt_bool_iff. lra.
Qed.

Lemma rsi_falling (l : list float) (n j : nat) (ds : list float) :
  (forall d, d ∈ ds <->
     exists k a b, k < n - 1 /\ l !! (j + k) = Some b /\
                   l !! (j + k + 1) = Some a /\ d = fsub a b) ->
  filter (fun x => Is_true (flt x (Fin 0))) ds <> [] <-> falls l n j.
Proof.
  intros Hds. rewrite filter_nonempty. split.
  - intros (d & Hd & Hneg). apply Hds in Hd as (k & a & b & Hk & Hb & Ha & ->).
    destruct a as [q|], b as [p|]; try contradiction.
    exists k, p, q. repeat split; try assumption.
    apply Is_true_true in Hneg. unfold flt, fsub in Hneg.
    apply Qlt_bool_iff in Hneg. lra.
  - intros (k & p & q & Hk & Hp & Hq & Hlt).
    exists (fsub (Fin q) (Fin p)). split.
    + apply Hds. exists k, (Fin q), (Fin p). auto.
    + apply Is_true_true. unfold flt, fsub. apply Qlt_bool_iff. lra.
Qed.

(** The four cases of the RSI of the window that starts on day [j]. *)
Lemma rsi_value_cases (l : list float) (n j : nat) (v : float) :
  1 <= n ->
  rsi_value l n (n - 1 + j) = Ok v ->
  (rises l n j -> falls l n j -> exists q, v = Fin q /\ (0 <= q <= 1)%Q) /\
  (rises l n j -> ~ falls l n j -> v = Fin 1) /\
  (~ rises l n j -> falls l n j -> v = Fin 0) /\
  (~ rises l n j -> ~ falls l n j -> v = NaN).
Proof.
  intros Hn. unfold rsi_value. intros H.
  apply bind_ok in H as (ds & Hds & H).
  pose proof (rsi_differences l n j ds Hn Hds) as Hdiff.
  pose proof (rsi_rising l n j ds Hdiff) as Hup.
  pose proof (rsi_falling l n j ds Hdiff) as Hdown.
  set (up := filter (fun x => Is_true (fgt x (Fin 0))) ds) in *.
  set (down := filter (fun x => Is_true (flt x (Fin 0))) ds) in *.
  assert (Hu : (length up =? 0) = true <-> ~ rises l n j).
  { rewrite length_eqb_nil, <- Hup. destruct up; split; intros E;
      try congruence; try tauto. exfalso. apply E. discriminate. }
  assert (Hd : (length down =? 0) = true <-> ~ falls l n j).
  { rewrite length_eqb_nil, <- Hdown. destruct down; split; intros E;
      try congruence; try tauto. exfalso. apply E. discriminate. }
  assert (Hu' : (length up =? 0) = false -> rises l n j).
  { intros E. apply Hup. intros E'. apply length_eqb_nil in E'. congruence. }
  assert (Hd' : (length down =? 0) = false -> falls l n j).
  { intros E. apply Hdown. intros E'. apply length_eqb_nil in E'.
    congruence. }
  destruct (length up =? 0) eqn:Eup, (length down =? 0) eqn:Edown;
    cbn [negb andb] in H; injection H as <-.
  - assert (~ rises l n j) by now apply Hu.
    assert (~ falls l n j) by now apply Hd.
    repeat split; intros; try reflexivity; exfalso; tauto.
  - assert (~ rises l n j) by now apply Hu.
    assert (falls l n j) by now apply Hd'.
    repeat split; intros; try reflexivity; exfalso; tauto.
  - assert (rises l n j) by now apply Hu'.
    assert (~ falls l n j) by now apply Hd.
    repeat split; intros; try reflexivity; exfalso; tauto.
  - assert (Hr : rises l n j) by now apply Hu'.
    assert (Hf : falls l n j) by now apply Hd'.
    destruct (rsi_of_mixed up down) as (q & Hq & Hrange);
      [apply Hup, Hr|apply Hdown, Hf|apply filter_rising|apply filter_falling|].
    split; [|repeat split; intros; exfalso; tauto].
    intros _ _. exists q. split; [exact Hq|lra].
Qed.

(** X11.  The level [j] of the RSI is that of the [n] days from day [j] on.
    It is 1 when the price rises somewhere in the window and falls nowhere,
    0 when it falls somewhere and rises nowhere, undefined ([NaN]) when it
    neither rises nor falls (as in a window of one day), and a number from 0
    to 1 when it does both. *)
Theorem rsi_levels (stock_price : list float) (n : nat) (osc : list float)
    (j : nat) (v : float) :
  1 <= n ->
  oscillator stock_price n "RSI" = Ok osc ->
  osc !! j = Some v ->
  (rises stock_price n j -> falls stock_price n j ->
   exists q, v = Fin q /\ (0 <= q <= 1)%Q) /\
  (rises stock_price n j -> ~ falls stock_price n j -> v = Fin 1) /\
  (~ rises stock_price n j -> falls stock_price n j -> v = Fin 0) /\
  (~ rises stock_price n j -> ~ falls stock_price n j -> v = NaN).
Proof.
  intros Hn Hosc Hj.
  destruct (oscillator_closed stock_price n "RSI" Hn)
    as (osc' & Hosc' & _ & _ & Hval).
  rewrite Hosc in Hosc'. injection Hosc' as <-.
  apply (rsi_value_cases stock_price n j v Hn).
  apply Hval in Hj. exact Hj.
Qed.

Lemma rsi_levels_witness :
  (rises rise_flat_fall 3 5 -> falls rise_flat_fall 3 5 ->
   exists q, Fin 0 = Fin q /\ (0 <= q <= 1)%Q) /\
  (rises rise_flat_fall 3 5 -> ~ falls rise_flat_fall 3 5 -> Fin 0 = Fin 1) /\
  (~ rises rise_flat_fall 3 5 -> falls rise_flat_fall 3 5 -> Fin 0 = Fin 0) /\
  (~ rises rise_flat_fall 3 5 -> ~ falls rise_flat_fall 3 5 -> Fin 0 = NaN).
Proof.
  apply (rsi_levels rise_flat_fall 3
           [Fin 1; Fin 1; Fin 1; NaN; NaN; Fin 0] 5 (Fin 0)).
  - lia.
  - vm_compute. reflexivity.
  - reflexivity.
Defined.

(** ** The generated prices *)

Lemma fle_false_positive (q : Q) : Qle_bool q 0 = false -> (0 < q)%Q.
Proof.
  intros E. destruct (Qlt_le_dec 0 q) as [|Hle]; [assumption|].
  apply Qle_bool_iff in Hle. congruence.
Qed.

(** The price that one day of the generator writes. *)
Lemma day_body_price (rng : nat -> data.draw) (days : nat)
    (volatility : float) (sp td sp' td' : list float) (day : nat) :
  data.day_body rng days volatility (sp, td) day = Ok (sp', td') ->
  exists x, sp' !! day = Some x /\ price_or_failure x.
Proof.
  unfold data.day_body. intros H.
  apply bind_ok in H as (prev & Hprev & H).
  apply bind_ok in H as (td1 & Htd & H).
  apply bind_ok in H as (drift & Hdrift & H).
  apply bind_ok in H as (sp1 & Hsp & H).
  injection H as <- <-.
  destruct (fle _ _) eqn:E; apply setitem_ok in Hsp as [Hlt ->];
    rewrite list_lookup_insert_eq by exact Hlt.
  - exists NaN. split; [reflexivity|now left].
  - eexists. split; [reflexivity|].
    destruct (fadd (fadd prev _) drift) as [q|]; [right|now left].
    exists q. split; [reflexivity|]. now apply fle_false_positive.
Qed.

(** [generate_stock_price] for at least one day returns one price per day:
    the initial price on day 0, then the failure marker or positive numbers,
    and only the failure marker after a failure marker. *)
Lemma generate_stock_price_spec (rng : nat -> data.draw) (days : nat)
    (initial_price volatility : float) :
  1 <= days ->
  exists stock_prices,
    data.generate_stock_price rng days initial_price volatility
      = Ok stock_prices /\
    length stock_prices = days /\
    stock_prices !! 0 = Some initial_price /\
    (forall d x, 1 <= d -> stock_prices !! d = Some x -> price_or_failure x) /\
    failure_permanent stock_prices.
Proof.
  intros Hdays. unfold data.generate_stock_price.
  assert (Hset : setitem (repeat (Fin 0) days) 0 initial_price
                 = Ok (<[0:=initial_price]> (repeat (Fin 0) days))).
  { apply setitem_ok. rewrite repeat_length. split; [lia|reflexivity]. }
  rewrite Hset. cbn [bind].
  destruct (for_each_seq_total
              (fun j st =>
                 generated_upto days j st /\
                 fst st !! 0 = Some initial_price /\
                 forall d x, 1 <= d < j -> fst st !! d = Some x ->
                   price_or_failure x)
              (data.day_body rng days volatility) (days - 1) 1
              (<[0:=initial_price]> (repeat (Fin 0) days), repeat (Fin 0) days))
    as (st' & Hrun & Hinv).
  - split; [|split].
    + repeat split; simpl; rewrite ?length_insert, ?repeat_length; try lia.
    + simpl. apply list_lookup_insert_eq. rewrite repeat_length. lia.
    + intros d x Hd. lia.
  - intros i [sp td] Hi (Hgen & Hzero & Hpos).
    pose proof Hgen as (Hsp & Htd & _).
    destruct (day_body_total rng days volatility sp td i) as [[sp' td'] Hs'];
      [exact Hsp|exact Htd|lia|].
    exists (sp', td'). split; [exact Hs'|].
    pose proof (day_body_spec rng days volatility sp td sp' td' i Hs')
      as (_ & _ & Hother & _).
    split; [|split].
    + eapply day_body_preserves; [|exact Hgen|exact Hs']. lia.
    + simpl in *. rewrite Hother by lia. exact Hzero.
    + simpl in *. intros d x Hd Hx.
      destruct (decide (d = i)) as [->|Hne].
      * destruct (day_body_price rng days volatility sp td sp' td' i Hs')
          as (y & Hy & Hprice).
        assert (y = x) by congruence. now subst y.
      * rewrite Hother in Hx by exact Hne. apply (Hpos d x); [lia|exact Hx].
  - unfold range. rewrite Hrun. cbn [bind]. exists (fst st').
    replace (1 + (days - 1)) with days in Hinv by lia.
    destruct Hinv as ((Hsp & _ & Hperm) & Hzero & Hpos).
    split; [reflexivity|]. split; [exact Hsp|]. split; [exact Hzero|].
    split.
    + intros d x Hd Hx. apply (Hpos d x); [|exact Hx].
      apply lookup_lt_Some in Hx. lia.
    + intros d d' [Hlt Hd'] Hd. rewrite Hsp in Hd'.
      induction d' as [|d' IH]; [lia|].
      destruct (decide (d = d')) as [->|Hne].
      * apply (Hperm (S d')); [lia|]. now replace (S d' - 1) with d' by lia.
      * apply (Hperm (S d')); [lia|]. replace (S d' - 1) with d' by lia.
        apply IH; lia.
Qed.

(** X12.  [generate_stock_price] raises [IndexError] for no day at all.  For
    at least one day and a volatility larger than 0, the scale that the
    draws of [rng.normal] accept, it returns one price per day: the initial
    price on day 0, and on every later day the failure marker [NaN] or a
    positive number, never zero or a negative number. *)
Theorem generate_stock_price_positive (rng : nat -> data.draw) (days : nat)
    (initial_price volatility : float) :
  (days = 0 ->
   data.generate_stock_price rng days initial_price volatility
   = Raise IndexError) /\
  (1 <= days -> valid_volatility volatility ->
   exists stock_prices,
     data.generate_stock_price rng days initial_price volatility
       = Ok stock_prices /\
     length stock_prices = days /\
     stock_prices !! 0 = Some initial_price /\
     forall d x, 1 <= d -> stock_prices !! d = Some x -> price_or_failure x).
Proof.
  split.
  - intros ->. reflexivity.
  - intros Hdays _.
    destruct (generate_stock_price_spec rng days initial_price volatility
                Hdays) as (sp & Hrun & Hlen & Hzero & Hpos & _).
    exists sp. auto.
Qed.

Lemma valid_volatility_one : valid_volatility (of_Z 1).
Proof. exists 1%Q. split; reflexivity. Qed.

Lemma generate_stock_price_positive_witness :
  exists stock_prices,
    data.generate_stock_price sample_generator 4 (of_Z 1) (of_Z 1)
      = Ok stock_prices /\
    length stock_prices = 4 /\
    stock_prices !! 0 = Some (of_Z 1) /\
    forall d x, 1 <= d -> stock_prices !! d = Some x -> price_or_failure x.
Proof.
  apply (proj2 (generate_stock_price_positive sample_generator 4 (of_Z 1)
                  (of_Z 1))).
  - lia.
  - exact valid_volatility_one.
Defined.

(** ** The generated data *)

Lemma for_each_app {A St : Type} (xs ys : list A)
    (body : St -> A -> result St) (st : St) :
  for_each (xs ++ ys) body st
  = bind (for_each xs body st) (for_each ys body).
Proof.
  revert st. induction xs as [|x xs IH]; intros st; simpl; [reflexivity|].
  destruct (body st x) as [s|e]; simpl; [apply IH|reflexivity].
Qed.

Lemma setcolumn_rows_length (rs : list (list float)) (v : list float)
    (s N : nat) :
  Forall (fun r => length r = N) rs ->
  Forall (fun r => length r = N) (zip_with (fun r x => <[s:=x]> r) rs v).
Proof.
  intros Hrs. revert v. induction Hrs as [|r rs Hr Hrs IH]; intros [|x v];
    simpl; constructor; [now rewrite length_insert|apply IH].
Qed.

Lemma map_each_setcolumn_eq (rs : list (list float)) (v : list float)
    (s : nat) :
  length v = length rs -> Forall (fun r => s < length r) rs ->
  map_each (fun r => index r s) (zip_with (fun r x => <[s:=x]> r) rs v)
  = Ok v.
Proof.
  revert v. induction rs as [|r rs IH]; intros [|x v] Hlen Hall;
    simpl in *; try discriminate; [reflexivity|].
  inversion Hall as [|? ? Hr Hrest]; subst.
  unfold index at 1. rewrite list_lookup_insert_eq by exact Hr. cbn [bind].
  rewrite IH by (try lia; assumption). reflexivity.
Qed.

Lemma map_each_setcolumn_ne (rs : list (list float)) (v : list float)
    (s s' : nat) :
  s' <> s -> length v = length rs ->
  map_each (fun r => index r s') (zip_with (fun r x => <[s:=x]> r) rs v)
  = map_each (fun r => index r s') rs.
Proof.
  intros Hne. revert v. induction rs as [|r rs IH]; intros [|x v] Hlen;
    simpl in *; try discriminate; [reflexivity|].
  unfold index at 1 3. rewrite list_lookup_insert_ne by auto.
  rewrite IH by lia. reflexivity.
Qed.

(** What [a[:, s] = v] does to an array whose rows have [shape1 a] cells. *)
Lemma setcolumn_spec (a : ndarray) (s : nat) (v : list float) :
  s < shape1 a -> length v = shape0 a ->
  Forall (fun r => length r = shape1 a) (rows a) ->
  exists a',
    setcolumn a s v = Ok a' /\
    shape1 a' = shape1 a /\ shape0 a' = shape0 a /\
    Forall (fun r => length r = shape1 a) (rows a') /\
    column a' s = Ok v /\
    forall s', s' <> s -> column a' s' = column a s'.
Proof.
  intros Hs Hv Hrows. unfold setcolumn.
  destruct (Nat.ltb_spec s (shape1 a)) as [_|]; [|lia].
  rewrite Hv, Nat.eqb_refl. eexists. split; [reflexivity|].
  unfold shape0, column in *. simpl.
  split; [reflexivity|]. split; [rewrite length_zip_with; lia|].
  split; [now apply setcolumn_rows_length|].
  destruct (Nat.ltb_spec s (shape1 a)) as [_|]; [|lia]. split.
  - apply map_each_setcolumn_eq; [exact Hv|].
    eapply Forall_impl; [exact Hrows|]. simpl. intros r ->. exact Hs.
  - intros s' Hne. destruct (s' <? shape1 a); [|reflexivity].
    now apply map_each_setcolumn_ne.
Qed.

Lemma zeros_rows (d n : nat) :
  Forall (fun r => length r = n) (rows (zeros d n)).
Proof.
  unfold zeros. simpl. apply Forall_forall. intros r Hr.
  apply list_elem_of_In, repeat_spec in Hr. subst r. apply repeat_length.
Qed.

(** A cell of an array is a cell of its column. *)
Lemma getitem_column (a : ndarray) (d s : nat) (x : float)
    (col : list float) :
  getitem a d s = Ok x -> column a s = Ok col -> col !! d = Some x.
Proof.
  intros Hx. unfold column. destruct (s <? shape1 a); [|discriminate].
  intros Hcol. apply map_each_lookup in Hcol as [_ Hlook].
  apply getitem_ok in Hx as (r & Hr & Hx).
  destruct (Hlook d r Hr) as (y & Hy & Hidx). apply index_ok in Hidx.
  congruence.
Qed.

(** The loop of [get_data] over the companies, for any number of days. *)
Lemma generate_columns (rng : nat -> nat -> data.draw) (days : nat)
    (initial_price volatility : list float) (k : nat) :
  1 <= days -> k <= length initial_price -> k <= length volatility ->
  exists sim_data,
    for_each (seq 0 k)
      (fun sim_data i =>
         p <- index initial_price i ;
         v <- index volatility i ;
         prices <- data.generate_stock_price (rng i) days p v ;
         setcolumn sim_data i prices)
      (zeros days (length initial_price)) = Ok sim_data /\
    shape0 sim_data = days /\ shape1 sim_data = length initial_price /\
    Forall (fun r => length r = length initial_price) (rows sim_data) /\
    forall i p v,
      i < k -> initial_price !! i = Some p -> volatility !! i = Some v ->
      exists prices,
        data.generate_stock_price (rng i) days p v = Ok prices /\
        column sim_data i = Ok prices.
Proof.
  intros Hdays Hk Hvol.
  destruct (for_each_seq_total
              (fun j sim_data =>
                 shape0 sim_data = days /\
                 shape1 sim_data = length initial_price /\
                 Forall (fun r => length r = length initial_price)
                   (rows sim_data) /\
                 forall i p v,
                   i < j -> initial_price !! i = Some p ->
                   volatility !! i = Some v ->
                   exists prices,
                     data.generate_stock_price (rng i) days p v = Ok prices /\
                     column sim_data i = Ok prices)
              (fun sim_data i =>
                 p <- index initial_price i ;
                 v <- index volatility i ;
                 prices <- data.generate_stock_price (rng i) days p v ;
                 setcolumn sim_data i prices)
              k 0 (zeros days (length initial_price)))
    as (sim & Hrun & Hinv).
  - split; [|split; [|split]].
    + unfold shape0, zeros. simpl. apply repeat_length.
    + reflexivity.
    + apply zeros_rows.
    + intros i p v Hi. lia.
  - intros i a Hi (H0 & H1 & Hrows & Hcols).
    destruct (lookup_lt_is_Some_2 initial_price i) as [p Hp]; [lia|].
    destruct (lookup_lt_is_Some_2 volatility i) as [v Hv]; [lia|].
    destruct (generate_stock_price_spec (rng i) days p v Hdays)
      as (prices & Hgen & Hlen & _).
    destruct (setcolumn_spec a i prices) as (a' & Hset & H1' & H0' & Hrows' &
                                             Hcol & Hother);
      [lia|lia|now rewrite H1|].
    exists a'. split.
    + apply index_ok in Hp, Hv. rewrite Hp. cbn [bind]. rewrite Hv.
      cbn [bind]. rewrite Hgen. cbn [bind]. exact Hset.
    + split; [lia|]. split; [lia|]. split; [now rewrite <- H1|].
      intros i' p' v' Hi' Hp' Hv'.
      destruct (decide (i' = i)) as [->|Hne].
      * assert (p' = p) by congruence. assert (v' = v) by congruence.
        subst p' v'. exists prices. auto.
      * rewrite (Hother i' Hne). apply Hcols; [lia|assumption..].
  - exists sim. split; [exact Hrun|]. exact Hinv.
Qed.

(** [get_data] with the method ['generate'] and enough volatilities. *)
Lemma get_data_generate_returns (rng : nat -> nat -> data.draw)
    (initial_price volatility : list float) :
  length initial_price <= length volatility ->
  exists sim_data,
    get_data_generate rng (Some initial_price) (Some volatility)
      = Ok (Some sim_data) /\
    shape0 sim_data = 1825 /\ shape1 sim_data = length initial_price /\
    Forall (fun r => length r = length initial_price) (rows sim_data) /\
    forall i p v,
      initial_price !! i = Some p -> volatility !! i = Some v ->
      exists prices,
        data.generate_stock_price (rng i) 1825 p v = Ok prices /\
        column sim_data i = Ok prices.
Proof.
  intros Hlen. unfold get_data_generate, range. cbv zeta.
  rewrite Nat.sub_0_r. remember 1825 as days eqn:Edays.
  assert (Hdays : 1 <= days) by lia. clear Edays.
  destruct (generate_columns rng days initial_price volatility
              (length initial_price) Hdays (le_n _) Hlen)
    as (sim & Hrun & H0 & H1 & Hrows & Hcols).
  rewrite Hrun. cbn [bind]. exists sim. repeat split; try assumption.
  intros i p v Hp Hv. apply (Hcols i p v); [|assumption..].
  now apply lookup_lt_Some in Hp.
Qed.

(** With too few volatilities the loop stops at the first company that has
    none. *)
Lemma get_data_generate_short (rng : nat -> nat -> data.draw)
    (initial_price volatility : list float) :
  length volatility < length initial_price ->
  get_data_generate rng (Some initial_price) (Some volatility)
  = Raise IndexError.
Proof.
  intros Hlen. unfold get_data_generate, range. cbv zeta.
  rewrite Nat.sub_0_r. remember 1825 as days eqn:Edays.
  assert (Hdays : 1 <= days) by lia. clear Edays.
  replace (length initial_price)
    with (length volatility
          + S (length initial_price - S (length volatility))) at 1 by lia.
  rewrite seq_app, for_each_app.
  destruct (generate_columns rng days initial_price volatility
              (length volatility) Hdays) as (sim & Hrun & _);
    [lia|lia|].
  rewrite Hrun. cbn [bind seq for_each plus].
  destruct (lookup_lt_is_Some_2 initial_price (length volatility))
    as [p Hp]; [lia|].
  apply index_ok in Hp. rewrite Hp. cbn [bind].
  unfold index. rewrite (lookup_ge_None_2 volatility) by lia. reflexivity.
Qed.

(** X13.  [get_data] with the method ['generate'], a list of initial prices
    and a list of at least as many volatilities, all larger than 0, never
    raises: it returns an array of 1825 days with one column per initial
    price, and column [i] is the path that [generate_stock_price] gives for
    1825 days, the initial price [i] and the volatility [i].  With fewer
    volatilities than initial prices it raises [IndexError], and with an
    argument left out it returns [None]. *)
Theorem get_data_generate_columns (rng : nat -> nat -> data.draw)
    (initial_price volatility : list float) :
  Forall valid_volatility volatility ->
  (length initial_price <= length volatility ->
   exists sim_data,
     get_data_generate rng (Some initial_price) (Some volatility)
       = Ok (Some sim_data) /\
     shape0 sim_data = 1825 /\ shape1 sim_data = length initial_price /\
     forall i p v,
       initial_price !! i = Some p -> volatility !! i = Some v ->
       exists prices,
         data.generate_stock_price (rng i) 1825 p v = Ok prices /\
         column sim_data i = Ok prices) /\
  (length volatility < length initial_price ->
   get_data_generate rng (Some initial_price) (Some volatility)
   = Raise IndexError) /\
  get_data_generate rng None (Some volatility) = Ok None /\
  get_data_generate rng (Some initial_price) None = Ok None /\
  get_data_generate rng None None = Ok None.
Proof.
  intros _. split; [|split; [|repeat split]].
  - intros Hlen.
    destruct (get_data_generate_returns rng initial_price volatility Hlen)
      as (sim & Hrun & H0 & H1 & _ & Hcols).
    exists sim. auto.
  - apply get_data_generate_short.
Qed.

Lemma get_data_generate_columns_witness :
  exists sim_data,
    get_data_generate (fun _ => sample_generator)
      (Some [of_Z 5; of_Z 7]) (Some [of_Z 1; of_Z 1])
      = Ok (Some sim_data) /\
    shape0 sim_data = 1825 /\ shape1 sim_data = length [of_Z 5; of_Z 7] /\
    forall i p v,
      [of_Z 5; of_Z 7] !! i = Some p -> [of_Z 1; of_Z 1] !! i = Some v ->
      exists prices,
        data.generate_stock_price sample_generator 1825 p v = Ok prices /\
        column sim_data i = Ok prices.
Proof.
  apply (proj1 (get_data_generate_columns (fun _ => sample_generator)
                  [of_Z 5; of_Z 7] [of_Z 1; of_Z 1]
                  ltac:(repeat constructor; exact valid_volatility_one))).
  simpl. lia.
Defined.

(** X14.  The data that [get_data] generates from initial prices that are
    positive numbers can be traded: every row has one cell per column, the
    first row holds the initial prices, every number in the array is
    positive, and in every column a failure marker is followed by failure
    markers only. *)
Theorem get_data_generate_tradable (rng : nat -> nat -> data.draw)
    (initial_price volatility : list float) (sim_data : ndarray) :
  Forall (fun p => exists q, p = Fin q /\ (0 < q)%Q) initial_price ->
  get_data_generate rng (Some initial_price) (Some volatility)
    = Ok (Some sim_data) ->
  well_formed sim_data /\
  (forall i p, initial_price !! i = Some p -> getitem sim_data 0 i = Ok p) /\
  positive_prices sim_data /\
  (forall s prices, column sim_data s = Ok prices -> failure_permanent prices).
Proof.
  intros Hpos Hrun.
  assert (Hle : length initial_price <= length volatility).
  { destruct (le_lt_dec (length initial_price) (length volatility))
      as [|Hlt]; [assumption|exfalso].
    pose proof (get_data_generate_short rng initial_price volatility Hlt).
    congruence. }
  destruct (get_data_generate_returns rng initial_price volatility Hle)
    as (sim & Hsim & _ & Hshape & Hrows & Hc).
  assert (sim = sim_data) by congruence. subst sim. clear Hsim.
  assert (Hcols : forall i, i < length initial_price ->
            exists p prices,
              initial_price !! i = Some p /\
              column sim_data i = Ok prices /\
              prices !! 0 = Some p /\
              (forall d x, 1 <= d -> prices !! d = Some x ->
                 price_or_failure x) /\
              failure_permanent prices).
  { intros i Hi.
    destruct (lookup_lt_is_Some_2 initial_price i Hi) as [p Hp].
    destruct (lookup_lt_is_Some_2 volatility i) as [v Hv]; [lia|].
    destruct (Hc i p v Hp Hv) as (prices & Hgen & Hcol).
    destruct (generate_stock_price_spec (rng i) 1825 p v)
      as (prices' & Hgen' & _ & Hzero & Hlater & Hperm); [lia|].
    assert (prices' = prices) by congruence. subst prices'.
    exists p, prices. auto. }
  split; [unfold well_formed; now rewrite Hshape|].
  split; [|split].
  - intros i p Hp.
    destruct (Hcols i) as (p' & prices & Hp' & Hcol & Hzero & _).
    { now apply lookup_lt_Some in Hp. }
    assert (p' = p) by congruence. subst p'.
    now apply (column_lookup _ _ _ prices).
  - intros d s x Hx.
    assert (Hs : s < length initial_price).
    { apply getitem_ok in Hx as (r & Hr & Hx).
      rewrite Forall_forall in Hrows.
      rewrite <- (Hrows r) by (apply list_elem_of_lookup; eauto).
      now apply lookup_lt_Some in Hx. }
    destruct (Hcols s Hs) as (p & prices & Hp & Hcol & Hzero & Hlater & _).
    pose proof (getitem_column _ _ _ _ _ Hx Hcol) as Hd.
    destruct d as [|d].
    + rewrite Forall_forall in Hpos.
      destruct (Hpos p) as (q & -> & Hq).
      { apply list_elem_of_lookup. eauto. }
      assert (Hxq : Fin x = Fin q) by congruence.
      injection Hxq as ->. exact Hq.
    + destruct (Hlater (S d) (Fin x)) as [Hnan|(q & [= <-] & Hq)];
        [lia|exact Hd|discriminate|exact Hq].
  - intros s prices Hcol.
    assert (Hs : s < length initial_price).
    { rewrite <- Hshape. unfold column in Hcol.
      destruct (Nat.ltb_spec s (shape1 sim_data)); [assumption|discriminate]. }
    destruct (Hcols s Hs) as (p & prices' & Hp & Hcol' & _ & _ & Hperm).
    assert (prices' = prices) by congruence. now subst prices'.
Qed.

Lemma get_data_generate_tradable_witness :
  exists sim_data,
    get_data_generate (fun _ => sample_generator) (Some [of_Z 5])
      (Some [of_Z 1]) = Ok (Some sim_data) /\
    well_formed sim_data /\
    (forall i p, [of_Z 5] !! i = Some p -> getitem sim_data 0 i = Ok p) /\
    positive_prices sim_data /\
    (forall s prices,
       column sim_data s = Ok prices -> failure_permanent prices).
Proof.
  destruct (get_data_generate_returns (fun _ => sample_generator)
              [of_Z 5] [of_Z 1]) as (sim_data & Hrun & _); [simpl; lia|].
  exists sim_data. split; [exact Hrun|].
  apply (get_data_generate_tradable (fun _ => sample_generator)
           [of_Z 5] [of_Z 1] sim_data); [|exact Hrun].
  repeat constructor. exists 5%Q. split; [reflexivity|lra].
Defined.

(** ** When the strategies trade, and what they never sell *)

Lemma trades_sales (stock_prices : ndarray) (fees : float)
    (funded : float -> Prop) (tradable : nat -> nat -> Prop)
    (portfolio portfolio' : list Z) (ledger ledger' : list entry) :
  trades stock_prices fees funded tradable (portfolio, ledger)
    (portfolio', ledger') ->
  all_written
    (fun e => transaction_type e = "sell" -> number_of_shares e <> 0%Z)
    ledger ledger'.
Proof.
  intros Hrun. apply trades_written in Hrun as (written & HL & _ & _ & Hall).
  exists written. split; [exact HL|].
  eapply Forall_impl; [exact Hall|].
  intros e [_ [_ [(Hty & _)|(_ & _ & Hne)]]] Hsell; [congruence|exact Hne].
Qed.

Lemma trades_days (stock_prices : ndarray) (fees : float)
    (funded : float -> Prop) (tradable : nat -> nat -> Prop)
    (portfolio portfolio' : list Z) (ledger ledger' : list entry) :
  trades stock_prices fees funded tradable (portfolio, ledger)
    (portfolio', ledger') ->
  all_written
    (fun e => date e < shape0 stock_prices /\ tradable (date e) (stock e))
    ledger ledger'.
Proof.
  intros Hrun. apply trades_written in Hrun as (written & HL & _ & _ & Hall).
  exists written. split; [exact HL|].
  eapply Forall_impl; [exact Hall|].
  intros e [Hp [Ht _]]. split; [|exact Ht].
  apply getitem_ok in Hp as (r & Hr & _). now apply lookup_lt_Some in Hr.
Qed.

Lemma all_written_impl (P Q : entry -> Prop) (ledger ledger' : list entry) :
  (forall e, P e -> Q e) ->
  all_written P ledger ledger' -> all_written Q ledger ledger'.
Proof.
  intros HPQ (written & HL & Hall). exists written. split; [exact HL|].
  eapply Forall_impl; [exact Hall|exact HPQ].
Qed.

(** X15.  No run of [random], [crossing_averages] or [momentum] that
    returns has logged a sale of 0 shares: every sale that it appends to the
    ledger is of a holding other than 0. *)
Theorem strategy_never_sells_nothing (stock_prices : prices_arg)
    (amount fees : float) (ledger : list entry) (portfolio : list Z)
    (ledger' : list entry) :
  let sold :=
    all_written
      (fun e => transaction_type e = "sell" -> number_of_shares e <> 0%Z)
      ledger ledger' in
  (forall rng period,
     random rng stock_prices period amount fees ledger
       = Ok (portfolio, ledger') -> sold) /\
  (forall m n,
     crossing_averages stock_prices m n amount fees ledger
       = Ok (portfolio, ledger') -> sold) /\
  (forall osc_type n T_over T_under cool_off_period,
     momentum stock_prices osc_type n T_over T_under amount fees
       cool_off_period ledger = Ok (portfolio, ledger') -> sold).
Proof.
  intros sold. split; [|split].
  - intros rng period Hrun. apply random_trades in Hrun.
    now apply trades_sales in Hrun.
  - intros m n Hrun. apply crossing_averages_trades in Hrun.
    now apply trades_sales in Hrun.
  - intros osc_type n T_over T_under period Hrun.
    apply momentum_trades in Hrun. now apply trades_sales in Hrun.
Qed.

Lemma strategy_never_sells_nothing_witness :
  exists portfolio ledger',
    random (fun _ _ => (-1)%Z) two_stocks 1 (of_Z 100) (of_Z 20) []
      = Ok (portfolio, ledger') /\
    all_written
      (fun e => transaction_type e = "sell" -> number_of_shares e <> 0%Z)
      [] ledger'.
Proof.
  do 2 eexists. split.
  - vm_compute. reflexivity.
  - refine (proj1 (strategy_never_sells_nothing two_stocks
                     (of_Z 100) (of_Z 20) [] _ _) (fun _ _ => (-1)%Z) 1 _).
    vm_compute. reflexivity.
Defined.

(** X16.  The entries that a run appends to the ledger are dated within the
    days of the price array, and only on trading days: for [random], day 0,
    a multiple of the period or the last day; for [crossing_averages] and
    [momentum] with the window [n], day 0, a day after day [n] or the last
    day. *)
Theorem strategy_trading_days (stock_prices : prices_arg)
    (amount fees : float) (ledger : list entry) (portfolio : list Z)
    (ledger' : list entry) :
  let days := shape0 (as_matrix stock_prices) in
  (forall rng period,
     random rng stock_prices period amount fees ledger
       = Ok (portfolio, ledger') ->
     all_written
       (fun e => date e < days /\ random_day period days (date e))
       ledger ledger') /\
  (forall m n,
     crossing_averages stock_prices m n amount fees ledger
       = Ok (portfolio, ledger') ->
     all_written
       (fun e => date e < days /\ indicator_day n days (date e))
       ledger ledger') /\
  (forall osc_type n T_over T_under cool_off_period,
     momentum stock_prices osc_type n T_over T_under amount fees
       cool_off_period ledger = Ok (portfolio, ledger') ->
     all_written
       (fun e => date e < days /\ indicator_day n days (date e))
       ledger ledger').
Proof.
  intros days. split; [|split].
  - intros rng period Hrun. apply random_trades, trades_days in Hrun.
    apply (all_written_impl _ _ _ _ (fun e H => conj (proj1 H) (proj2 (proj2 H)))
             Hrun).
  - intros m n Hrun. apply crossing_averages_trades, trades_days in Hrun.
    exact Hrun.
  - intros osc_type n T_over T_under period Hrun.
    apply momentum_trades, trades_days in Hrun. exact Hrun.
Qed.

Lemma strategy_trading_days_witness :
  exists portfolio ledger',
    random (fun _ _ => 1%Z) two_stocks 2 (of_Z 100) (of_Z 20) []
      = Ok (portfolio, ledger') /\
    all_written
      (fun e => date e < 3 /\ random_day 2 3 (date e)) [] ledger'.
Proof.
  do 2 eexists. split.
  - vm_compute. reflexivity.
  - refine (proj1 (strategy_trading_days two_stocks
                     (of_Z 100) (of_Z 20) [] _ _) (fun _ _ => 1%Z) 2 _).
    vm_compute. reflexivity.
Defined.

(** ** The initial portfolio *)

Lemma lookup_repeat {A : Type} (x : A) (n i : nat) :
  i < n -> repeat x n !! i = Some x.
Proof.
  revert i. induction n as [|n IH]; intros [|i] Hi; simpl; try lia;
    [reflexivity|apply IH; lia].
Qed.

(** What a call of [create_portfolio] that returns has done. *)
Lemma create_portfolio_inv (amounts : list float) (stock_prices : ndarray)
    (fees : float) (ledger : list entry) (portfolio : list Z)
    (ledger' : list entry) :
  create_portfolio amounts stock_prices fees ledger = Ok (portfolio, ledger') ->
  length portfolio = shape1 stock_prices /\
  exists written,
    ledger' = ledger ++ written /\
    length written = shape1 stock_prices /\
    forall i, i < shape1 stock_prices ->
      exists amount price shares,
        amounts !! i = Some amount /\
        getitem stock_prices 0 i = Ok price /\
        py_int (fdiv (fsub amount fees) price) = Ok shares /\
        portfolio !! i = Some shares /\
        written !! i = Some (buy_entry 0 i shares price fees).
Proof.
  unfold create_portfolio, range. rewrite Nat.sub_0_r. intros Hrun.
  set (N := shape1 stock_prices) in *.
  pose (I := fun k (st : list Z * list entry) =>
       length (fst st) = N /\
       (forall i, k <= i < N -> fst st !! i = Some 0%Z) /\
       exists written,
         snd st = ledger ++ written /\ length written = k /\
         forall i, i < k ->
           exists amount price shares,
             amounts !! i = Some amount /\
             getitem stock_prices 0 i = Ok price /\
             py_int (fdiv (fsub amount fees) price) = Ok shares /\
             fst st !! i = Some shares /\
             written !! i = Some (buy_entry 0 i shares price fees)).
  assert (Hind : I (0 + N) (portfolio, ledger')).
  { refine (for_each_seq_ind I _ N 0 _ _ _ _ Hrun); unfold I.
    - simpl. split; [apply repeat_length|]. split.
      + intros i Hi. apply lookup_repeat. lia.
      + exists []. rewrite app_nil_r. repeat split. intros i Hi. lia.
    - intros k [pf L] [pf' L'] Hk (Hlen & Hzero & written & HL & Hwlen & Hall)
        Hbody.
      simpl in Hlen, Hzero, HL, Hall. subst L.
      apply bind_ok in Hbody as (amount & Hamount & Hbuy).
      apply index_ok in Hamount.
      apply buy_ok in Hbuy as (p & sh & h & Hp & Hsh & Hh & -> & ->).
      assert (h = 0%Z) by (rewrite Hzero in Hh by lia; congruence). subst h.
      simpl. split; [now rewrite length_insert|]. split.
      + intros i Hi. rewrite list_lookup_insert_ne by lia. apply Hzero. lia.
      + exists (written ++ [buy_entry 0 k sh p fees]).
        split; [now rewrite app_assoc|].
        split; [rewrite length_app; simpl; lia|].
        intros i Hi. destruct (decide (i = k)) as [->|Hne].
        * exists amount, p, sh. repeat split; try assumption.
          -- rewrite list_lookup_insert_eq by lia. now rewrite Z.add_0_l.
          -- rewrite <- Hwlen. apply list_lookup_middle. reflexivity.
        * destruct (Hall i) as (a & q & s & Ha & Hq & Hs & Hpf & Hw); [lia|].
          exists a, q, s. repeat split; try assumption.
          -- now rewrite list_lookup_insert_ne by auto.
          -- rewrite lookup_app_l by lia. exact Hw. }
  destruct Hind as (Hlen & _ & written & HL & Hwlen & Hall).
  - simpl in *. split; [exact Hlen|]. exists written. auto.
Qed.

(** X17.  A call of [create_portfolio] that returns had an amount for every
    stock of the price array.  It returns one holding per stock and has
    appended one purchase per stock to the ledger, in the order of the
    stocks and dated day 0: the holding of stock [i] is the number of shares
    logged for it, [int((amounts[i] - fees) / price)] at its price of day
    0. *)
Theorem create_portfolio_buys_each_stock (amounts : list float)
    (stock_prices : ndarray) (fees : float) (ledger : list entry)
    (portfolio : list Z) (ledger' : list entry) :
  create_portfolio amounts stock_prices fees ledger = Ok (portfolio, ledger') ->
  shape1 stock_prices <= length amounts /\
  length portfolio = shape1 stock_prices /\
  exists written,
    ledger' = ledger ++ written /\
    length written = shape1 stock_prices /\
    forall i, i < shape1 stock_prices ->
      exists amount price shares,
        amounts !! i = Some amount /\
        getitem stock_prices 0 i = Ok price /\
        py_int (fdiv (fsub amount fees) price) = Ok shares /\
        portfolio !! i = Some shares /\
        written !! i = Some (buy_entry 0 i shares price fees).
Proof.
  intros Hrun. apply create_portfolio_inv in Hrun as (Hlen & written & Hw).
  split; [|split; [exact Hlen|exists written; exact Hw]].
  destruct Hw as (_ & _ & Hall).
  destruct (le_lt_dec (shape1 stock_prices) (length amounts)) as [|Hlt];
    [assumption|exfalso].
  destruct (Hall (length amounts) Hlt) as (a & _ & _ & Ha & _).
  apply lookup_lt_Some in Ha. lia.
Qed.

Lemma create_portfolio_buys_each_stock_witness :
  exists portfolio ledger',
    create_portfolio [of_Z 100; of_Z 50] (as_matrix two_stocks) (of_Z 20) []
      = Ok (portfolio, ledger') /\
    shape1 (as_matrix two_stocks) <= length [of_Z 100; of_Z 50] /\
    length portfolio = shape1 (as_matrix two_stocks) /\
    exists written,
      ledger' = [] ++ written /\
      length written = shape1 (as_matrix two_stocks) /\
      forall i, i < shape1 (as_matrix two_stocks) ->
        exists amount price shares,
          [of_Z 100; of_Z 50] !! i = Some amount /\
          getitem (as_matrix two_stocks) 0 i = Ok price /\
          py_int (fdiv (fsub amount (of_Z 20)) price) = Ok shares /\
          portfolio !! i = Some shares /\
          written !! i = Some (buy_entry 0 i shares price (of_Z 20)).
Proof.
  do 2 eexists. split.
  - vm_compute. reflexivity.
  - refine (create_portfolio_buys_each_stock [of_Z 100; of_Z 50]
              (as_matrix two_stocks) (of_Z 20) [] _ _ _).
    vm_compute. reflexivity.
Defined.

(** ** Runs of [random] that cannot fail *)











(** ** Runs of [momentum] that cannot fail *)







